(** * Gallery search worker: indexing and retrieval

    A shallow embedding of [src/workers/gallery-search/index.js]: the
    request handlers [handleSearch], [handleGetTags], [handleIndex] and
    [handleIndexBatch], the boundary [fetch] that turns a thrown error into
    a 500 response, and the JavaScript primitives they rely on; then
    [handleGetImages], [corsResponse] and the routing of [fetch]
    ([worker_fetch]), and the two callers of the worker: [main] of
    [src/scripts/sync-gallery-tags.js] and the request that
    [Gallery.handleSearch] of [src/js/gallery.js] posts.

    Conventions of the model:
    - a JSON value is a [JsVal]; numbers are the integer-valued ones ([Z]),
      strings are sequences of code units below 256 ([string]);
    - embedding vectors and similarity scores are opaque ([Vec], [Score]);
    - the two bindings [env.AI] and [env.GALLERY_INDEX] are oracles that may
      fail; every call issued is recorded in a trace, and the records of
      every successful upsert are appended to the store (a later record
      supersedes an earlier one with the same id);
    - a JSON object is an association list with distinct keys. *)

From Stdlib Require Import List String Ascii ZArith Bool Lia Arith.
From Stdlib Require Import Numbers.DecimalString Sorting.Sorted.
From Stdlib Require Import Structures.OrderedTypeEx.
Import ListNotations.

Set Warnings "-register-all".

Local Open Scope string_scope.
Local Open Scope list_scope.

(** ** JavaScript values *)

Module Js.

Inductive JsVal : Type :=
| JUndefined
| JNull
| JBool (b : bool)
| JNum (n : Z)
| JStr (s : string)
| JArr (elems : list JsVal)
| JObj (props : list (string * JsVal)).

(** [Boolean(v)], the test behind [!v], [a || b] and [filter(Boolean)]. *)
Definition truthy (v : JsVal) : bool :=
  match v with
  | JUndefined | JNull => false
  | JBool b => b
  | JNum n => negb (n =? 0)%Z
  | JStr s => negb (s =? "")
  | JArr _ | JObj _ => true
  end.

(** [a || b] *)
Definition or_else (a b : JsVal) : JsVal := if truthy a then a else b.

(** [Array.isArray(v)] *)
Definition isArray (v : JsVal) : bool :=
  match v with JArr _ => true | _ => false end.

(** [typeof v === 'string'] *)
Definition isString (v : JsVal) : bool :=
  match v with JStr _ => true | _ => false end.

Definition Z_to_string (n : Z) : string :=
  NilZero.string_of_int (Z.to_int n).

(** [String(v)]; inside [join] an [undefined] or [null] element prints as
    the empty string.  A number is printed in decimal digits, which is the
    form JavaScript gives to a safe integer (from 1e21 on it switches to
    the exponent form); an object prints as [[object Object]], which is
    what JavaScript gives when the object has no [toString] key of its
    own (with one, which a JSON body cannot make a function, printing
    throws a [TypeError]).  Where a value is printed, the properties below
    keep to strings or to these values: see [text_field], [tags_field]
    and [unsplittable]. *)
Fixpoint to_string (v : JsVal) : string :=
  match v with
  | JUndefined => "undefined"
  | JNull => "null"
  | JBool true => "true"
  | JBool false => "false"
  | JNum n => Z_to_string n
  | JStr s => s
  | JArr l =>
      String.concat ","
        ((fix elems (l : list JsVal) : list string :=
            match l with
            | [] => []
            | x :: r =>
                (match x with
                 | JUndefined | JNull => ""
                 | _ => to_string x
                 end) :: elems r
            end) l)
  | JObj _ => "[object Object]"
  end.

Definition join_elem (v : JsVal) : string :=
  match v with
  | JUndefined | JNull => ""
  | _ => to_string v
  end.

(** [arr.join(sep)] *)
Definition join (sep : string) (l : list JsVal) : string :=
  String.concat sep (map join_elem l).

(** Property lookup on an object literal. *)
Fixpoint lookup (k : string) (props : list (string * JsVal)) : JsVal :=
  match props with
  | [] => JUndefined
  | (k', v) :: r => if k' =? k then v else lookup k r
  end.

(** ** Strings *)

(** [s.split(',')]: never empty, [''.split(',')] is [['']]. *)
Fixpoint split_comma (s : string) : list string :=
  match s with
  | EmptyString => [""]
  | String c r =>
      if Ascii.eqb c ","%char then "" :: split_comma r
      else match split_comma r with
           | [] => [String c ""]
           | h :: t => String c h :: t
           end
  end.

(** White space removed by [trim]: TAB, LF, VT, FF, CR, SP and NBSP. *)
Definition is_ws (c : ascii) : bool :=
  let n := nat_of_ascii c in
  ((9 <=? n)%nat && (n <=? 13)%nat) || (n =? 32)%nat || (n =? 160)%nat.

Fixpoint trim_start (s : string) : string :=
  match s with
  | EmptyString => ""
  | String c r => if is_ws c then trim_start r else s
  end.

Fixpoint trim_end (s : string) : string :=
  match s with
  | EmptyString => ""
  | String c r =>
      match trim_end r with
      | EmptyString => if is_ws c then "" else String c ""
      | r' => String c r'
      end
  end.

(** [s.trim()] *)
Definition trim (s : string) : string := trim_end (trim_start s).

Definition nonempty (s : string) : bool := negb (s =? "").

End Js.
Import Js.

(** ** Results of a handler: a value, a thrown error, or fuel exhausted *)

Inductive Res (A : Type) : Type :=
| Ret (a : A)
| Throw (message : string)
| Timeout.
Arguments Ret {A} a.
Arguments Throw {A} message.
Arguments Timeout {A}.

Definition bindR {A B} (r : Res A) (k : A -> Res B) : Res B :=
  match r with
  | Ret a => k a
  | Throw e => Throw e
  | Timeout => Timeout
  end.

Fixpoint mapR {A B} (f : A -> Res B) (l : list A) : Res (list B) :=
  match l with
  | [] => Ret []
  | x :: r => bindR (f x) (fun y => bindR (mapR f r) (fun ys => Ret (y :: ys)))
  end.

(** [arr.map((x, idx) => f(x, idx))], stopping at the first throw. *)
Fixpoint mapiR {A B} (f : nat -> A -> Res B) (idx : nat) (l : list A)
  : Res (list B) :=
  match l with
  | [] => Ret []
  | x :: r =>
      bindR (f idx x) (fun y => bindR (mapiR f (S idx) r) (fun ys => Ret (y :: ys)))
  end.

Definition dquote : string := String (ascii_of_nat 34) "".

(** [o.k] and the destructuring [const { k } = o]: a [TypeError] on
    [undefined] and [null].  None of the property names read by the worker
    exists on a string, an array, a number or a boolean. *)
Definition get_prop (o : JsVal) (k : string) : Res JsVal :=
  match o with
  | JUndefined | JNull =>
      Throw ("Cannot read properties of " ++ to_string o ++ " (reading '" ++ k ++ "')")
  | JObj props => Ret (lookup k props)
  | _ => Ret JUndefined
  end.

(** [m?.k] *)
Definition get_prop_opt (o : JsVal) (k : string) : JsVal :=
  match o with
  | JObj props => lookup k props
  | _ => JUndefined
  end.

(** ** Building the text to embed and the metadata (lines 167-172, 186-193,
    228-233 and 244-251) *)

(** [[caption || '', alt || '', Array.isArray(tags) ? tags.join(' ') :
    (tags || ''), project || ''].filter(Boolean).join('. ')] *)
Definition textForEmbedding (caption alt tags project : JsVal) : string :=
  join ". "
    (filter truthy
       [ or_else caption (JStr "");
         or_else alt (JStr "");
         match tags with
         | JArr l => JStr (join " " l)
         | _ => or_else tags (JStr "")
         end;
         or_else project (JStr "") ]).

(** The message of the [TypeError] for [(callee || '').split(...)] on a
    value without [split], as V8 words it: the string literal of the
    expression is printed with double quotes. *)
Definition splitNotFunction (callee : string) : string :=
  "(" ++ callee ++ " || " ++ dquote ++ dquote ++ ").split is not a function".

(** [v.split(',').map(t => t.trim())]; [split] exists on strings only.
    [callee] is the expression the value comes from, [tags] at line 187
    and [img.tags] at line 245. *)
Definition split_trim_at (callee : string) (v : JsVal) : Res JsVal :=
  match v with
  | JStr s => Ret (JArr (map JStr (map trim (split_comma s))))
  | _ => Throw (splitNotFunction callee)
  end.

(** [Array.isArray(tags) ? tags : (tags || '').split(',').map(t => t.trim())] *)
Definition metadataTags_at (callee : string) (tags : JsVal) : Res JsVal :=
  if isArray tags then Ret tags
  else split_trim_at callee (or_else tags (JStr "")).

Definition buildMetadata_at (callee : string)
  (tags alt caption project src thumb : JsVal) : Res JsVal :=
  bindR (metadataTags_at callee tags) (fun t =>
  Ret (JObj [ ("tags", t);
              ("alt", or_else alt (JStr ""));
              ("caption", or_else caption (JStr ""));
              ("project", or_else project (JStr ""));
              ("src", or_else src (JStr ""));
              ("thumb", or_else thumb (JStr "")) ])).

(** The three as [handleIndex] has them, on its variable [tags]. *)
Definition split_trim (v : JsVal) : Res JsVal := split_trim_at "tags" v.

Definition metadataTags (tags : JsVal) : Res JsVal :=
  metadataTags_at "tags" tags.

Definition buildMetadata (tags alt caption project src thumb : JsVal)
  : Res JsVal :=
  buildMetadata_at "tags" tags alt caption project src thumb.

(** ** [Set] and [Array.prototype.sort] as [handleGetTags] uses them *)

(** SameValueZero.  Arrays and objects compare by identity; the ones met
    here are freshly deserialised, hence never identical. *)
Definition same_value_zero (a b : JsVal) : bool :=
  match a, b with
  | JUndefined, JUndefined => true
  | JNull, JNull => true
  | JBool x, JBool y => Bool.eqb x y
  | JNum x, JNum y => (x =? y)%Z
  | JStr x, JStr y => (x =? y)
  | _, _ => false
  end.

(** [set.add(x)]: insertion order is kept, a present value is not added. *)
Definition set_add (set : list JsVal) (x : JsVal) : list JsVal :=
  if existsb (same_value_zero x) set then set else set ++ [x].

Fixpoint sort_insert (x : JsVal) (l : list JsVal) : list JsVal :=
  match l with
  | [] => [x]
  | y :: r =>
      if String.leb (to_string x) (to_string y) then x :: l
      else y :: sort_insert x r
  end.

Definition is_undefined (v : JsVal) : bool :=
  match v with JUndefined => true | _ => false end.

(** [arr.sort()] with the default comparator: [undefined] goes last, the
    rest is ordered by the code units of [String(v)], stably. *)
Definition js_sort (l : list JsVal) : list JsVal :=
  fold_right sort_insert [] (filter (fun v => negb (is_undefined v)) l)
  ++ filter is_undefined l.

(** [arr.slice(i, j)] for [0 <= i <= j] *)
Definition slice {A} (i j : nat) (l : list A) : list A :=
  firstn (j - i) (skipn i l).

(** ** The worker *)

Section Worker.

(** Components of an embedding and similarity scores are floating-point
    numbers; the worker never computes with them. *)
Variable Float : Type.
Variable fzero : Float.

Definition Vec : Type := list Float.

(** An element of the array given to [GALLERY_INDEX.upsert]; [values] is
    [None] when [embeddingResult.data[idx]] is [undefined]. *)
Record VectorRecord : Type := mkVectorRecord {
  vr_id : JsVal;
  vr_values : option Vec;
  vr_metadata : JsVal
}.

(** An element of [results.matches]. *)
Record Match : Type := mkMatch {
  m_id : JsVal;
  m_score : Float;
  m_metadata : JsVal
}.

(** [Math.min(limit, 100)]; the numeric coercion of a limit that is not a
    number is left uninterpreted. *)
Inductive TopK : Type :=
| TopKInt (k : Z)
| TopKCoerced (limit : JsVal).

Definition math_min_limit (limit : JsVal) (bound : Z) : TopK :=
  match limit with
  | JNum n => TopKInt (Z.min n bound)
  | v => TopKCoerced v
  end.

(** Calls issued to the two bindings, in order. *)
Inductive Event : Type :=
| EvEmbed (texts : list string)
| EvUpsert (vectors : list VectorRecord)
| EvQuery (vector : option Vec) (topK : TopK).

Record World : Type := mkWorld {
  trace : list Event;
  store : list VectorRecord
}.

Definition world0 : World := mkWorld [] [].

Definition is_embed (e : Event) : bool :=
  match e with EvEmbed _ => true | _ => false end.
Definition is_upsert (e : Event) : bool :=
  match e with EvUpsert _ => true | _ => false end.

Definition embed_calls (w : World) : nat := List.length (filter is_embed (trace w)).
Definition upsert_calls (w : World) : nat := List.length (filter is_upsert (trace w)).

(** The bindings.  [ai_run n texts] is the outcome of the [n]-th call
    (from 0) of [env.AI.run(EMBEDDING_MODEL, { text: texts })]: an error
    message or the [data] array.  [index_upsert n vectors] is the outcome of
    the [n]-th upsert: [Some] error message, or [None] on success.
    [index_query] answers from the current content of the index. *)
Variable ai_run : nat -> list string -> string + list Vec.
Variable index_upsert : nat -> list VectorRecord -> option string.
Variable index_query :
  list VectorRecord -> option Vec -> TopK -> string + list Match.

Definition M (A : Type) : Type := World -> Res A * World.

Definition ret {A} (a : A) : M A := fun w => (Ret a, w).
Definition bind {A B} (m : M A) (k : A -> M B) : M B :=
  fun w =>
    match m w with
    | (Ret a, w') => k a w'
    | (Throw e, w') => (Throw e, w')
    | (Timeout, w') => (Timeout, w')
    end.
Definition liftR {A} (r : Res A) : M A := fun w => (r, w).

Notation "x <- c ;; k" := (bind c (fun x => k))
  (at level 61, c at next level, right associativity).

Definition log (e : Event) (w : World) : World :=
  mkWorld (trace w ++ [e]) (store w).

(** [await env.AI.run(EMBEDDING_MODEL, { text: texts })], returning [data] *)
Definition AI_run (texts : list string) : M (list Vec) :=
  fun w =>
    let w' := log (EvEmbed texts) w in
    match ai_run (embed_calls w) texts with
    | inl e => (Throw e, w')
    | inr data => (Ret data, w')
    end.

(** [await env.GALLERY_INDEX.upsert(vectors)] *)
Definition INDEX_upsert (vectors : list VectorRecord) : M unit :=
  fun w =>
    let w' := log (EvUpsert vectors) w in
    match index_upsert (upsert_calls w) vectors with
    | Some e => (Throw e, w')
    | None => (Ret tt, mkWorld (trace w') (store w' ++ vectors))
    end.

(** [await env.GALLERY_INDEX.query(vector, { topK, returnMetadata: 'all' })],
    returning [matches] *)
Definition INDEX_query (vector : option Vec) (topK : TopK) : M (list Match) :=
  fun w =>
    let w' := log (EvQuery vector topK) w in
    match index_query (store w) vector topK with
    | inl e => (Throw e, w')
    | inr ms => (Ret ms, w')
    end.

(** *** Responses *)

Record SearchResult : Type := mkSearchResult {
  sr_id : JsVal;
  sr_score : Float;
  sr_metadata : JsVal
}.

(** The value handed to [JSON.stringify]. *)
Inductive Payload : Type :=
| PJson (data : JsVal)
| PMatches (matches : list SearchResult).

Record Response : Type := mkResponse {
  status : Z;
  payload : Payload
}.

Definition jsonResponse (data : JsVal) (st : Z) : Response :=
  mkResponse st (PJson data).

Definition errorBody (msg : string) : JsVal := JObj [("error", JStr msg)].

(** [const { k } = body]: a [TypeError] when [body] is [null]. *)
Definition destructure (body : JsVal) (k : string) : Res JsVal :=
  match body with
  | JUndefined | JNull =>
      Throw ("Cannot destructure property '" ++ k ++ "' of 'body' as it is "
             ++ to_string body ++ ".")
  | JObj props => Ret (lookup k props)
  | _ => Ret JUndefined
  end.

Definition invalidQueryMessage : string :=
  "Missing or invalid " ++ dquote ++ "query" ++ dquote ++ " field".
Definition missingIdMessage : string :=
  "Missing " ++ dquote ++ "id" ++ dquote ++ " field".
Definition noTextMessage : string :=
  "No text content to embed (provide caption, alt, or tags)".
Definition emptyBatchMessage : string :=
  "Missing or empty " ++ dquote ++ "images" ++ dquote ++ " array".

(** *** POST /search (lines 76-105) *)

(** The default of a destructured property, [{ k = d }]: used when the
    property is [undefined]. *)
Definition with_default (v d : JsVal) : JsVal :=
  match v with
  | JUndefined => d
  | _ => v
  end.

Definition formatMatch (m : Match) : SearchResult :=
  mkSearchResult (m_id m) (m_score m) (or_else (m_metadata m) (JObj [])).

Definition handleSearch (body : JsVal) : M Response :=
  query <- liftR (destructure body "query") ;;
  limit0 <- liftR (destructure body "limit") ;;
  let limit := with_default limit0 (JNum 20) in
  if negb (truthy query) || negb (isString query) then
    ret (jsonResponse (errorBody invalidQueryMessage) 400)
  else
    data <- AI_run [to_string query] ;;
    let queryVector := nth_error data 0 in
    matches <- INDEX_query queryVector (math_min_limit limit 100) ;;
    ret (mkResponse 200 (PMatches (map formatMatch matches))).

(** *** GET /tags (lines 111-132) *)

Definition collectTags (tagSet : list JsVal) (m : Match) : list JsVal :=
  match get_prop_opt (m_metadata m) "tags" with
  | JArr tags => fold_left set_add tags tagSet
  | JStr s =>
      fold_left set_add
        (map JStr (filter nonempty (map trim (split_comma s)))) tagSet
  | _ => tagSet
  end.

Definition handleGetTags : M Response :=
  matches <- INDEX_query (Some (repeat fzero 768)) (TopKInt 10000) ;;
  ret (jsonResponse (JArr (js_sort (fold_left collectTags matches []))) 200).

(** *** POST /index (lines 158-205) *)

Definition handleIndex (body : JsVal) : M Response :=
  id <- liftR (destructure body "id") ;;
  tags <- liftR (destructure body "tags") ;;
  alt <- liftR (destructure body "alt") ;;
  caption <- liftR (destructure body "caption") ;;
  project <- liftR (destructure body "project") ;;
  src <- liftR (destructure body "src") ;;
  thumb <- liftR (destructure body "thumb") ;;
  if negb (truthy id) then
    ret (jsonResponse (errorBody missingIdMessage) 400)
  else
    let text := textForEmbedding caption alt tags project in
    if text =? "" then
      ret (jsonResponse (errorBody noTextMessage) 400)
    else
      data <- AI_run [text] ;;
      let vector := nth_error data 0 in
      metadata <- liftR (buildMetadata tags alt caption project src thumb) ;;
      _ <- INDEX_upsert [mkVectorRecord id vector metadata] ;;
      ret (jsonResponse (JObj [("success", JBool true); ("id", id)]) 200).

(** *** POST /index-batch (lines 211-260) *)

Definition batchSize : nat := 10.

(** The callback of [batch.map] at lines 227-234. *)
Definition imageText (img : JsVal) : Res string :=
  bindR (get_prop img "caption") (fun caption =>
  bindR (get_prop img "alt") (fun alt =>
  bindR (get_prop img "tags") (fun tags =>
  bindR (get_prop img "project") (fun project =>
  Ret (textForEmbedding caption alt tags project))))).

(** The callback of [batch.map] at lines 241-252. *)
Definition imageVector (data : list Vec) (idx : nat) (img : JsVal)
  : Res VectorRecord :=
  bindR (get_prop img "id") (fun id =>
  bindR (get_prop img "tags") (fun tags =>
  bindR (get_prop img "alt") (fun alt =>
  bindR (get_prop img "caption") (fun caption =>
  bindR (get_prop img "project") (fun project =>
  bindR (get_prop img "src") (fun src =>
  bindR (get_prop img "thumb") (fun thumb =>
  bindR (buildMetadata_at "img.tags" tags alt caption project src thumb)
    (fun metadata =>
  Ret (mkVectorRecord id (nth_error data idx) metadata))))))))).

(** The callback of [batch.map] at line 256. *)
Definition imageResult (img : JsVal) : Res JsVal :=
  bindR (get_prop img "id") (fun id =>
  Ret (JObj [("id", id); ("success", JBool true)])).

(** The body of the [for] loop, lines 224-256: the entries pushed onto
    [results] for one batch. *)
Definition processBatch (batch : list JsVal) : M (list JsVal) :=
  texts <- liftR (mapR imageText batch) ;;
  data <- AI_run texts ;;
  vectors <- liftR (mapiR (imageVector data) 0 batch) ;;
  _ <- INDEX_upsert vectors ;;
  liftR (mapR imageResult batch).

(** The [for] loop of lines 223-257, from index [i] with [results] so far.
    One unit of fuel is spent per iteration. *)
Fixpoint batch_loop (fuel i : nat) (images results : list JsVal)
  : M (list JsVal) :=
  if Nat.ltb i (List.length images) then
    match fuel with
    | O => fun w => (Timeout, w)
    | S fuel' =>
        let batch := slice i (i + batchSize) images in
        entries <- processBatch batch ;;
        batch_loop fuel' (i + batchSize) images (results ++ entries)
    end
  else ret results.

(** The same loop over the list of chunks. *)
Fixpoint run_chunks (cs : list (list JsVal)) (results : list JsVal)
  : M (list JsVal) :=
  match cs with
  | [] => ret results
  | batch :: rest =>
      entries <- processBatch batch ;;
      run_chunks rest (results ++ entries)
  end.

Definition handleIndexBatch (body : JsVal) : M Response :=
  images <- liftR (destructure body "images") ;;
  match images with
  | JArr imgs =>
      if Nat.eqb (List.length imgs) 0 then
        ret (jsonResponse (errorBody emptyBatchMessage) 400)
      else
        results <- batch_loop (List.length imgs) 0 imgs [] ;;
        ret (jsonResponse
               (JObj [ ("success", JBool true);
                       ("indexed", JNum (Z.of_nat (List.length results)));
                       ("results", JArr results) ]) 200)
  | _ => (* not an array *)
      ret (jsonResponse (errorBody emptyBatchMessage) 400)
  end.

(** *** The request boundary (lines 34-67) *)

Inductive Route : Type :=
| PostSearch
| GetTags
| PostIndex
| PostIndexBatch.

Definition dispatch (r : Route) (body : JsVal) : M Response :=
  match r with
  | PostSearch => handleSearch body
  | GetTags => handleGetTags
  | PostIndex => handleIndex body
  | PostIndexBatch => handleIndexBatch body
  end.

(** [try { ... } catch (err) { return jsonResponse({ error: err.message },
    500) }]; [None] only if the fuel of the batch loop ran out.
    [corsResponse] adds headers and keeps status and body. *)
Definition fetch (r : Route) (body : JsVal) (w : World)
  : option Response * World :=
  match dispatch r body w with
  | (Ret resp, w') => (Some resp, w')
  | (Throw e, w') => (Some (jsonResponse (errorBody e) 500), w')
  | (Timeout, w') => (None, w')
  end.

End Worker.

Arguments mkVectorRecord {Float}.
Arguments vr_id {Float}.
Arguments vr_values {Float}.
Arguments vr_metadata {Float}.
Arguments mkMatch {Float}.
Arguments m_id {Float}.
Arguments m_score {Float}.
Arguments m_metadata {Float}.
Arguments EvEmbed {Float}.
Arguments EvUpsert {Float}.
Arguments EvQuery {Float}.
Arguments mkWorld {Float}.
Arguments trace {Float}.
Arguments store {Float}.
Arguments world0 {Float}.
Arguments mkResponse {Float}.
Arguments status {Float}.
Arguments payload {Float}.
Arguments PJson {Float}.
Arguments PMatches {Float}.
Arguments mkSearchResult {Float}.
Arguments jsonResponse {Float}.

(** ** Reference definitions used to state the properties *)

(** The tag normalisation as the specification words it: an array is kept,
    a string is split on commas, trimmed, and its empty segments dropped. *)
Definition spec_normalizeTags (raw : JsVal) : option (list JsVal) :=
  match raw with
  | JArr l => Some l
  | JStr s => Some (map JStr (filter nonempty (map trim (split_comma s))))
  | _ => None
  end.

(** The embedded text as the specification words it, over the components
    as strings and the normalised tags. *)
Definition spec_text (caption alt : string) (tags : list string)
  (project : string) : string :=
  String.concat ". "
    (filter nonempty [caption; alt; String.concat " " tags; project]).

(** [clamp(x, lo, hi)] *)
Definition clamp (x lo hi : Z) : Z := Z.max lo (Z.min x hi).

(** A request field that is a string when present. *)
Definition opt_js (o : option string) : JsVal :=
  match o with
  | Some s => JStr s
  | None => JUndefined
  end.

Definition opt_str (o : option string) : string :=
  match o with
  | Some s => s
  | None => ""
  end.

(** The [tags] field of a request: absent, one string, or an array of
    strings. *)
Inductive RawTags : Type :=
| TagsAbsent
| TagsString (s : string)
| TagsArray (l : list string).

Definition tags_js (t : RawTags) : JsVal :=
  match t with
  | TagsAbsent => JUndefined
  | TagsString s => JStr s
  | TagsArray l => JArr (map JStr l)
  end.

(** The tags component of the embedded text, as the code builds it. *)
Definition tags_component (t : RawTags) : string :=
  match t with
  | TagsAbsent => ""
  | TagsString s => s
  | TagsArray l => String.concat " " l
  end.

(** A request item whose optional fields are strings when present. *)
Record RawImage : Type := mkRawImage {
  raw_id : JsVal;
  raw_tags : RawTags;
  raw_alt : option string;
  raw_caption : option string;
  raw_project : option string;
  raw_src : option string;
  raw_thumb : option string
}.

Definition image_js (r : RawImage) : JsVal :=
  JObj [ ("id", raw_id r);
         ("tags", tags_js (raw_tags r));
         ("alt", opt_js (raw_alt r));
         ("caption", opt_js (raw_caption r));
         ("project", opt_js (raw_project r));
         ("src", opt_js (raw_src r));
         ("thumb", opt_js (raw_thumb r)) ].

(** The text embedded for a typed item: the tags component is the array
    joined with spaces, or the tags string as supplied. *)
Definition typed_text (r : RawImage) : string :=
  String.concat ". "
    (filter nonempty
       [ opt_str (raw_caption r); opt_str (raw_alt r);
         tags_component (raw_tags r); opt_str (raw_project r) ]).

(** Partition into consecutive chunks of [n] elements, the last one
    possibly shorter. *)
Fixpoint chunks_fuel {A} (fuel n : nat) (l : list A) : list (list A) :=
  match fuel with
  | O => []
  | S fuel' =>
      match l with
      | [] => []
      | _ => firstn n l :: chunks_fuel fuel' n (skipn n l)
      end
  end.

Definition chunks {A} (n : nat) (l : list A) : list (list A) :=
  chunks_fuel (List.length l) n l.

Fixpoint mapi {A B} (f : nat -> A -> B) (idx : nat) (l : list A) : list B :=
  match l with
  | [] => []
  | x :: r => f idx x :: mapi f (S idx) r
  end.

(** The [indexed] field of a JSON response body, if it has one. *)
Definition reported_count {Float} (r : Response Float) : option JsVal :=
  match payload r with
  | PJson (JObj props) =>
      if existsb (fun kv => fst kv =? "indexed") props
      then Some (lookup "indexed" props) else None
  | _ => None
  end.

(** String-level counterparts of [set_add] and [js_sort]. *)
Definition str_add (set : list string) (x : string) : list string :=
  if existsb (String.eqb x) set then set else set ++ [x].

Fixpoint str_insert (x : string) (l : list string) : list string :=
  match l with
  | [] => [x]
  | y :: r => if String.leb x y then x :: l else y :: str_insert x r
  end.

Definition str_sort (l : list string) : list string :=
  fold_right str_insert [] l.

(** Stand-ins for the bindings, with [Z] for the floating-point type. *)
Definition ai_ok (n : nat) (texts : list string) : string + list (Vec Z) :=
  inr (mapi (fun i _ => [Z.of_nat n; Z.of_nat i]) 0 texts).

Definition ai_fail_at (k n : nat) (texts : list string)
  : string + list (Vec Z) :=
  if Nat.eqb n k then inl "embedding unavailable" else ai_ok n texts.

Definition upsert_ok (n : nat) (vectors : list (VectorRecord Z))
  : option string := None.

Definition upsert_fail_at (k n : nat) (vectors : list (VectorRecord Z))
  : option string :=
  if Nat.eqb n k then Some "index unavailable" else None.

(** An index that returns every stored record, with score 0. *)
Definition query_all (st : list (VectorRecord Z)) (v : option (Vec Z))
  (k : TopK) : string + list (Match Z) :=
  inr (map (fun r => mkMatch (vr_id r) 0%Z (vr_metadata r)) st).


(** [n] images [{ id: 'img<i>', caption: 'c' }]. *)
Definition sample_images (n : nat) : list JsVal :=
  map (fun i => JObj [("id", JStr ("img" ++ Z_to_string (Z.of_nat i)));
                      ("caption", JStr "c")])
      (seq 0 n).

Definition sample_body (n : nat) : list (string * JsVal) :=
  [("images", JArr (sample_images n))].

(** A typed record [{ id: 'img1', caption: 'c', tags: 'a,b' }]. *)
Definition sample_record : RawImage :=
  mkRawImage (JStr "img1") (TagsString "a,b") None (Some "c") None None None.

(** Two stored records with tags [a, b] and [b, c]. *)
Definition sample_store : list (VectorRecord Z) :=
  [ mkVectorRecord (JStr "img1") (Some [0%Z])
      (JObj [("tags", JArr [JStr "a"; JStr "b"])]);
    mkVectorRecord (JStr "img2") (Some [0%Z])
      (JObj [("tags", JArr [JStr "b"; JStr "c"])]) ].

Definition event_shape {Float} (e : Event Float) : string * nat :=
  match e with
  | EvEmbed texts => ("embed", List.length texts)
  | EvUpsert vectors => ("upsert", List.length vectors)
  | EvQuery _ _ => ("query", 0)
  end.

(** An item the two [batch.map] callbacks accept: not [null] or
    [undefined], and with a [tags] field that is an array, a string or
    falsy. *)
Definition item_ok (img : JsVal) : bool :=
  match img with
  | JUndefined | JNull => false
  | _ =>
      match metadataTags (get_prop_opt img "tags") with
      | Ret _ => true
      | _ => false
      end
  end.

(** A text field as the gallery sends it: a string, or a falsy value, which
    [filter(Boolean)] drops before anything is printed. *)
Definition text_field (v : JsVal) : bool := isString v || negb (truthy v).

(** A [tags] field as the gallery sends it: an array of strings, a string,
    or a falsy value. *)
Definition tags_field (v : JsVal) : bool :=
  match v with
  | JArr l => forallb isString l
  | _ => text_field v
  end.

(** An item whose four printed fields are typed: on these [to_string] is
    never applied to a number or an object, so that the text built by
    [join] is the one JavaScript builds. *)
Definition item_typed (img : JsVal) : bool :=
  match img with
  | JUndefined | JNull => false
  | _ =>
      text_field (get_prop_opt img "caption")
      && text_field (get_prop_opt img "alt")
      && tags_field (get_prop_opt img "tags")
      && text_field (get_prop_opt img "project")
  end.

Definition item_id (img : JsVal) : JsVal := get_prop_opt img "id".

Definition item_text (img : JsVal) : string :=
  textForEmbedding (get_prop_opt img "caption") (get_prop_opt img "alt")
    (get_prop_opt img "tags") (get_prop_opt img "project").

Definition item_metadata (img : JsVal) : JsVal :=
  match buildMetadata (get_prop_opt img "tags") (get_prop_opt img "alt")
          (get_prop_opt img "caption") (get_prop_opt img "project")
          (get_prop_opt img "src") (get_prop_opt img "thumb") with
  | Ret md => md
  | _ => JUndefined
  end.

Definition item_vector {Float} (data : list (Vec Float)) (idx : nat)
  (img : JsVal) : VectorRecord Float :=
  mkVectorRecord (item_id img) (nth_error data idx) (item_metadata img).

Definition item_result (img : JsVal) : JsVal :=
  JObj [("id", item_id img); ("success", JBool true)].

(** The records of a chunk: the i-th returned vector goes to the i-th
    item. *)
Definition assign {Float} (data : list (Vec Float)) (batch : list JsVal)
  : list (VectorRecord Float) :=
  mapi (item_vector data) 0 batch.

Definition ai_data {Float} (ai_run : nat -> list string -> string + list (Vec Float))
  (n : nat) (texts : list string) : list (Vec Float) :=
  match ai_run n texts with
  | inr data => data
  | inl _ => []
  end.

(** Calls and stored records of a run in which chunk [j] of [cs] gets the
    embedding call number [na + j] and every call succeeds. *)
Fixpoint batch_events {Float}
  (ai_run : nat -> list string -> string + list (Vec Float))
  (na : nat) (cs : list (list JsVal)) : list (Event Float) :=
  match cs with
  | [] => []
  | c :: rest =>
      EvEmbed (map item_text c)
      :: EvUpsert (assign (ai_data ai_run na (map item_text c)) c)
      :: batch_events ai_run (S na) rest
  end.

Fixpoint batch_records {Float}
  (ai_run : nat -> list string -> string + list (Vec Float))
  (na : nat) (cs : list (list JsVal)) : list (VectorRecord Float) :=
  match cs with
  | [] => []
  | c :: rest =>
      assign (ai_data ai_run na (map item_text c)) c
      ++ batch_records ai_run (S na) rest
  end.

(** Records handed to [upsert] in the calls of a trace. *)
Definition upserted {Float} (tr : list (Event Float))
  : list (VectorRecord Float) :=
  flat_map (fun e => match e with EvUpsert vs => vs | _ => [] end) tr.

(** How a request field is stored: the value itself when truthy, the empty
    string otherwise; hence a string for a string or falsy field. *)
Definition field_stored (input stored : JsVal) : Prop :=
  stored = or_else input (JStr "")
  /\ (isString input = true \/ truthy input = false -> isString stored = true)
  /\ (input = JUndefined -> stored = JStr "").

Definition stored_metadata (img md : JsVal) : Prop :=
  exists t a c p s th,
    md = JObj [ ("tags", JArr t); ("alt", a); ("caption", c);
                ("project", p); ("src", s); ("thumb", th) ]
    /\ field_stored (get_prop_opt img "alt") a
    /\ field_stored (get_prop_opt img "caption") c
    /\ field_stored (get_prop_opt img "project") p
    /\ field_stored (get_prop_opt img "src") s
    /\ field_stored (get_prop_opt img "thumb") th.

(** Strict order of strings by code units. *)
Definition str_lt (a b : string) : Prop := String.ltb a b = true.

(** ** The rest of the worker: GET /images, CORS and routing *)

(** [o[k] = v] while an object or a [Headers] list is built: the value of a
    key already present is replaced in place, a new key goes last. *)
Fixpoint assoc_set {V} (k : string) (v : V) (l : list (string * V))
  : list (string * V) :=
  match l with
  | [] => [(k, v)]
  | (k', v') :: r =>
      if k' =? k then (k', v) :: r else (k', v') :: assoc_set k v r
  end.

Fixpoint assoc_get {V} (k : string) (l : list (string * V)) : option V :=
  match l with
  | [] => None
  | (k', v) :: r => if k' =? k then Some v else assoc_get k r
  end.

(** [k in o] for an own property *)
Definition has_key (k : string) (l : list (string * JsVal)) : bool :=
  existsb (fun kv => fst kv =? k) l.

(** A truthy [tags] value without a [split] method whose printed form is
    the one of [to_string]: [true], a non-zero safe integer, or an object
    that has no [toString] key of its own (with one, which cannot be a
    function in a JSON body, printing the object throws). *)
Definition unsplittable (v : JsVal) : bool :=
  match v with
  | JBool b => b
  | JNum n => negb (n =? 0)%Z && (Z.abs n <=? 9007199254740991)%Z
  | JObj props => negb (has_key "toString" props)
  | _ => false
  end.

(** The own enumerable properties that [{ ...v }] copies: those of an
    object, the indexed elements of an array, the indexed code units of a
    string, none for the other values. *)
Definition spread_props (v : JsVal) : list (string * JsVal) :=
  match v with
  | JObj props => props
  | JArr l => mapi (fun i x => (Z_to_string (Z.of_nat i), x)) 0 l
  | JStr s =>
      mapi (fun i c => (Z_to_string (Z.of_nat i), JStr (String c "")))
        0 (list_ascii_of_string s)
  | _ => []
  end.

(** [{ ...target, ...v }] *)
Definition spread_into (target : list (string * JsVal)) (v : JsVal)
  : list (string * JsVal) :=
  fold_left (fun acc kv => assoc_set (fst kv) (snd kv) acc) (spread_props v)
    target.

(** A request as [fetch] reads it: method, [url.pathname], the [Origin]
    header if any, and what [request.json()] gives, the parser's error
    message or the value. *)
Record Request : Type := mkRequest {
  req_method : string;
  req_path : string;
  req_origin : option string;
  req_json : string + JsVal
}.

Section WorkerRest.

Variable Float : Type.
Variable fzero : Float.
Variable ai_run : nat -> list string -> string + list (Vec Float).
Variable index_upsert : nat -> list (VectorRecord Float) -> option string.
Variable index_query :
  list (VectorRecord Float) -> option (Vec Float) -> TopK
  -> string + list (Match Float).

(** [env.ALLOWED_ORIGINS], when set. *)
Variable allowed_origins : option string.

Local Notation "x <- c ;; k" := (bind Float c (fun x => k))
  (at level 61, c at next level, right associativity).

(** *** GET /images (lines 138-151) *)

(** [{ id: match.id, ...match.metadata }] *)
Definition imageEntry (m : Match Float) : JsVal :=
  JObj (spread_into [("id", m_id m)] (m_metadata m)).

Definition handleGetImages : M Float (Response Float) :=
  matches <- INDEX_query Float index_query (Some (repeat fzero 768))
               (TopKInt 10000) ;;
  ret Float (jsonResponse (JArr (map imageEntry matches)) 200).

(** *** Responses with their headers *)

Inductive Body : Type :=
| BodyNull
| BodyText (text : string)
| BodyJson (data : Payload Float).

(** Header names are kept in lower case, as [Headers] does. *)
Record HttpResponse : Type := mkHttpResponse {
  hr_status : Z;
  hr_headers : list (string * string);
  hr_body : Body
}.

(** [new Response(null, { status })] *)
Definition nullResponse (st : Z) : HttpResponse :=
  mkHttpResponse st [] BodyNull.

(** [new Response(text, { status })]: a string body gets the default
    content type. *)
Definition textResponse (text : string) (st : Z) : HttpResponse :=
  mkHttpResponse st [("content-type", "text/plain;charset=UTF-8")]
    (BodyText text).

(** [jsonResponse(data, status)] with its header (lines 265-270). *)
Definition httpJson (r : Response Float) : HttpResponse :=
  mkHttpResponse (status r) [("content-type", "application/json")]
    (BodyJson (payload r)).

(** *** [corsResponse] (lines 275-296) *)

Definition allowedOrigins : list string :=
  map trim (split_comma (opt_str allowed_origins)).

(** [arr.includes(x)] on strings *)
Definition includes (l : list string) (x : string) : bool :=
  existsb (String.eqb x) l.

Definition corsResponse (origin : option string) (response : HttpResponse)
  : HttpResponse :=
  let headers := hr_headers response in
  let headers :=
    match origin with
    | Some o =>
        if nonempty o then
          if includes allowedOrigins o || includes allowedOrigins "*"
          then assoc_set "access-control-allow-origin" o headers
          else headers
        else assoc_set "access-control-allow-origin" "*" headers
    | None => assoc_set "access-control-allow-origin" "*" headers
    end in
  let headers :=
    assoc_set "access-control-allow-methods" "GET, POST, OPTIONS" headers in
  let headers :=
    assoc_set "access-control-allow-headers" "Content-Type, Authorization"
      headers in
  let headers := assoc_set "access-control-max-age" "86400" headers in
  mkHttpResponse (hr_status response) headers (hr_body response).

(** *** [fetch] with its routing (lines 25-68) *)

(** [await request.json()] *)
Definition request_json (request : Request) : M Float JsVal :=
  liftR Float
    match req_json request with
    | inl e => Throw e
    | inr v => Ret v
    end.

Definition healthBody : JsVal :=
  JObj [("status", JStr "ok"); ("service", JStr "gallery-search")].

(** The body of the [try] block. *)
Definition routeRequest (request : Request) : M Float HttpResponse :=
  let path := req_path request in
  let method := req_method request in
  if (path =? "/search") && (method =? "POST") then
    body <- request_json request ;;
    r <- handleSearch Float ai_run index_query body ;;
    ret Float (httpJson r)
  else if (path =? "/tags") && (method =? "GET") then
    r <- handleGetTags Float fzero index_query ;;
    ret Float (httpJson r)
  else if (path =? "/images") && (method =? "GET") then
    r <- handleGetImages ;;
    ret Float (httpJson r)
  else if (path =? "/index") && (method =? "POST") then
    body <- request_json request ;;
    r <- handleIndex Float ai_run index_upsert body ;;
    ret Float (httpJson r)
  else if (path =? "/index-batch") && (method =? "POST") then
    body <- request_json request ;;
    r <- handleIndexBatch Float ai_run index_upsert body ;;
    ret Float (httpJson r)
  else if (path =? "/") || (path =? "/health") then
    ret Float (httpJson (jsonResponse healthBody 200))
  else
    ret Float (textResponse "Not Found" 404).

(** [fetch(request, env)]; [None] only if the fuel of the batch loop ran
    out.  The [console.error] of the [catch] is not part of the model. *)
Definition worker_fetch (request : Request) (w : World Float)
  : option HttpResponse * World Float :=
  let cors := corsResponse (req_origin request) in
  if req_method request =? "OPTIONS" then
    (Some (cors (nullResponse 204)), w)
  else
    match routeRequest request w with
    | (Ret resp, w') => (Some (cors resp), w')
    | (Throw e, w') =>
        (Some (cors (httpJson (jsonResponse (errorBody e) 500))), w')
    | (Timeout, w') => (None, w')
    end.

End WorkerRest.

Arguments BodyNull {Float}.
Arguments BodyText {Float}.
Arguments BodyJson {Float}.
Arguments mkHttpResponse {Float}.
Arguments hr_status {Float}.
Arguments hr_headers {Float}.
Arguments hr_body {Float}.
Arguments nullResponse {Float}.
Arguments textResponse {Float}.
Arguments httpJson {Float}.
Arguments corsResponse {Float}.
Arguments imageEntry {Float}.

Definition is_query {Float} (e : Event Float) : bool :=
  match e with EvQuery _ _ => true | _ => false end.

(** The queries of the index in a trace. *)
Definition queries {Float} (tr : list (Event Float)) : list (Event Float) :=
  filter is_query tr.

(** The tags and the metadata stored for a typed record. *)
Definition typed_tags (t : RawTags) : list JsVal :=
  match t with
  | TagsAbsent => [JStr ""]
  | TagsString s => map JStr (map trim (split_comma s))
  | TagsArray l => map JStr l
  end.

Definition typed_metadata (r : RawImage) : JsVal :=
  JObj [ ("tags", JArr (typed_tags (raw_tags r)));
         ("alt", JStr (opt_str (raw_alt r)));
         ("caption", JStr (opt_str (raw_caption r)));
         ("project", JStr (opt_str (raw_project r)));
         ("src", JStr (opt_str (raw_src r)));
         ("thumb", JStr (opt_str (raw_thumb r))) ].

(** The tags stored for a typed [tags] field: the array itself, the
    trimmed segments of a string, [['']] for a falsy value. *)
Definition stored_tags (tags : JsVal) : JsVal :=
  match tags with
  | JArr l => JArr l
  | JStr s => JArr (map JStr (map trim (split_comma s)))
  | _ => JArr [JStr ""]
  end.

(** An item as the gallery sends it for indexing: a string id and typed
    fields, [src] and [thumb] included. *)
Definition item_listed (img : JsVal) : bool :=
  isString (item_id img)
  && item_typed img
  && text_field (get_prop_opt img "src")
  && text_field (get_prop_opt img "thumb").

(** The entry that [listImages] shows for an indexed item. *)
Definition item_entry (img : JsVal) : JsVal :=
  JObj [ ("id", item_id img);
         ("tags", stored_tags (get_prop_opt img "tags"));
         ("alt", or_else (get_prop_opt img "alt") (JStr ""));
         ("caption", or_else (get_prop_opt img "caption") (JStr ""));
         ("project", or_else (get_prop_opt img "project") (JStr ""));
         ("src", or_else (get_prop_opt img "src") (JStr ""));
         ("thumb", or_else (get_prop_opt img "thumb") (JStr "")) ].

(** Path and method under which [fetch] serves a handler. *)
Definition route_path (r : Route) : string :=
  match r with
  | PostSearch => "/search"
  | GetTags => "/tags"
  | PostIndex => "/index"
  | PostIndexBatch => "/index-batch"
  end.

Definition route_method (r : Route) : string :=
  match r with
  | GetTags => "GET"
  | _ => "POST"
  end.

(** The five pairs of path and method that have a handler. *)
Definition routes : list (string * string) :=
  [ ("/search", "POST"); ("/tags", "GET"); ("/images", "GET");
    ("/index", "POST"); ("/index-batch", "POST") ].

(** The tags that [listTags] takes from a [tags] field: the entries of an
    array of strings, the non-empty trimmed segments of a string, nothing
    from a value that is neither. *)
Definition record_tags (tags : JsVal) (ts : list string) : Prop :=
  tags = JArr (map JStr ts)
  \/ (exists s, tags = JStr s
                /\ ts = filter nonempty (map trim (split_comma s)))
  \/ (isArray tags = false /\ isString tags = false /\ ts = []).

(** ** The callers of the worker *)

(** [JSON.parse(JSON.stringify(v))]: a property whose value is
    [undefined] is dropped, an [undefined] array element becomes [null]. *)
Fixpoint json_value (v : JsVal) : JsVal :=
  match v with
  | JArr l =>
      JArr ((fix elems (l : list JsVal) : list JsVal :=
               match l with
               | [] => []
               | JUndefined :: r => JNull :: elems r
               | x :: r => json_value x :: elems r
               end) l)
  | JObj props =>
      JObj ((fix fields (l : list (string * JsVal)) : list (string * JsVal) :=
               match l with
               | [] => []
               | (_, JUndefined) :: r => fields r
               | (k, x) :: r => (k, json_value x) :: fields r
               end) props)
  | _ => v
  end.

(** What [await fetch(url)] gives a client: a rejection, or a response
    with its status, status text and what [response.json()] gives. *)
Inductive HttpResult : Type :=
| NetworkError (message : string)
| HttpReply (status : Z) (statusText : string) (json : string + JsVal).

(** [response.ok] *)
Definition response_ok (st : Z) : bool := (200 <=? st)%Z && (st <=? 299)%Z.

Definition newline : string := String (ascii_of_nat 10) "".

(** [v.length] *)
Definition js_length (v : JsVal) : string + JsVal :=
  match v with
  | JUndefined | JNull =>
      inl ("Cannot read properties of " ++ to_string v
           ++ " (reading 'length')")%string
  | JArr l => inr (JNum (Z.of_nat (List.length l)))
  | JStr s => inr (JNum (Z.of_nat (String.length s)))
  | JObj props => inr (lookup "length" props)
  | _ => inr JUndefined
  end.

(** *** src/scripts/sync-gallery-tags.js *)

(** What a run of the script leaves: the console lines, the file written
    if any (path and the data given to [JSON.stringify]), and the exit
    code when [process.exit] is called. *)
Record SyncOutcome : Type := mkSyncOutcome {
  console : list string;
  written : option (string * JsVal);
  exit_code : option Z
}.

Section Sync.

(** [process.env.SEARCH_ENDPOINT || '...'], the global [fetch], the clock
    of [new Date().toISOString()] and [writeFile] ([Some] error message
    when it fails). *)
Variable SEARCH_ENDPOINT : string.
Variable http_get : string -> HttpResult.
Variable now : string.
Variable writeFile : string -> JsVal -> option string.

(** The body shared by [fetchTags] and [fetchImages] (lines 21-38). *)
Definition fetchList (what : string) : string + JsVal :=
  match http_get (SEARCH_ENDPOINT ++ "/" ++ what)%string with
  | NetworkError e => inl e
  | HttpReply st txt json =>
      if negb (response_ok st) then
        inl ("Failed to fetch " ++ what ++ ": " ++ Z_to_string st ++ " "
             ++ txt)%string
      else json
  end.

Definition fetchTags : string + JsVal := fetchList "tags".
Definition fetchImages : string + JsVal := fetchList "images".

(** The outer [catch] (lines 76-81). *)
Definition syncFailed (lines : list string) (file : option (string * JsVal))
  (e : string) : SyncOutcome :=
  mkSyncOutcome
    (lines ++ [ (newline ++ "Error: " ++ e)%string;
                (newline
                 ++ "The gallery-search Worker may not be deployed yet.")%string;
                "Deploy it first, then run this script again." ])
    file (Some 1%Z).

(** [main] (lines 43-82). *)
Definition main : SyncOutcome :=
  let c0 := [ "=== Sync Gallery Tags ===";
              ("Endpoint: " ++ SEARCH_ENDPOINT ++ newline)%string;
              "Fetching tags..." ] in
  match fetchTags with
  | inl e => syncFailed c0 None e
  | inr tags =>
  match js_length tags with
  | inl e => syncFailed c0 None e
  | inr n =>
  let c1 := c0 ++ [ ("  Found " ++ to_string n ++ " tags.")%string;
                    "Fetching image metadata..." ] in
  let unavailable (e : string) :=
    [ ("  Image metadata endpoint not available: " ++ e)%string;
      "  Proceeding with tags only." ] in
  let '(images, c2) :=
    match fetchImages with
    | inl e => (JArr [], c1 ++ unavailable e)
    | inr imgs =>
        match js_length imgs with
        | inl e => (imgs, c1 ++ unavailable e)
        | inr m =>
            (imgs, c1 ++ [("  Found " ++ to_string m ++ " images.")%string])
        end
    end in
  match tags with
  | JArr l =>
      let sorted := js_sort l in
      let data := JObj [ ("tags", JArr sorted); ("images", images);
                         ("lastSynced", JStr now) ] in
      let path := "data/gallery-tags.json" in
      match writeFile path data with
      | Some e => syncFailed c2 None e
      | None =>
          let c3 :=
            c2 ++ [ (newline ++ "Written to: data/gallery-tags.json")%string;
                    ("  Tags: " ++ join ", " sorted)%string ] in
          match js_length images with
          | inl e => syncFailed c3 (Some (path, data)) e
          | inr m =>
              mkSyncOutcome
                (c3 ++ [ ("  Images: " ++ to_string m)%string;
                         ("  Synced at: " ++ now)%string ])
                (Some (path, data)) None
          end
      end
  | _ => syncFailed c2 None "tags.sort is not a function"
  end
  end
  end.

End Sync.

(** The reply a client gets for a JSON response of the worker. *)
Definition transports {Float} (resp : HttpResponse Float) (r : HttpResult)
  : Prop :=
  exists v,
    hr_body resp = BodyJson (PJson v)
    /\ r = HttpReply (hr_status resp) "" (inr (json_value v)).

(** *** src/js/gallery.js *)

(** The body that [Gallery.handleSearch] posts to [/search] (lines
    100-115): none for a query shorter than two code units. *)
Definition gallerySearchBody (query : string) : option JsVal :=
  if Nat.ltb (String.length query) 2 then None
  else Some (JObj [("query", JStr query); ("limit", JNum 50)]).

(** An index that answers a query with all its records, oldest first,
    whenever they have distinct ids (so that no upsert has replaced an
    earlier record) and are no more than [topK]. *)
Definition full_scan {Float}
  (index_query : list (VectorRecord Float) -> option (Vec Float) -> TopK
                 -> string + list (Match Float))
  (score : Float) : Prop :=
  forall st v k,
    NoDup (map vr_id st) ->
    (Z.of_nat (List.length st) <= k)%Z ->
    index_query st v (TopKInt k)
    = inr (map (fun r => mkMatch (vr_id r) score (vr_metadata r)) st).


Definition query_down (st : list (VectorRecord Z)) (v : option (Vec Z))
  (k : TopK) : string + list (Match Z) := inl "index unavailable".

Definition write_ok (path : string) (data : JsVal) : option string := None.

Definition sample_endpoint : string := "https://search.example".

Definition tags_request : Request :=
  mkRequest "GET" "/tags" None (inl "Unexpected end of JSON input").

(** A server that is down, one that only serves the tags, and the worker
    itself over [sample_store]. *)
Definition http_down (url : string) : HttpResult := NetworkError "fetch failed".

Definition http_tags_only (url : string) : HttpResult :=
  if url =? "https://search.example/tags"
  then HttpReply 200 "OK" (inr (JArr [JStr "b"; JStr "a"]))
  else HttpReply 404 "Not Found" (inl "Unexpected token N in JSON").

Definition http_worker (url : string) : HttpResult :=
  match fst (worker_fetch Z 0%Z ai_ok upsert_ok query_all None
               (mkRequest "GET"
                  (if url =? "https://search.example/tags" then "/tags"
                   else "/images")
                  None (inl "Unexpected end of JSON input"))
               (mkWorld [] sample_store)) with
  | Some resp =>
      match hr_body resp with
      | BodyJson (PJson v) => HttpReply (hr_status resp) "" (inr (json_value v))
      | _ => NetworkError "not JSON"
      end
  | None => NetworkError "no response"
  end.

Definition sample_matches : list (Match Z) :=
  [ mkMatch (JStr "img1") 9%Z (JObj [("tags", JArr [JStr "a"; JStr "b"])]);
    mkMatch (JStr "img2") 7%Z (JObj [("tags", JStr "b, c ,")]);
    mkMatch (JStr "img3") 5%Z JUndefined ].

Definition query_sample (st : list (VectorRecord Z)) (v : option (Vec Z))
  (k : TopK) : string + list (Match Z) := inr sample_matches.

Definition hr_status_of {Float} (r : option (HttpResponse Float)) : option Z :=
  option_map hr_status r.

(** * Properties *)

(** ** JavaScript primitives *)

Example textForEmbedding_sample :
  textForEmbedding (JStr "sunset") JUndefined (JArr [JStr "sky"; JStr "red"]) (JStr "")
  = "sunset. sky red".
Proof. reflexivity. Qed.

Example split_comma_sample :
  split_comma "a, b ,, c" = ["a"; " b "; ""; " c"] /\ split_comma "" = [""].
Proof. split; reflexivity. Qed.

Lemma join_strings (sep : string) (l : list string) :
  join sep (map JStr l) = String.concat sep l.
Proof.
  unfold join. rewrite map_map. simpl.
  now rewrite map_id.
Qed.

Lemma filter_truthy_strings (l : list string) :
  filter truthy (map JStr l) = map JStr (filter nonempty l).
Proof.
  induction l as [|s l IH]; simpl; [reflexivity|].
  unfold nonempty at 1. destruct (s =? ""); simpl; now rewrite IH.
Qed.

Lemma or_else_opt (o : option string) :
  or_else (opt_js o) (JStr "") = JStr (opt_str o).
Proof.
  destruct o as [s|]; [|reflexivity].
  unfold or_else; simpl. destruct (String.eqb_spec s ""); simpl; congruence.
Qed.

Lemma trim_start_idem (s : string) : trim_start (trim_start s) = trim_start s.
Proof.
  induction s as [|c r IH]; simpl; [reflexivity|].
  destruct (is_ws c) eqn:E; [exact IH|]. simpl. now rewrite E.
Qed.

Lemma trim_end_cons (c : ascii) (r : string) :
  trim_end (String c r) =
  match trim_end r with
  | EmptyString => if is_ws c then "" else String c ""
  | r' => String c r'
  end.
Proof. reflexivity. Qed.

Lemma trim_end_idem (s : string) : trim_end (trim_end s) = trim_end s.
Proof.
  induction s as [|c r IH]; [reflexivity|].
  rewrite trim_end_cons.
  destruct (trim_end r) as [|c' r'] eqn:E.
  - destruct (is_ws c) eqn:W; [reflexivity|].
    rewrite trim_end_cons. simpl. now rewrite W.
  - rewrite trim_end_cons, IH. reflexivity.
Qed.

(** What [trim_end] returns does not start differently from its input:
    a string without leading white space keeps none. *)
Lemma trim_start_trim_end (s : string) :
  trim_start s = s -> trim_start (trim_end s) = trim_end s.
Proof.
  destruct s as [|c r]; [reflexivity|].
  simpl trim_start. destruct (is_ws c) eqn:W.
  - intros H. exfalso.
    assert (L : String.length (trim_start r) <= String.length r).
    { clear. induction r as [|c r IH]; simpl; [lia|].
      destruct (is_ws c); simpl; lia. }
    rewrite H in L. simpl in L. lia.
  - intros _. rewrite trim_end_cons.
    destruct (trim_end r); simpl; now rewrite W.
Qed.

Lemma trim_idem (s : string) : trim (trim s) = trim s.
Proof.
  unfold trim.
  rewrite (trim_start_trim_end (trim_start s) (trim_start_idem s)).
  apply trim_end_idem.
Qed.

(** ** The functions of [handleIndex] unfolded *)

Lemma metadataTags_eq (tags : JsVal) :
  metadataTags tags
  = if isArray tags then Ret tags else split_trim (or_else tags (JStr "")).
Proof. reflexivity. Qed.

Lemma buildMetadata_eq (tags alt caption project src thumb : JsVal) :
  buildMetadata tags alt caption project src thumb
  = bindR (metadataTags tags) (fun t =>
    Ret (JObj [ ("tags", t);
                ("alt", or_else alt (JStr ""));
                ("caption", or_else caption (JStr ""));
                ("project", or_else project (JStr ""));
                ("src", or_else src (JStr ""));
                ("thumb", or_else thumb (JStr "")) ])).
Proof. reflexivity. Qed.

(** ** Tags stored in the metadata *)

Lemma metadataTags_array (l : list JsVal) : metadataTags (JArr l) = Ret (JArr l).
Proof. reflexivity. Qed.

Lemma metadataTags_string (s : string) :
  metadataTags (JStr s) = Ret (JArr (map JStr (map trim (split_comma s)))).
Proof.
  rewrite metadataTags_eq. unfold or_else, split_trim, split_trim_at; simpl.
  destruct (String.eqb_spec s ""); simpl; [subst|]; reflexivity.
Qed.

Lemma metadataTags_absent : metadataTags JUndefined = Ret (JArr [JStr ""]).
Proof. reflexivity. Qed.

(** Every segment stored for a string is trimmed, and the non-empty ones
    are those of [spec_normalizeTags], in order. *)
Lemma metadataTags_string_entries (s : string) :
  exists l,
    metadataTags (JStr s) = Ret (JArr (map JStr l))
    /\ Forall (fun t => trim t = t) l
    /\ spec_normalizeTags (JStr s) = Some (map JStr (filter nonempty l)).
Proof.
  exists (map trim (split_comma s)). split; [apply metadataTags_string|]. split.
  - apply Forall_forall. intros t Ht. apply in_map_iff in Ht.
    destruct Ht as [u [<- _]]. apply trim_idem.
  - reflexivity.
Qed.

(** ** Text submitted for embedding *)

Lemma textForEmbedding_typed (caption alt project : option string)
  (tags : RawTags) :
  textForEmbedding (opt_js caption) (opt_js alt) (tags_js tags) (opt_js project)
  = String.concat ". "
      (filter nonempty
         [opt_str caption; opt_str alt; tags_component tags; opt_str project]).
Proof.
  unfold textForEmbedding.
  rewrite !or_else_opt.
  assert (T : match tags_js tags with
              | JArr l => JStr (join " " l)
              | _ => or_else (tags_js tags) (JStr "")
              end = JStr (tags_component tags)).
  { destruct tags as [|s|l]; simpl.
    - reflexivity.
    - apply (or_else_opt (Some s)).
    - now rewrite join_strings. }
  rewrite T.
  change [JStr (opt_str caption); JStr (opt_str alt); JStr (tags_component tags);
          JStr (opt_str project)]
    with (map JStr [opt_str caption; opt_str alt; tags_component tags;
                    opt_str project]).
  rewrite filter_truthy_strings. apply join_strings.
Qed.

Lemma imageText_typed (r : RawImage) :
  imageText (image_js r) = Ret (typed_text r).
Proof.
  unfold imageText, image_js; simpl.
  f_equal. apply textForEmbedding_typed.
Qed.

Lemma chunks_fuel_enough {A} (n : nat) (l : list A) (fuel : nat) :
  0 < n -> List.length l <= fuel ->
  chunks_fuel fuel n l = chunks n l.
Proof.
  intros Hn. unfold chunks.
  remember (List.length l) as m eqn:Hm.
  revert l fuel Hm.
  induction m as [m IH] using lt_wf_ind. intros l fuel Hm Hf.
  destruct l as [|x l].
  - subst m. destruct fuel; reflexivity.
  - destruct fuel as [|fuel]; [simpl in Hm; lia|].
    subst m. cbn [List.length chunks_fuel] in *. f_equal.
    assert (L : List.length (skipn n (x :: l)) < S (List.length l)).
    { rewrite length_skipn. cbn [List.length]. lia. }
    rewrite (IH _ L (skipn n (x :: l)) fuel eq_refl) by lia.
    rewrite (IH _ L (skipn n (x :: l)) (List.length l) eq_refl) by lia.
    reflexivity.
Qed.

Lemma chunks_cons {A} (n : nat) (l : list A) :
  0 < n -> l <> [] -> chunks n l = firstn n l :: chunks n (skipn n l).
Proof.
  intros Hn Hl. destruct l as [|x l]; [congruence|].
  unfold chunks at 1. cbn [List.length chunks_fuel]. f_equal.
  apply chunks_fuel_enough; [exact Hn|].
  rewrite length_skipn. cbn [List.length]. lia.
Qed.

Lemma chunks_nil {A} (n : nat) : @chunks A n [] = [].
Proof. reflexivity. Qed.

Lemma concat_chunks {A} (n : nat) (l : list A) :
  0 < n -> List.concat (chunks n l) = l.
Proof.
  intros Hn. remember (List.length l) as m eqn:Hm. revert l Hm.
  induction m as [m IH] using lt_wf_ind. intros l Hm.
  destruct l as [|x l]; [reflexivity|].
  rewrite chunks_cons by (auto; discriminate).
  cbn [List.concat]. rewrite (IH (List.length (skipn n (x :: l)))).
  - apply firstn_skipn.
  - subst m. rewrite length_skipn. cbn [List.length]. lia.
  - reflexivity.
Qed.

(** ** The callbacks of [batch.map] *)

Lemma get_prop_defined (img : JsVal) (k : string) :
  img <> JUndefined -> img <> JNull -> get_prop img k = Ret (get_prop_opt img k).
Proof. destruct img; simpl; congruence. Qed.

Lemma destructure_defined (body : JsVal) (k : string) :
  body <> JUndefined -> body <> JNull ->
  destructure body k = Ret (get_prop_opt body k).
Proof. destruct body; simpl; congruence. Qed.

(** The metadata built on the batch path differs from that of
    [handleIndex] in the message of the error only. *)
Lemma buildMetadata_at_cases (callee : string)
  (tags alt caption project src thumb : JsVal) :
  buildMetadata_at callee tags alt caption project src thumb
  = match buildMetadata tags alt caption project src thumb with
    | Ret md => Ret md
    | Throw _ => Throw (splitNotFunction callee)
    | Timeout => Timeout
    end.
Proof.
  unfold buildMetadata, buildMetadata_at, metadataTags_at, split_trim_at.
  destruct (isArray tags); [reflexivity|].
  destruct (or_else tags (JStr "")); reflexivity.
Qed.

Lemma item_ok_defined (img : JsVal) :
  item_ok img = true -> img <> JUndefined /\ img <> JNull.
Proof. destruct img; simpl; intros H; split; congruence. Qed.

Lemma tags_field_metadataTags (t : JsVal) :
  tags_field t = true -> exists l, metadataTags t = Ret (JArr l).
Proof.
  intros H. rewrite metadataTags_eq.
  destruct t as [| |b|n|s|l|props];
    unfold tags_field, text_field in H; cbn [isString truthy orb] in H;
    cbn [isArray]; unfold or_else, split_trim, split_trim_at; cbn [truthy].
  - eexists; reflexivity.
  - eexists; reflexivity.
  - destruct b; [discriminate|]. eexists; reflexivity.
  - destruct (n =? 0)%Z; [|discriminate]. eexists; reflexivity.
  - destruct (s =? ""); eexists; reflexivity.
  - eexists; reflexivity.
  - discriminate.
Qed.

Lemma item_typed_ok (img : JsVal) : item_typed img = true -> item_ok img = true.
Proof.
  unfold item_typed, item_ok. intros H.
  assert (T : tags_field (get_prop_opt img "tags") = true).
  { destruct img; try discriminate;
      apply andb_prop in H; destruct H as [H _];
      apply andb_prop in H; destruct H as [_ H]; exact H. }
  destruct (tags_field_metadataTags _ T) as [l ->].
  destruct img; try discriminate; reflexivity.
Qed.

Lemma Forall_item_typed_ok (images : list JsVal) :
  Forall (fun img => item_typed img = true) images ->
  Forall (fun img => item_ok img = true) images.
Proof. apply Forall_impl. exact item_typed_ok. Qed.

Lemma item_ok_metadata (img : JsVal) :
  item_ok img = true ->
  buildMetadata (get_prop_opt img "tags") (get_prop_opt img "alt")
    (get_prop_opt img "caption") (get_prop_opt img "project")
    (get_prop_opt img "src") (get_prop_opt img "thumb")
  = Ret (item_metadata img).
Proof.
  intros H. unfold item_metadata. rewrite buildMetadata_eq.
  assert (T : exists t, metadataTags (get_prop_opt img "tags") = Ret t).
  { unfold item_ok in H.
    destruct (metadataTags (get_prop_opt img "tags")) as [t| |];
      [now exists t| |]; destruct img; discriminate. }
  destruct T as [t ->]. reflexivity.
Qed.

Lemma imageText_ok (img : JsVal) :
  item_ok img = true -> imageText img = Ret (item_text img).
Proof.
  intros H. destruct (item_ok_defined img H) as [U N].
  unfold imageText. rewrite !get_prop_defined by assumption. reflexivity.
Qed.

Lemma imageVector_ok {Float} (data : list (Vec Float)) (idx : nat) (img : JsVal) :
  item_ok img = true ->
  imageVector Float data idx img = Ret (item_vector data idx img).
Proof.
  intros H. destruct (item_ok_defined img H) as [U N].
  unfold imageVector. rewrite !get_prop_defined by assumption.
  cbn [bindR]. rewrite buildMetadata_at_cases, (item_ok_metadata img H).
  reflexivity.
Qed.

Lemma imageResult_ok (img : JsVal) :
  item_ok img = true -> imageResult img = Ret (item_result img).
Proof.
  intros H. destruct (item_ok_defined img H) as [U N].
  unfold imageResult. rewrite get_prop_defined by assumption. reflexivity.
Qed.

Lemma mapR_ok {A B} (f : A -> Res B) (g : A -> B) (l : list A) :
  Forall (fun x => f x = Ret (g x)) l -> mapR f l = Ret (map g l).
Proof.
  induction 1 as [|x l Hx _ IH]; [reflexivity|].
  cbn [mapR map]. rewrite Hx, IH. reflexivity.
Qed.

Lemma mapiR_ok {A B} (f : nat -> A -> Res B) (g : nat -> A -> B) (l : list A) :
  forall idx,
    Forall (fun x => forall i, f i x = Ret (g i x)) l ->
    mapiR f idx l = Ret (mapi g idx l).
Proof.
  induction l as [|x l IH]; intros idx H; [reflexivity|].
  inversion H as [|? ? Hx Hl]; subst.
  cbn [mapiR mapi]. rewrite Hx, (IH (S idx) Hl). reflexivity.
Qed.

Lemma mapi_length {A B} (f : nat -> A -> B) (l : list A) :
  forall idx, List.length (mapi f idx l) = List.length l.
Proof. induction l as [|x l IH]; intros idx; simpl; [|rewrite IH]; reflexivity. Qed.

Lemma mapi_nth_error {A B} (f : nat -> A -> B) (l : list A) :
  forall idx i x,
    nth_error l i = Some x -> nth_error (mapi f idx l) i = Some (f (idx + i) x).
Proof.
  induction l as [|y l IH]; intros idx i x H; [destruct i; discriminate|].
  destruct i as [|i]; simpl in *.
  - inversion H; subst. now rewrite Nat.add_0_r.
  - rewrite (IH (S idx) i x H). f_equal. f_equal. lia.
Qed.

Lemma chunks_nth_error {A} (n : nat) :
  0 < n ->
  forall j (l c : list A),
    nth_error (chunks n l) j = Some c ->
    c = firstn n (skipn (j * n) l) /\ c <> [].
Proof.
  intros Hn. induction j as [|j IH]; intros l c H.
  - destruct l as [|x l]; [discriminate|].
    rewrite chunks_cons in H by (auto; discriminate).
    inversion H; subst. split; [reflexivity|].
    destruct n; [lia|discriminate].
  - destruct l as [|x l]; [discriminate|].
    rewrite chunks_cons in H by (auto; discriminate).
    cbn [nth_error] in H. destruct (IH _ _ H) as [E Hc]. split; [|exact Hc].
    rewrite E, skipn_skipn. do 2 f_equal. simpl. lia.
Qed.

Lemma firstn_add {A} (n m : nat) (l : list A) :
  firstn (n + m) l = firstn n l ++ firstn m (skipn n l).
Proof.
  revert l. induction n as [|n IH]; intros l; [reflexivity|].
  destruct l as [|x l]; simpl; [now rewrite firstn_nil|]. now rewrite IH.
Qed.

(** The first [k] chunks together are the first [k * n] elements. *)
Lemma concat_firstn_chunks {A} (n : nat) :
  0 < n ->
  forall k (l : list A),
    List.concat (firstn k (chunks n l)) = firstn (k * n) l.
Proof.
  intros Hn. induction k as [|k IH]; intros l; [reflexivity|].
  destruct l as [|x l].
  - rewrite chunks_nil. simpl. now rewrite firstn_nil.
  - rewrite chunks_cons by (auto; discriminate).
    cbn [firstn List.concat]. rewrite IH.
    change (S k * n) with (n + k * n). now rewrite firstn_add.
Qed.

Lemma Forall_chunks {A} (P : A -> Prop) (n : nat) (l : list A) :
  0 < n -> Forall P l -> Forall (Forall P) (chunks n l).
Proof.
  intros Hn H. apply Forall_concat. now rewrite concat_chunks.
Qed.

Lemma batch_events_shape {Float}
  (ai_run : nat -> list string -> string + list (Vec Float))
  (cs : list (list JsVal)) :
  forall na,
    map event_shape (batch_events ai_run na cs)
    = flat_map (fun c => [("embed", List.length c); ("upsert", List.length c)]) cs.
Proof.
  induction cs as [|c cs IH]; intros na; [reflexivity|].
  cbn [batch_events map flat_map app event_shape].
  rewrite IH. unfold assign. now rewrite length_map, mapi_length.
Qed.

Lemma batch_records_ids {Float}
  (ai_run : nat -> list string -> string + list (Vec Float))
  (cs : list (list JsVal)) :
  forall na,
    map vr_id (batch_records ai_run na cs) = map item_id (List.concat cs).
Proof.
  induction cs as [|c cs IH]; intros na; [reflexivity|].
  cbn [batch_records List.concat]. rewrite !map_app, IH. f_equal.
  unfold assign. generalize (ai_data ai_run na (map item_text c)) as data.
  intros data. generalize 0 as idx.
  induction c as [|img c IHc]; intros idx; [reflexivity|].
  cbn [mapi map]. now rewrite IHc.
Qed.

(** ** Shape of the stored metadata *)

Lemma field_stored_or_else (v : JsVal) : field_stored v (or_else v (JStr "")).
Proof.
  split; [reflexivity|]. split.
  - unfold or_else. intros [H | H].
    + destruct v; try discriminate H. now destruct (truthy (JStr s)).
    + now rewrite H.
  - now intros ->.
Qed.

Lemma metadataTags_is_array (tags t : JsVal) :
  metadataTags tags = Ret t -> exists l, t = JArr l.
Proof.
  rewrite metadataTags_eq. destruct (isArray tags) eqn:E.
  - intros H. inversion H; subst. destruct t; try discriminate E. eauto.
  - unfold split_trim, split_trim_at.
    destruct (or_else tags (JStr "")); try discriminate.
    intros H. inversion H. eauto.
Qed.

Lemma buildMetadata_shape (tags alt caption project src thumb md : JsVal) :
  buildMetadata tags alt caption project src thumb = Ret md ->
  exists t,
    md = JObj [ ("tags", JArr t);
                ("alt", or_else alt (JStr ""));
                ("caption", or_else caption (JStr ""));
                ("project", or_else project (JStr ""));
                ("src", or_else src (JStr ""));
                ("thumb", or_else thumb (JStr "")) ].
Proof.
  rewrite buildMetadata_eq. destruct (metadataTags tags) as [t| |] eqn:E;
    try discriminate.
  destruct (metadataTags_is_array tags t E) as [l ->].
  cbn [bindR]. intros H. inversion H. eauto.
Qed.

Lemma imageVector_metadata {Float} (data : list (Vec Float)) (idx : nat)
  (img : JsVal) (r : VectorRecord Float) :
  imageVector Float data idx img = Ret r -> stored_metadata img (vr_metadata r).
Proof.
  unfold imageVector.
  destruct img as [| |b|n|s|l|props]; try discriminate; cbn [get_prop bindR];
    rewrite buildMetadata_at_cases;
    (destruct (buildMetadata _ _ _ _ _ _) as [md| |] eqn:E; try discriminate;
     cbn [bindR]; intros H; inversion H; subst; cbn [vr_metadata];
     destruct (buildMetadata_shape _ _ _ _ _ _ _ E) as [t ->];
     exists t; do 5 eexists; split; [reflexivity|];
     repeat split; try reflexivity;
     try (apply (field_stored_or_else _));
     try (intros _; reflexivity)).
Qed.

Lemma mapiR_In {A B} (f : nat -> A -> Res B) (l : list A) :
  forall idx ys y,
    mapiR f idx l = Ret ys -> In y ys -> exists i x, In x l /\ f i x = Ret y.
Proof.
  induction l as [|x l IH]; intros idx ys y H Hy.
  - inversion H; subst. destruct Hy.
  - cbn [mapiR] in H. destruct (f idx x) as [b| |] eqn:Ef; try discriminate.
    cbn [bindR] in H. destruct (mapiR f (S idx) l) as [bs| |] eqn:El;
      try discriminate.
    inversion H; subst. destruct Hy as [<- | Hy].
    + exists idx, x. split; [now left|assumption].
    + destruct (IH _ _ _ El Hy) as [i [x' [Hin Hf]]].
      exists i, x'. split; [now right|assumption].
Qed.

Lemma upserted_app {Float} (tr1 tr2 : list (Event Float)) :
  upserted (tr1 ++ tr2) = upserted tr1 ++ upserted tr2.
Proof. apply flat_map_app. Qed.

(** ** The tag set and its sorting *)

Lemma str_lt_lts (a b : string) : str_lt a b <-> String_as_OT.lt a b.
Proof.
  unfold str_lt, String.ltb. rewrite <- String_as_OT.cmp_lt.
  unfold String_as_OT.cmp. destruct (String.compare a b); split; congruence.
Qed.

Lemma str_lt_trans (a b c : string) : str_lt a b -> str_lt b c -> str_lt a c.
Proof.
  rewrite !str_lt_lts. apply String_as_OT.lt_trans.
Qed.

Lemma leb_neq_lt (a b : string) : String.leb a b = true -> a <> b -> str_lt a b.
Proof.
  unfold str_lt, String.leb, String.ltb. intros H Hne.
  destruct (String.compare a b) eqn:E; try reflexivity; try discriminate.
  apply String.compare_eq_iff in E. contradiction.
Qed.

Lemma existsb_same_value_zero (x : string) (S : list string) :
  existsb (same_value_zero (JStr x)) (map JStr S) = existsb (String.eqb x) S.
Proof. induction S as [|y S IH]; simpl; [|rewrite IH]; reflexivity. Qed.

Lemma set_add_strings (S : list string) (x : string) :
  set_add (map JStr S) (JStr x) = map JStr (str_add S x).
Proof.
  unfold set_add, str_add. rewrite existsb_same_value_zero.
  destruct (existsb (String.eqb x) S); [reflexivity|].
  now rewrite map_app.
Qed.

Lemma fold_set_add_strings (ts : list string) :
  forall S,
    fold_left set_add (map JStr ts) (map JStr S)
    = map JStr (fold_left str_add ts S).
Proof.
  induction ts as [|t ts IH]; intros S; [reflexivity|].
  cbn [map fold_left]. now rewrite set_add_strings, IH.
Qed.

Lemma str_add_In (S : list string) (x t : string) :
  In t (str_add S x) <-> In t S \/ t = x.
Proof.
  unfold str_add. destruct (existsb (String.eqb x) S) eqn:E.
  - split; [now left|]. intros [H | ->]; [exact H|].
    apply existsb_exists in E. destruct E as [y [Hy E]].
    apply String.eqb_eq in E. now subst.
  - rewrite in_app_iff. simpl. intuition.
Qed.

Lemma str_add_NoDup (S : list string) (x : string) :
  NoDup S -> NoDup (str_add S x).
Proof.
  intros H. unfold str_add. destruct (existsb (String.eqb x) S) eqn:E; [exact H|].
  apply NoDup_app; [exact H|repeat constructor; intros []|].
  intros y Hy [-> | []].
  assert (T : existsb (String.eqb y) S = true).
  { apply existsb_exists. exists y. split; [exact Hy|apply String.eqb_refl]. }
  congruence.
Qed.

Lemma fold_str_add_spec (ts : list string) :
  forall S,
    (NoDup S -> NoDup (fold_left str_add ts S))
    /\ (forall t, In t (fold_left str_add ts S) <-> In t S \/ In t ts).
Proof.
  induction ts as [|x ts IH]; intros S.
  - simpl. split; [auto|]. intros t. intuition.
  - cbn [fold_left]. destruct (IH (str_add S x)) as [Hn Hi]. split.
    + intros H. apply Hn. now apply str_add_NoDup.
    + intros t. rewrite Hi, str_add_In. simpl. intuition.
Qed.

Lemma sort_insert_strings (x : string) (l : list string) :
  sort_insert (JStr x) (map JStr l) = map JStr (str_insert x l).
Proof.
  induction l as [|y l IH]; [reflexivity|].
  cbn [map sort_insert str_insert to_string].
  destruct (String.leb x y); [reflexivity|]. cbn [map]. now rewrite IH.
Qed.

Lemma js_sort_strings (l : list string) :
  js_sort (map JStr l) = map JStr (str_sort l).
Proof.
  unfold js_sort, str_sort.
  assert (F1 : filter (fun v => negb (is_undefined v)) (map JStr l) = map JStr l).
  { induction l as [|x l IH]; simpl; [|rewrite IH]; reflexivity. }
  assert (F2 : filter is_undefined (map JStr l) = []).
  { clear F1. induction l as [|x l IH]; simpl; [|rewrite IH]; reflexivity. }
  rewrite F1, F2, app_nil_r. clear F1 F2.
  induction l as [|x l IH]; [reflexivity|].
  cbn [map fold_right]. now rewrite IH, sort_insert_strings.
Qed.

Lemma str_insert_In (x t : string) (l : list string) :
  In t (str_insert x l) <-> t = x \/ In t l.
Proof.
  induction l as [|y l IH]; simpl; [intuition|].
  destruct (String.leb x y); simpl; [intuition|]. rewrite IH. intuition.
Qed.

Lemma str_sort_In (t : string) (l : list string) :
  In t (str_sort l) <-> In t l.
Proof.
  induction l as [|x l IH]; simpl; [reflexivity|].
  rewrite str_insert_In, IH. intuition.
Qed.

Lemma str_insert_NoDup (x : string) (l : list string) :
  ~ In x l -> NoDup l -> NoDup (str_insert x l).
Proof.
  induction l as [|y l IH]; intros Hx Hl; simpl.
  - repeat constructor. intros [].
  - destruct (String.leb x y); [now constructor|].
    inversion Hl as [|? ? Hy Hl']; subst. constructor.
    + rewrite str_insert_In. intros [-> | H]; [apply Hx; now left|contradiction].
    + apply IH; [|exact Hl']. intros H. apply Hx. now right.
Qed.

Lemma str_sort_NoDup (l : list string) : NoDup l -> NoDup (str_sort l).
Proof.
  induction 1 as [|x l Hx Hl IH]; simpl; [constructor|].
  apply str_insert_NoDup; [|exact IH]. now rewrite str_sort_In.
Qed.

Lemma str_insert_sorted (x : string) (l : list string) :
  Sorted (fun a b => String.leb a b = true) l ->
  Sorted (fun a b => String.leb a b = true) (str_insert x l).
Proof.
  induction 1 as [|y l Hl IH Hhd]; simpl; [repeat constructor|].
  destruct (String.leb x y) eqn:E.
  - constructor; [now constructor|]. now constructor.
  - constructor; [exact IH|].
    assert (Hyx : String.leb y x = true).
    { destruct (String.leb_total x y); congruence. }
    destruct l as [|z l]; simpl; [now constructor|].
    destruct (String.leb x z); constructor; [exact Hyx|].
    now inversion Hhd.
Qed.

Lemma str_sort_sorted (l : list string) :
  Sorted (fun a b => String.leb a b = true) (str_sort l).
Proof.
  induction l as [|x l IH]; simpl; [constructor|]. now apply str_insert_sorted.
Qed.

(** A duplicate-free list sorted by [leb] is strictly ascending. *)
Lemma sorted_nodup_strict (l : list string) :
  Sorted (fun a b => String.leb a b = true) l -> NoDup l ->
  StronglySorted str_lt l.
Proof.
  intros Hs Hn. apply Sorted_StronglySorted.
  - intros a b c. apply str_lt_trans.
  - induction Hs as [|x l Hl IH Hhd]; [constructor|].
    inversion Hn as [|? ? Hx Hn']; subst. constructor; [now apply IH|].
    destruct Hhd as [|y l Hxy]; constructor.
    apply leb_neq_lt; [exact Hxy|]. intros ->. apply Hx. now left.
Qed.

(** ** When the embedded text is empty *)

Lemma concat_nonempty (sep : string) (l : list string) :
  Forall (fun x => x <> "") l -> l <> [] -> String.concat sep l <> "".
Proof.
  intros H Hl. destruct l as [|x l]; [congruence|].
  inversion H as [|? ? Hx _]; subst. cbn [String.concat].
  destruct l; [exact Hx|]. destruct x; [congruence|discriminate].
Qed.

Lemma typed_text_empty (r : RawImage) :
  typed_text r = "" <->
  opt_str (raw_caption r) = "" /\ opt_str (raw_alt r) = ""
  /\ tags_component (raw_tags r) = "" /\ opt_str (raw_project r) = "".
Proof.
  unfold typed_text. split.
  - intros H.
    assert (F : filter nonempty
                  [opt_str (raw_caption r); opt_str (raw_alt r);
                   tags_component (raw_tags r); opt_str (raw_project r)] = []).
    { destruct (filter nonempty _) as [|x l] eqn:E; [reflexivity|].
      exfalso. revert H. rewrite <- E. apply concat_nonempty.
      - apply Forall_forall. intros y Hy. apply filter_In in Hy.
        destruct Hy as [_ Hy]. unfold nonempty in Hy.
        destruct (String.eqb_spec y ""); [discriminate|assumption].
      - rewrite E. discriminate. }
    clear H. cbn [filter] in F. unfold nonempty in F.
    destruct (String.eqb_spec (opt_str (raw_caption r)) ""); [|discriminate F].
    destruct (String.eqb_spec (opt_str (raw_alt r)) ""); [|discriminate F].
    destruct (String.eqb_spec (tags_component (raw_tags r)) ""); [|discriminate F].
    destruct (String.eqb_spec (opt_str (raw_project r)) ""); [|discriminate F].
    auto.
  - intros (-> & -> & -> & ->). reflexivity.
Qed.

Lemma buildMetadata_typed (r : RawImage) :
  exists md,
    buildMetadata (tags_js (raw_tags r)) (opt_js (raw_alt r))
      (opt_js (raw_caption r)) (opt_js (raw_project r))
      (opt_js (raw_src r)) (opt_js (raw_thumb r)) = Ret md.
Proof.
  rewrite buildMetadata_eq.
  destruct (raw_tags r) as [|s|l]; cbn [tags_js].
  - rewrite metadataTags_absent. eexists; reflexivity.
  - rewrite metadataTags_string. eexists; reflexivity.
  - rewrite metadataTags_array. eexists; reflexivity.
Qed.

(** ** The handlers *)

Section WorkerProps.

Variable Float : Type.
Variable fzero : Float.
Variable ai_run : nat -> list string -> string + list (Vec Float).
Variable index_upsert : nat -> list (VectorRecord Float) -> option string.
Variable index_query :
  list (VectorRecord Float) -> option (Vec Float) -> TopK
  -> string + list (Match Float).

Abbreviation process := (processBatch Float ai_run index_upsert).
Abbreviation loop := (batch_loop Float ai_run index_upsert).
Abbreviation run := (run_chunks Float ai_run index_upsert).
Abbreviation indexBatch := (handleIndexBatch Float ai_run index_upsert).
Abbreviation indexOne := (handleIndex Float ai_run index_upsert).
Abbreviation serve := (fetch Float fzero ai_run index_upsert index_query).

Lemma bind_ext {A B} (m : M Float A) (k1 k2 : A -> M Float B) (w : World Float) :
  (forall a w', k1 a w' = k2 a w') -> bind Float m k1 w = bind Float m k2 w.
Proof.
  intros H. unfold bind. destruct (m w) as [[a| |] w']; auto.
Qed.

(** *** The batch loop *)

(** The loop over indices is the loop over chunks, given one unit of fuel
    per remaining element. *)
Lemma batch_loop_run_chunks (images : list JsVal) :
  forall fuel i results w,
    List.length images - i <= fuel ->
    loop fuel i images results w
    = run (chunks batchSize (skipn i images)) results w.
Proof.
  induction fuel as [|fuel IH]; intros i results w Hf.
  - assert (Hi : List.length images <= i) by lia.
    rewrite (skipn_all2 images Hi). cbn [chunks chunks_fuel List.length run_chunks].
    unfold batch_loop. apply Nat.ltb_ge in Hi. now rewrite Hi.
  - cbn [batch_loop]. destruct (Nat.ltb i (List.length images)) eqn:Hi.
    + apply Nat.ltb_lt in Hi.
      rewrite chunks_cons.
      * cbn [run_chunks]. unfold slice.
        replace (i + batchSize - i) with batchSize by lia.
        apply bind_ext. intros entries w'.
        rewrite IH by (unfold batchSize; lia).
        rewrite skipn_skipn. now rewrite (Nat.add_comm batchSize i).
      * unfold batchSize; lia.
      * intros E. apply (f_equal (@List.length _)) in E.
        rewrite length_skipn in E. simpl in E. lia.
    + apply Nat.ltb_ge in Hi. rewrite (skipn_all2 images Hi). reflexivity.
Qed.

Lemma handleIndexBatch_chunks (fields : list (string * JsVal))
  (images : list JsVal) (w : World Float) :
  lookup "images" fields = JArr images -> images <> [] ->
  indexBatch (JObj fields) w
  = bind Float (run (chunks batchSize images) [])
      (fun results =>
         ret Float
           (jsonResponse
              (JObj [ ("success", JBool true);
                      ("indexed", JNum (Z.of_nat (List.length results)));
                      ("results", JArr results) ]) 200)) w.
Proof.
  intros Hl Hne. unfold handleIndexBatch, destructure, liftR.
  unfold bind at 1. rewrite Hl.
  destruct images as [|img images]; [congruence|].
  cbn [List.length Nat.eqb].
  unfold bind at 1.
  rewrite batch_loop_run_chunks by (cbn [List.length]; lia).
  reflexivity.
Qed.

Lemma embed_calls_app (tr : list (Event Float)) (st st' : list (VectorRecord Float))
  (evs : list (Event Float)) :
  embed_calls Float (mkWorld (tr ++ evs) st)
  = embed_calls Float (mkWorld tr st') + List.length (filter (@is_embed Float) evs).
Proof. unfold embed_calls; simpl. now rewrite filter_app, length_app. Qed.

Lemma upsert_calls_app (tr : list (Event Float)) (st st' : list (VectorRecord Float))
  (evs : list (Event Float)) :
  upsert_calls Float (mkWorld (tr ++ evs) st)
  = upsert_calls Float (mkWorld tr st') + List.length (filter (@is_upsert Float) evs).
Proof. unfold upsert_calls; simpl. now rewrite filter_app, length_app. Qed.

Lemma mapR_imageText (c : list JsVal) :
  Forall (fun img => item_ok img = true) c ->
  mapR imageText c = Ret (map item_text c).
Proof.
  intros H. apply mapR_ok. eapply Forall_impl; [|exact H].
  intros img. apply imageText_ok.
Qed.

Lemma mapiR_imageVector (data : list (Vec Float)) (c : list JsVal) :
  Forall (fun img => item_ok img = true) c ->
  mapiR (imageVector Float data) 0 c = Ret (assign data c).
Proof.
  intros H. apply mapiR_ok. eapply Forall_impl; [|exact H].
  intros img Hi idx. now apply imageVector_ok.
Qed.

Lemma mapR_imageResult (c : list JsVal) :
  Forall (fun img => item_ok img = true) c ->
  mapR imageResult c = Ret (map item_result c).
Proof.
  intros H. apply mapR_ok. eapply Forall_impl; [|exact H].
  intros img. apply imageResult_ok.
Qed.

(** One iteration in which both calls succeed. *)
Lemma processBatch_ok (c : list JsVal) (w : World Float) (data : list (Vec Float)) :
  Forall (fun img => item_ok img = true) c ->
  ai_run (embed_calls Float w) (map item_text c) = inr data ->
  index_upsert (upsert_calls Float w) (assign data c) = None ->
  process c w
  = (Ret (map item_result c),
     mkWorld (trace w ++ [EvEmbed (map item_text c); EvUpsert (assign data c)])
             (store w ++ assign data c)).
Proof.
  intros Hc Hai Hup.
  unfold processBatch, bind, liftR, AI_run, INDEX_upsert.
  rewrite (mapR_imageText c Hc), Hai, (mapiR_imageVector data c Hc).
  replace (upsert_calls Float (log Float (EvEmbed (map item_text c)) w))
    with (upsert_calls Float w).
  - rewrite Hup, (mapR_imageResult c Hc). unfold log; simpl.
    now rewrite <- app_assoc.
  - unfold log. destruct w as [tr st]. simpl.
    rewrite (upsert_calls_app tr st st). simpl. lia.
Qed.

(** One iteration whose embedding call fails. *)
Lemma processBatch_embed_fails (c : list JsVal) (w : World Float) (e : string) :
  Forall (fun img => item_ok img = true) c ->
  ai_run (embed_calls Float w) (map item_text c) = inl e ->
  process c w
  = (Throw e, mkWorld (trace w ++ [EvEmbed (map item_text c)]) (store w)).
Proof.
  intros Hc Hai.
  unfold processBatch, bind, liftR, AI_run.
  rewrite (mapR_imageText c Hc), Hai. reflexivity.
Qed.

(** One iteration whose upsert call fails. *)
Lemma processBatch_upsert_fails (c : list JsVal) (w : World Float)
  (data : list (Vec Float)) (e : string) :
  Forall (fun img => item_ok img = true) c ->
  ai_run (embed_calls Float w) (map item_text c) = inr data ->
  index_upsert (upsert_calls Float w) (assign data c) = Some e ->
  process c w
  = (Throw e,
     mkWorld (trace w ++ [EvEmbed (map item_text c); EvUpsert (assign data c)])
             (store w)).
Proof.
  intros Hc Hai Hup.
  unfold processBatch, bind, liftR, AI_run, INDEX_upsert.
  rewrite (mapR_imageText c Hc), Hai, (mapiR_imageVector data c Hc).
  replace (upsert_calls Float (log Float (EvEmbed (map item_text c)) w))
    with (upsert_calls Float w).
  - rewrite Hup. unfold log; simpl. now rewrite <- app_assoc.
  - unfold log. destruct w as [tr st]. simpl.
    rewrite (upsert_calls_app tr st st). simpl. lia.
Qed.

(** Chunks whose calls all succeed: the calls and the stored records are
    those of [batch_events] and [batch_records]. *)
Lemma run_chunks_ok (k : nat) :
  (forall n t, n < k -> exists d, ai_run n t = inr d) ->
  (forall n v, n < k -> index_upsert n v = None) ->
  forall cs results w,
    Forall (Forall (fun img => item_ok img = true)) cs ->
    embed_calls Float w + List.length cs <= k ->
    upsert_calls Float w + List.length cs <= k ->
    run cs results w
    = (Ret (results ++ flat_map (map item_result) cs),
       mkWorld (trace w ++ batch_events ai_run (embed_calls Float w) cs)
               (store w ++ batch_records ai_run (embed_calls Float w) cs)).
Proof.
  intros Hai Hup. induction cs as [|c cs IH]; intros results w Hcs He Hu.
  - simpl. unfold ret. rewrite !app_nil_r. now destruct w.
  - inversion Hcs as [|? ? Hc Hrest]; subst. cbn [List.length] in He, Hu.
    destruct (Hai (embed_calls Float w) (map item_text c)) as [d Hd]; [lia|].
    cbn [run_chunks]. unfold bind.
    rewrite (processBatch_ok c w d Hc Hd) by (apply Hup; lia).
    rewrite IH; [|assumption| |].
    + destruct w as [tr st]. cbn [trace store].
      rewrite (embed_calls_app tr _ st). cbn [filter is_embed List.length].
      replace (embed_calls Float (mkWorld tr st) + 1)
        with (S (embed_calls Float (mkWorld tr st))) by lia.
      cbn [flat_map batch_events batch_records].
      unfold ai_data. rewrite Hd.
      rewrite <- !app_assoc. reflexivity.
    + destruct w as [tr st]. cbn [trace store].
      rewrite (embed_calls_app tr _ st). simpl. simpl in He. lia.
    + destruct w as [tr st]. cbn [trace store].
      rewrite (upsert_calls_app tr _ st). simpl. simpl in Hu. lia.
Qed.

Lemma run_chunks_app (pre rest : list (list JsVal)) :
  forall results w,
    run (pre ++ rest) results w
    = match run pre results w with
      | (Ret r, w') => run rest r w'
      | other => other
      end.
Proof.
  induction pre as [|c pre IH]; intros results w; [reflexivity|].
  cbn [app run_chunks]. unfold bind.
  destruct (process c w) as [[entries|e|] w']; [apply IH| |]; reflexivity.
Qed.

(** ** The fuel of the loop is enough: every request gets a response *)

Lemma mapR_no_timeout {A B} (f : A -> Res B) (l : list A) :
  (forall x, f x <> Timeout) -> mapR f l <> Timeout.
Proof.
  intros Hf. induction l as [|x l IH]; cbn [mapR]; [discriminate|].
  specialize (Hf x). destruct (f x); cbn [bindR]; try congruence.
  destruct (mapR f l); cbn [bindR]; congruence.
Qed.

Lemma mapiR_no_timeout {A B} (f : nat -> A -> Res B) (l : list A) :
  (forall i x, f i x <> Timeout) -> forall idx, mapiR f idx l <> Timeout.
Proof.
  intros Hf. induction l as [|x l IH]; intros idx; cbn [mapiR]; [discriminate|].
  specialize (Hf idx x). destruct (f idx x); cbn [bindR]; try congruence.
  specialize (IH (S idx)). destruct (mapiR f (S idx) l); cbn [bindR]; congruence.
Qed.

Lemma buildMetadata_no_timeout (tags alt caption project src thumb : JsVal) :
  buildMetadata tags alt caption project src thumb <> Timeout.
Proof.
  unfold buildMetadata, buildMetadata_at, metadataTags_at, split_trim_at.
  destruct (isArray tags); cbn [bindR]; [discriminate|].
  destruct (or_else tags (JStr "")); cbn [bindR]; discriminate.
Qed.

Lemma imageText_no_timeout (img : JsVal) : imageText img <> Timeout.
Proof. destruct img; discriminate. Qed.

Lemma imageResult_no_timeout (img : JsVal) : imageResult img <> Timeout.
Proof. destruct img; discriminate. Qed.

Lemma imageVector_no_timeout (data : list (Vec Float)) (idx : nat) (img : JsVal) :
  imageVector Float data idx img <> Timeout.
Proof.
  unfold imageVector.
  destruct img; cbn [get_prop bindR]; try discriminate;
    rewrite buildMetadata_at_cases;
    match goal with
    | |- context [buildMetadata ?a ?b ?c ?d ?e ?f] =>
        pose proof (buildMetadata_no_timeout a b c d e f);
        destruct (buildMetadata a b c d e f); cbn [bindR]; congruence
    end.
Qed.

Lemma processBatch_no_timeout (c : list JsVal) (w : World Float) :
  fst (process c w) <> Timeout.
Proof.
  unfold processBatch, bind, liftR, AI_run, INDEX_upsert.
  pose proof (mapR_no_timeout imageText c imageText_no_timeout) as H1.
  destruct (mapR imageText c) as [texts| |]; cbn [fst]; try congruence.
  destruct (ai_run _ texts) as [e|data]; cbn [fst]; try discriminate.
  pose proof (mapiR_no_timeout (imageVector Float data) c
                (imageVector_no_timeout data) 0) as H2.
  destruct (mapiR _ 0 c) as [vectors| |]; cbn [fst]; try congruence.
  destruct (index_upsert _ vectors); cbn [fst]; try discriminate.
  exact (mapR_no_timeout imageResult c imageResult_no_timeout).
Qed.

Lemma run_chunks_no_timeout (cs : list (list JsVal)) :
  forall results w, fst (run cs results w) <> Timeout.
Proof.
  induction cs as [|c cs IH]; intros results w; [discriminate|].
  cbn [run_chunks]. unfold bind.
  pose proof (processBatch_no_timeout c w) as Hc.
  destruct (process c w) as [[entries|e|] w']; cbn [fst] in *;
    [apply IH|discriminate|congruence].
Qed.

Lemma handleIndexBatch_no_timeout (body : JsVal) (w : World Float) :
  fst (indexBatch body w) <> Timeout.
Proof.
  unfold handleIndexBatch, bind, liftR.
  destruct body as [| |b|n|s|l|props]; cbn [destructure fst]; try discriminate.
  destruct (lookup "images" props) as [| | | | |images|]; try discriminate.
  destruct (Nat.eqb (List.length images) 0); [discriminate|].
  rewrite batch_loop_run_chunks by lia.
  pose proof (run_chunks_no_timeout (chunks batchSize (skipn 0 images)) [] w) as H.
  destruct (run _ _ w) as [[results|e|] w']; cbn [fst] in *;
    [discriminate|discriminate|congruence].
Qed.

(** Whatever the request and the behaviour of the bindings, [fetch]
    returns a response. *)
Lemma fetch_total (r : Route) (body : JsVal) (w : World Float) :
  exists resp, fst (serve r body w) = Some resp.
Proof.
  assert (H : fst (dispatch Float fzero ai_run index_upsert index_query r body w)
              <> Timeout).
  { destruct r; cbn [dispatch].
    - unfold handleSearch, bind, liftR, AI_run, INDEX_query, ret.
      destruct body as [| |b|n|s|l|props]; cbn [destructure fst];
        try discriminate;
        (destruct (negb _ || negb _); [discriminate|];
         destruct (ai_run _ _); [discriminate|];
         destruct (index_query _ _ _); discriminate).
    - unfold handleGetTags, bind, INDEX_query, ret.
      destruct (index_query _ _ _); discriminate.
    - unfold handleIndex, bind, liftR, AI_run, INDEX_upsert, ret.
      destruct body as [| |b|n|s|l|props]; cbn [destructure fst];
        try discriminate;
        (destruct (negb _); [discriminate|];
         destruct (_ =? ""); [discriminate|];
         destruct (ai_run _ _); [discriminate|];
         match goal with
         | |- context [buildMetadata ?a ?b ?c ?d ?e ?f] =>
             pose proof (buildMetadata_no_timeout a b c d e f);
             destruct (buildMetadata a b c d e f); try congruence;
             try discriminate
         end;
         destruct (index_upsert _ _); discriminate).
    - apply handleIndexBatch_no_timeout. }
  unfold fetch.
  destruct (dispatch Float fzero ai_run index_upsert index_query r body w)
    as [[resp|e|] w']; cbn [fst] in *; [eauto|eauto|congruence].
Qed.

(** ** Batch indexing: calls per chunk *)

(** C6.  When every call succeeds, [indexBatch] on a non-empty array of
    items with typed fields (caption, alt and project a string or absent,
    tags a string, an array of strings or absent) answers 200 with one entry per item, and the calls it
    issued are, for each chunk of 10 consecutive items in input order, one
    embedding call with the texts of the chunk followed by one upsert call
    with its records; the i-th returned vector goes to the i-th item of the
    chunk; 25 items give calls of sizes 10, 10, 5. *)
Theorem indexBatch_chunked_calls (fields : list (string * JsVal))
  (images : list JsVal) :
  lookup "images" fields = JArr images ->
  images <> [] ->
  Forall (fun img => item_typed img = true) images ->
  (forall n t, exists d, ai_run n t = inr d) ->
  (forall n v, index_upsert n v = None) ->
  let cs := chunks batchSize images in
  serve PostIndexBatch (JObj fields) world0
  = (Some (jsonResponse
             (JObj [ ("success", JBool true);
                     ("indexed", JNum (Z.of_nat (List.length images)));
                     ("results", JArr (map item_result images)) ]) 200),
     mkWorld (batch_events ai_run 0 cs) (batch_records ai_run 0 cs))
  /\ (forall j c, nth_error cs j = Some c ->
        c = firstn batchSize (skipn (j * batchSize) images) /\ c <> [])
  /\ map event_shape (batch_events ai_run 0 cs)
     = flat_map (fun c => [("embed", List.length c); ("upsert", List.length c)]) cs
  /\ (forall (data : list (Vec Float)) c i img,
        nth_error c i = Some img ->
        nth_error (assign data c) i
        = Some (mkVectorRecord (item_id img) (nth_error data i) (item_metadata img)))
  /\ (List.length images = 25 ->
      map event_shape (batch_events ai_run 0 cs)
      = [ ("embed", 10); ("upsert", 10); ("embed", 10); ("upsert", 10);
          ("embed", 5); ("upsert", 5) ]).
Proof.
  intros Hl Hne Hty Hai Hup cs.
  pose proof (Forall_item_typed_ok images Hty) as Hok.
  assert (Hn : 0 < batchSize) by (unfold batchSize; lia).
  split; [|split; [|split; [|split]]].
  - unfold fetch, dispatch.
    rewrite (handleIndexBatch_chunks fields images world0 Hl Hne).
    unfold bind.
    rewrite (run_chunks_ok (List.length cs)); cbn [trace store world0 app].
    + unfold ret, embed_calls; cbn [trace world0 filter List.length].
      rewrite flat_map_concat_map, <- concat_map.
      unfold cs. rewrite (concat_chunks batchSize images Hn).
      now rewrite length_map.
    + intros n t _. apply Hai.
    + intros n v _. apply Hup.
    + now apply Forall_chunks.
    + reflexivity.
    + reflexivity.
  - intros j c. apply chunks_nth_error. exact Hn.
  - apply batch_events_shape.
  - intros data c i img H. unfold assign.
    now rewrite (mapi_nth_error (item_vector data) c 0 i img H).
  - intros H25. rewrite batch_events_shape. unfold cs. clear - H25.
    do 25 (destruct images as [|? images]; [discriminate H25|]).
    destruct images; [reflexivity|discriminate H25].
Qed.

(** ** Batch indexing: a failing chunk *)

(** C2, as the code has it.  On a batch of items with typed fields (caption,
    alt and project a string or absent, tags a string, an array of strings
    or absent), when the calls of the chunks before chunk [k]
    succeed and the embedding call or the upsert call of chunk [k] fails
    with message [e], the response is a 500 whose body is only
    [{ error: e }]: it has no count.  The store holds exactly the records
    of the chunks before [k], that is of the first [k * 10] items, and no
    call is issued for a later chunk. *)
Theorem indexBatch_failure_in_chunk (fields : list (string * JsVal))
  (images : list JsVal) (k : nat) (c : list JsVal) (e : string) :
  lookup "images" fields = JArr images ->
  Forall (fun img => item_typed img = true) images ->
  nth_error (chunks batchSize images) k = Some c ->
  (forall n t, n < k -> exists d, ai_run n t = inr d) ->
  (forall n v, n < k -> index_upsert n v = None) ->
  (ai_run k (map item_text c) = inl e
   \/ exists d, ai_run k (map item_text c) = inr d
                /\ index_upsert k (assign d c) = Some e) ->
  let pre := firstn k (chunks batchSize images) in
  exists w' attempted,
    serve PostIndexBatch (JObj fields) world0
    = (Some (jsonResponse (errorBody e) 500), w')
    /\ reported_count (jsonResponse (Float:=Float) (errorBody e) 500) = None
    /\ store w' = batch_records ai_run 0 pre
    /\ map vr_id (store w') = map item_id (firstn (k * batchSize) images)
    /\ trace w' = batch_events ai_run 0 pre ++ attempted
    /\ (attempted = [EvEmbed (map item_text c)]
        \/ exists d, attempted = [EvEmbed (map item_text c); EvUpsert (assign d c)]).
Proof.
  intros Hl Hty Hk Hai Hup Hfail pre.
  pose proof (Forall_item_typed_ok images Hty) as Hok.
  assert (Hn : 0 < batchSize) by (unfold batchSize; lia).
  assert (Hne : images <> []) by (intros ->; destruct k; discriminate Hk).
  assert (Hsplit : chunks batchSize images
                   = pre ++ c :: skipn (S k) (chunks batchSize images)).
  { unfold pre. rewrite <- (firstn_skipn k (chunks batchSize images)) at 1.
    f_equal. clear - Hk. revert k Hk.
    induction (chunks batchSize images) as [|x l IH]; intros k Hk.
    - destruct k; discriminate.
    - destruct k as [|k]; simpl in *; [congruence|]. now apply IH. }
  assert (Hcs : Forall (Forall (fun img => item_ok img = true))
                  (chunks batchSize images)) by now apply Forall_chunks.
  assert (Hlen : List.length pre = k).
  { unfold pre. apply firstn_length_le.
    apply Nat.lt_le_incl, nth_error_Some. congruence. }
  assert (Hpre : Forall (Forall (fun img => item_ok img = true)) pre).
  { rewrite Hsplit in Hcs. now apply Forall_app in Hcs. }
  assert (Hc : Forall (fun img => item_ok img = true) c).
  { rewrite Hsplit in Hcs. apply Forall_app in Hcs. destruct Hcs as [_ H].
    now inversion H. }
  assert (Hids : map (vr_id (Float:=Float)) (batch_records ai_run 0 pre)
                 = map item_id (firstn (k * batchSize) images)).
  { rewrite batch_records_ids. unfold pre.
    now rewrite (concat_firstn_chunks batchSize Hn). }
  set (w1 := mkWorld (batch_events ai_run 0 pre) (batch_records ai_run 0 pre)).
  assert (He1 : embed_calls Float w1 = k /\ upsert_calls Float w1 = k).
  { unfold w1, embed_calls, upsert_calls; cbn [trace]. clear - Hlen.
    rewrite <- Hlen. clear Hlen. generalize 0 as na.
    induction pre as [|x l IH]; intros na; [split; reflexivity|].
    cbn [batch_events filter is_embed is_upsert List.length].
    destruct (IH (S na)) as [-> ->]. split; reflexivity. }
  destruct He1 as [He1 Hu1].
  assert (Hrun : run (chunks batchSize images) [] world0
                 = run (c :: skipn (S k) (chunks batchSize images))
                     (flat_map (map item_result) pre) w1).
  { rewrite Hsplit at 1. rewrite run_chunks_app.
    rewrite (run_chunks_ok k Hai Hup pre [] world0 Hpre);
      [reflexivity| |];
      unfold embed_calls, upsert_calls; cbn [trace world0 filter List.length]; lia. }
  unfold fetch, dispatch.
  rewrite (handleIndexBatch_chunks fields images world0 Hl Hne).
  unfold bind at 1. rewrite Hrun. cbn [run_chunks]. unfold bind at 1.
  destruct Hfail as [Hf | [d [Hd Hf]]].
  - rewrite (processBatch_embed_fails c w1 e Hc) by (now rewrite He1).
    eexists. exists [EvEmbed (map item_text c)].
    split; [reflexivity|]. cbn [store trace w1].
    repeat split; auto.
  - rewrite (processBatch_upsert_fails c w1 d e Hc)
      by (rewrite ?He1, ?Hu1; assumption).
    eexists. exists [EvEmbed (map item_text c); EvUpsert (assign d c)].
    split; [reflexivity|]. cbn [store trace w1].
    repeat split; eauto.
Qed.

(** ** Search *)

(** C5, as the code has it.  For a valid query and an integer limit (20
    when absent) the index is queried once, after the embedding call, with
    [topK = min(limit, 100)]: never above 100, equal to
    [clamp(limit, 1, 100)] when the limit is at least 1, and the limit
    itself when it is below 1. *)
Theorem search_topK_min_100 (fields : list (string * JsVal)) (s : string)
  (limit : option Z) (w : World Float) (data : list (Vec Float)) :
  lookup "query" fields = JStr s ->
  s <> "" ->
  lookup "limit" fields
  = match limit with Some n => JNum n | None => JUndefined end ->
  ai_run (embed_calls Float w) [s] = inr data ->
  let n := match limit with Some n => n | None => 20%Z end in
  trace (snd (serve PostSearch (JObj fields) w))
  = trace w ++ [EvEmbed [s]; EvQuery (nth_error data 0) (TopKInt (Z.min n 100))]
  /\ (Z.min n 100 <= 100)%Z
  /\ ((1 <= n)%Z -> Z.min n 100 = clamp n 1 100)
  /\ ((n < 1)%Z -> Z.min n 100 = n).
Proof.
  intros Hq Hs Hlim Hai n.
  split; [|unfold clamp; lia].
  unfold fetch, dispatch, handleSearch, destructure, liftR, bind.
  rewrite Hq, Hlim. cbn [truthy isString].
  destruct (String.eqb_spec s ""); [contradiction|]. cbn [negb orb to_string].
  unfold AI_run. rewrite Hai. unfold INDEX_query.
  destruct limit as [m|]; subst n; cbn [math_min_limit with_default];
    destruct (index_query _ _ _); unfold ret; cbn [snd trace log];
    now rewrite <- app_assoc.
Qed.


(** ** Batch indexing: the empty batch *)

(** C9.  When [images] is missing, not an array, or an empty array,
    [indexBatch] answers with the 400 "empty batch" error and leaves the
    world as it was: no embedding call, no upsert call. *)
Theorem indexBatch_empty_batch (body images : JsVal) (w : World Float) :
  destructure body "images" = Ret images ->
  isArray images = false \/ images = JArr [] ->
  serve PostIndexBatch body w
  = (Some (jsonResponse (errorBody emptyBatchMessage) 400), w).
Proof.
  intros Hd H. unfold fetch, dispatch, handleIndexBatch, liftR, bind.
  rewrite Hd. destruct H as [H | ->]; [|reflexivity].
  destruct images; try reflexivity. discriminate H.
Qed.

(** ** Every upserted record has the six metadata fields *)

Lemma processBatch_upserted (c : list JsVal) (w : World Float) :
  forall rec,
    In rec (upserted (trace (snd (process c w)))) ->
    In rec (upserted (trace w))
    \/ exists img, In img c /\ stored_metadata img (vr_metadata rec).
Proof.
  intros rec. unfold processBatch, bind, liftR, AI_run, INDEX_upsert.
  destruct (mapR imageText c) as [texts| |]; cbn [snd]; auto.
  destruct (ai_run _ texts) as [e|data]; cbn [snd trace log].
  - rewrite upserted_app, app_nil_r. auto.
  - destruct (mapiR (imageVector Float data) 0 c) as [vectors| |] eqn:Ev;
      cbn [snd trace log]; try (rewrite upserted_app, app_nil_r; now auto).
    assert (Hnew : In rec vectors ->
              exists img, In img c /\ stored_metadata img (vr_metadata rec)).
    { intros Hin. destruct (mapiR_In _ _ _ _ _ Ev Hin) as [i [img [Hc Hf]]].
      exists img. split; [exact Hc|]. exact (imageVector_metadata _ _ _ _ Hf). }
    destruct (index_upsert _ vectors) as [e|]; cbn [snd trace log].
    + rewrite !upserted_app. cbn [upserted flat_map]. rewrite !app_nil_r.
      intros H. apply in_app_or in H. destruct H as [H | H]; auto.
    + destruct (mapR imageResult c); cbn [snd trace];
        rewrite !upserted_app; cbn [upserted flat_map]; rewrite !app_nil_r;
        intros H; apply in_app_or in H; destruct H as [H | H]; auto.
Qed.

Lemma run_chunks_upserted (cs : list (list JsVal)) :
  forall results w rec,
    In rec (upserted (trace (snd (run cs results w)))) ->
    In rec (upserted (trace w))
    \/ exists img, In img (List.concat cs) /\ stored_metadata img (vr_metadata rec).
Proof.
  induction cs as [|c cs IH]; intros results w rec H; [now left|].
  cbn [run_chunks] in H. unfold bind in H.
  pose proof (processBatch_upserted c w rec) as Hc.
  destruct (process c w) as [[entries|e|] w1]; cbn [snd] in *.
  - destruct (IH _ _ _ H) as [H1 | [img [Hin Hm]]].
    + destruct (Hc H1) as [H0 | [img [Hin Hm]]]; [now left|].
      right. exists img. split; [|exact Hm]. cbn [List.concat].
      apply in_or_app. now left.
    + right. exists img. split; [|exact Hm]. cbn [List.concat].
      apply in_or_app. now right.
  - destruct (Hc H) as [H0 | [img [Hin Hm]]]; [now left|].
    right. exists img. split; [|exact Hm]. cbn [List.concat].
    apply in_or_app. now left.
  - destruct (Hc H) as [H0 | [img [Hin Hm]]]; [now left|].
    right. exists img. split; [|exact Hm]. cbn [List.concat].
    apply in_or_app. now left.
Qed.

Lemma handleIndex_upserted (body : JsVal) (w : World Float) :
  forall rec,
    In rec (upserted (trace (snd (indexOne body w)))) ->
    In rec (upserted (trace w)) \/ stored_metadata body (vr_metadata rec).
Proof.
  intros rec.
  assert (Hnull : body = JUndefined \/ body = JNull
                  \/ (body <> JUndefined /\ body <> JNull)).
  { destruct body; auto; right; right; split; discriminate. }
  destruct Hnull as [-> | [-> | [U N]]]; [now left|now left|].
  unfold handleIndex, bind, liftR.
  rewrite !(destructure_defined body _ U N).
  destruct (negb (truthy (get_prop_opt body "id"))); [now left|].
  destruct (textForEmbedding _ _ _ _ =? ""); [now left|].
  unfold AI_run.
  destruct (ai_run _ _) as [e|data]; cbn [snd trace log].
  { rewrite upserted_app, app_nil_r. auto. }
  destruct (buildMetadata _ _ _ _ _ _) as [md| |] eqn:E; cbn [snd trace log];
    try (rewrite upserted_app, app_nil_r; now auto).
  assert (Hmd : stored_metadata body md).
  { destruct (buildMetadata_shape _ _ _ _ _ _ _ E) as [t ->].
    exists t. do 5 eexists. split; [reflexivity|].
    repeat split; try reflexivity; try (apply (field_stored_or_else _));
      try (intros _; reflexivity). }
  unfold INDEX_upsert.
  destruct (index_upsert _ _) as [e|]; unfold ret; cbn [snd trace log];
    rewrite !upserted_app; cbn [upserted flat_map]; rewrite !app_nil_r;
    intros H; apply in_app_or in H; destruct H as [H | [<- | []]]; auto.
Qed.

(** C10, as the code has it.  Every record handed to [upsert] by
    [indexOne] or [indexBatch] carries a metadata object with exactly the
    fields tags, alt, caption, project, src, thumb, in this order; tags is
    an array; each of the other five is the request field itself when that
    is truthy and the empty string otherwise, hence a string whenever the
    request field is a string or falsy, and the empty string when it is
    absent. *)
Theorem upserted_metadata_shape (body : JsVal) (w : World Float)
  (rec : VectorRecord Float) :
  (In rec (upserted (trace (snd (serve PostIndex body w)))) ->
   In rec (upserted (trace w)) \/ stored_metadata body (vr_metadata rec))
  /\ (In rec (upserted (trace (snd (serve PostIndexBatch body w)))) ->
      In rec (upserted (trace w))
      \/ exists images img,
           get_prop_opt body "images" = JArr images /\ In img images
           /\ stored_metadata img (vr_metadata rec)).
Proof.
  split.
  - intros H. apply handleIndex_upserted.
    unfold fetch, dispatch in H.
    destruct (indexOne body w) as [[resp|e|] w']; exact H.
  - intros H.
    assert (H' : In rec (upserted (trace (snd (indexBatch body w))))).
    { unfold fetch, dispatch in H.
      destruct (indexBatch body w) as [[resp|e|] w']; exact H. }
    clear H. revert H'.
    unfold handleIndexBatch, bind, liftR.
    destruct body as [| |b|n|s|l|props]; cbn [destructure snd]; auto.
    change (lookup "images" props) with (get_prop_opt (JObj props) "images").
    destruct (get_prop_opt (JObj props) "images") as [| | | | |images|] eqn:E;
      cbn [snd]; auto.
    destruct (Nat.eqb (List.length images) 0); cbn [snd]; auto.
    rewrite batch_loop_run_chunks by lia.
    pose proof (run_chunks_upserted (chunks batchSize (skipn 0 images)) [] w rec)
      as Hr.
    destruct (run _ _ w) as [[results|e|] w']; cbn [snd] in *;
      (intros H; destruct (Hr H) as [H0 | [img [Hin Hm]]]; [now left|];
       right; exists images, img; split; [reflexivity|]; split; [|exact Hm];
       cbn [skipn] in Hin;
       rewrite (concat_chunks batchSize images) in Hin
         by (unfold batchSize; lia); exact Hin).
Qed.

(** ** Listing the tags *)

Lemma map_JStr_inj (l1 l2 : list string) :
  map JStr l1 = map JStr l2 -> l1 = l2.
Proof.
  revert l2. induction l1 as [|x l1 IH]; intros [|y l2] H;
    try discriminate; [reflexivity|].
  inversion H. f_equal. now apply IH.
Qed.

Lemma collectTags_strings (S ts : list string) (m : Match Float) :
  get_prop_opt (m_metadata m) "tags" = JArr (map JStr ts) ->
  collectTags Float (map JStr S) m = map JStr (fold_left str_add ts S).
Proof.
  intros H. unfold collectTags. rewrite H. apply fold_set_add_strings.
Qed.

Lemma fold_collectTags (ms : list (Match Float)) :
  (forall m, In m ms ->
     exists ts, get_prop_opt (m_metadata m) "tags" = JArr (map JStr ts)) ->
  forall S,
  exists S',
    fold_left (collectTags Float) ms (map JStr S) = map JStr S'
    /\ (NoDup S -> NoDup S')
    /\ (forall t,
          In t S' <->
          In t S
          \/ exists m ts,
               In m ms
               /\ get_prop_opt (m_metadata m) "tags" = JArr (map JStr ts)
               /\ In t ts).
Proof.
  induction ms as [|m ms IH]; intros Htags S.
  - exists S. split; [reflexivity|]. split; [auto|].
    intros t. split; [now left|]. intros [H | [m [ts [[] _]]]]. exact H.
  - destruct (Htags m (or_introl eq_refl)) as [ts Hts].
    destruct (IH (fun m' H => Htags m' (or_intror H)) (fold_left str_add ts S))
      as [S' [Hf [Hn Hi]]].
    destruct (fold_str_add_spec ts S) as [Hn0 Hi0].
    exists S'. cbn [fold_left]. rewrite (collectTags_strings S ts m Hts).
    split; [exact Hf|]. split; [auto|].
    intros t. rewrite Hi, Hi0. split.
    + intros [[H | H] | [m' [ts' [Hm' H]]]].
      * now left.
      * right. exists m, ts. split; [now left|]. now split.
      * right. exists m', ts'. split; [now right|exact H].
    + intros [H | [m' [ts' [[<- | Hm'] [Ht Hin]]]]].
      * left. now left.
      * left. right. rewrite Hts in Ht. inversion Ht as [E].
        apply map_JStr_inj in E. now subst.
      * right. exists m', ts'. now repeat split.
Qed.

(** C8.  When the tags of every returned record are an array of strings,
    [listTags] answers 200 with a list of strings that is strictly
    ascending in code-unit order, hence without duplicates, and that holds
    exactly the tags occurring in some returned record. *)
Theorem listTags_sorted_union (ms : list (Match Float)) (w : World Float) :
  index_query (store w) (Some (repeat fzero 768)) (TopKInt 10000) = inr ms ->
  (forall m, In m ms ->
     exists ts, get_prop_opt (m_metadata m) "tags" = JArr (map JStr ts)) ->
  exists out,
    fst (serve GetTags JUndefined w)
    = Some (jsonResponse (JArr (map JStr out)) 200)
    /\ StronglySorted str_lt out
    /\ NoDup out
    /\ (forall t,
          In t out <->
          exists m ts,
            In m ms
            /\ get_prop_opt (m_metadata m) "tags" = JArr (map JStr ts)
            /\ In t ts).
Proof.
  intros Hq Htags.
  destruct (fold_collectTags ms Htags []) as [S' [Hf [Hn Hi]]].
  specialize (Hn (NoDup_nil _)).
  exists (str_sort S'). split; [|split; [|split]].
  - unfold fetch, dispatch, handleGetTags, bind, INDEX_query.
    rewrite Hq. unfold ret. cbn [fst].
    change (@nil JsVal) with (map JStr []). rewrite Hf.
    now rewrite js_sort_strings.
  - apply sorted_nodup_strict; [apply str_sort_sorted|now apply str_sort_NoDup].
  - now apply str_sort_NoDup.
  - intros t. rewrite str_sort_In, Hi. split; [|now right].
    intros [[] | H]. exact H.
Qed.

(** ** Indexing one record *)

Lemma handleIndex_typed (r : RawImage) (w : World Float) :
  truthy (raw_id r) = true ->
  indexOne (image_js r) w
  = (if typed_text r =? "" then
       ret Float (jsonResponse (errorBody noTextMessage) 400)
     else
       bind Float (AI_run Float ai_run [typed_text r]) (fun data =>
       bind Float
         (liftR Float
            (buildMetadata (tags_js (raw_tags r)) (opt_js (raw_alt r))
               (opt_js (raw_caption r)) (opt_js (raw_project r))
               (opt_js (raw_src r)) (opt_js (raw_thumb r)))) (fun metadata =>
       bind Float
         (INDEX_upsert Float index_upsert
            [mkVectorRecord (raw_id r) (nth_error data 0) metadata]) (fun _ =>
       ret Float
         (jsonResponse (JObj [("success", JBool true); ("id", raw_id r)]) 200)))))
    w.
Proof.
  intros Hid. unfold handleIndex, image_js, liftR.
  unfold bind at 1 2 3 4 5 6 7. cbn [destructure lookup String.eqb Ascii.eqb Bool.eqb].
  rewrite Hid. cbn [negb]. rewrite textForEmbedding_typed.
  fold (typed_text r). reflexivity.
Qed.

(** [indexOne] rejects a typed record exactly when caption, alt, the tags
    component and project are all empty, without calling a binding; with a
    non-empty one and both calls succeeding it answers 200. *)
Lemma handleIndex_text_check (r : RawImage) (w : World Float) :
  truthy (raw_id r) = true ->
  (opt_str (raw_caption r) = "" /\ opt_str (raw_alt r) = ""
   /\ tags_component (raw_tags r) = "" /\ opt_str (raw_project r) = "" ->
   serve PostIndex (image_js r) w
   = (Some (jsonResponse (errorBody noTextMessage) 400), w))
  /\ (typed_text r <> "" ->
      (exists d, ai_run (embed_calls Float w) [typed_text r] = inr d) ->
      (forall v, index_upsert (upsert_calls Float w) v = None) ->
      fst (serve PostIndex (image_js r) w)
      = Some (jsonResponse (JObj [("success", JBool true); ("id", raw_id r)]) 200)).
Proof.
  intros Hid. split.
  - intros H. apply typed_text_empty in H.
    unfold fetch, dispatch. rewrite (handleIndex_typed r w Hid), H. reflexivity.
  - intros Ht [d Hd] Hup.
    unfold fetch, dispatch. rewrite (handleIndex_typed r w Hid).
    destruct (String.eqb_spec (typed_text r) ""); [contradiction|].
    destruct (buildMetadata_typed r) as [md Hmd].
    unfold bind, AI_run, liftR, INDEX_upsert. rewrite Hd, Hmd.
    replace (upsert_calls Float (log Float (EvEmbed [typed_text r]) w))
      with (upsert_calls Float w).
    + rewrite Hup. reflexivity.
    + unfold log. destruct w as [tr st]. cbn [trace store].
      rewrite (upsert_calls_app tr st st). simpl. lia.
Qed.

(** C4, as the code has it.  For a record whose fields are strings when
    present, the text submitted for embedding joins with ". ", in the order
    caption, alt, tags, project, the components that are not empty; the
    tags component is the array joined with single spaces when tags is an
    array, and the tags string exactly as supplied when tags is a string.
    [indexBatch] computes it for every item and [indexOne] submits it in
    its embedding call. *)
Theorem embedded_text_components (r : RawImage) (w : World Float) :
  textForEmbedding (opt_js (raw_caption r)) (opt_js (raw_alt r))
    (tags_js (raw_tags r)) (opt_js (raw_project r))
  = String.concat ". "
      (filter nonempty
         [ opt_str (raw_caption r); opt_str (raw_alt r);
           match raw_tags r with
           | TagsAbsent => ""
           | TagsString s => s
           | TagsArray l => String.concat " " l
           end;
           opt_str (raw_project r) ])
  /\ imageText (image_js r) = Ret (typed_text r)
  /\ (truthy (raw_id r) = true -> typed_text r <> "" ->
      exists rest,
        trace (snd (serve PostIndex (image_js r) w))
        = trace w ++ EvEmbed [typed_text r] :: rest).
Proof.
  split; [apply textForEmbedding_typed|]. split; [apply imageText_typed|].
  intros Hid Ht. unfold fetch, dispatch. rewrite (handleIndex_typed r w Hid).
  destruct (String.eqb_spec (typed_text r) ""); [contradiction|].
  destruct (buildMetadata_typed r) as [md Hmd].
  unfold bind, AI_run, liftR, INDEX_upsert. rewrite Hmd.
  destruct (ai_run _ _) as [e|d]; cbn [snd trace log].
  - exists []. reflexivity.
  - destruct (index_upsert _ _); unfold ret; cbn [snd trace log];
      eexists; rewrite <- app_assoc; reflexivity.
Qed.

End WorkerProps.

(** * The properties on concrete requests *)

Lemma sample_images_ok (n : nat) :
  Forall (fun img => item_ok img = true) (sample_images n).
Proof.
  unfold sample_images. apply Forall_forall. intros img H.
  apply in_map_iff in H. destruct H as [i [<- _]]. reflexivity.
Qed.

Lemma sample_images_typed (n : nat) :
  Forall (fun img => item_typed img = true) (sample_images n).
Proof.
  unfold sample_images. apply Forall_forall. intros img H.
  apply in_map_iff in H. destruct H as [i [<- _]]. reflexivity.
Qed.

Lemma ai_ok_succeeds (n : nat) (t : list string) : exists d, ai_ok n t = inr d.
Proof. eexists; reflexivity. Defined.

Lemma ai_fail_at_before (k n : nat) (t : list string) :
  n < k -> exists d, ai_fail_at k n t = inr d.
Proof.
  intros H. unfold ai_fail_at.
  destruct (Nat.eqb_spec n k); [lia|]. eexists; reflexivity.
Defined.

(** ** Tags: the empty segment is stored *)

(** C1: the code on the spec's own example.  [indexOne] and [indexBatch]
    given the tags string "a, b ,, c" store the four entries "a", "b", "",
    "c": the empty segment is kept, where the normalisation of the
    specification gives "a", "b", "c". *)
Theorem index_keeps_empty_tag_segment :
  let item := JObj [("id", JStr "img1"); ("tags", JStr "a, b ,, c")] in
  let stored_tags (w : World Z) :=
    map (fun r => get_prop_opt (vr_metadata r) "tags") (store w) in
  stored_tags (snd (fetch Z 0%Z ai_ok upsert_ok query_all PostIndex item world0))
  = [JArr [JStr "a"; JStr "b"; JStr ""; JStr "c"]]
  /\ stored_tags
       (snd (fetch Z 0%Z ai_ok upsert_ok query_all PostIndexBatch
               (JObj [("images", JArr [item])]) world0))
     = [JArr [JStr "a"; JStr "b"; JStr ""; JStr "c"]]
  /\ spec_normalizeTags (JStr "a, b ,, c")
     = Some [JStr "a"; JStr "b"; JStr "c"]
  /\ fst (fetch Z 0%Z ai_ok upsert_ok query_all GetTags JUndefined
            (snd (fetch Z 0%Z ai_ok upsert_ok query_all PostIndex item world0)))
     = Some (jsonResponse (JArr [JStr ""; JStr "a"; JStr "b"; JStr "c"]) 200).
Proof. repeat split; vm_compute; reflexivity. Qed.

(** ** A batch item without text is indexed *)

(** C3: the code on a record with no caption, alt, tags or project.
    [indexOne] rejects it with the 400 "no text" error and calls nothing;
    [indexBatch] embeds the empty text, upserts the record and answers 200
    with [indexed: 1]. *)
Theorem indexBatch_accepts_item_without_text :
  let item := JObj [("id", JStr "img1")] in
  fetch Z 0%Z ai_ok upsert_ok query_all PostIndex item world0
  = (Some (jsonResponse (errorBody noTextMessage) 400), world0)
  /\ (let out := fetch Z 0%Z ai_ok upsert_ok query_all PostIndexBatch
                   (JObj [("images", JArr [item])]) world0 in
      fst out
      = Some (jsonResponse
                (JObj [ ("success", JBool true); ("indexed", JNum 1);
                        ("results",
                         JArr [JObj [("id", JStr "img1"); ("success", JBool true)]]) ])
                200)
      /\ map event_shape (trace (snd out)) = [("embed", 1); ("upsert", 1)]
      /\ trace (snd out)
         = [ EvEmbed [""];
             EvUpsert (assign (ai_data ai_ok 0 [""]) [item]) ]
      /\ map vr_id (store (snd out)) = [JStr "img1"]).
Proof. repeat split; vm_compute; reflexivity. Qed.

(** ** A failing chunk: no count in the response *)

(** C2 as stated fails: 11 items, the embedding call of the second chunk
    fails.  The ten records of the first chunk are stored, and the response
    is the 500 error body, which carries no [indexed] count, so not the
    count 10 of the items that succeeded. *)
Lemma indexBatch_failure_reports_no_count :
  let out := fetch Z 0%Z (ai_fail_at 1) upsert_ok query_all PostIndexBatch
               (JObj (sample_body 11)) world0 in
  map vr_id (store (snd out)) = map item_id (firstn 10 (sample_images 11))
  /\ fst out = Some (jsonResponse (errorBody "embedding unavailable") 500)
  /\ option_map reported_count (fst out) = Some None
  /\ option_map reported_count (fst out) <> Some (Some (JNum 10)).
Proof. repeat split; vm_compute; (reflexivity || discriminate). Qed.

Lemma indexBatch_failure_in_chunk_witness :
  exists w',
    fetch Z 0%Z (ai_fail_at 1) upsert_ok query_all PostIndexBatch
      (JObj (sample_body 11)) world0
    = (Some (jsonResponse (errorBody "embedding unavailable") 500), w')
    /\ map vr_id (store w') = map item_id (firstn 10 (sample_images 11)).
Proof.
  destruct (indexBatch_failure_in_chunk Z 0%Z (ai_fail_at 1) upsert_ok query_all
              (sample_body 11) (sample_images 11) 1
              (skipn 10 (sample_images 11)) "embedding unavailable")
    as (w' & attempted & H1 & _ & _ & H4 & _).
  - reflexivity.
  - apply sample_images_typed.
  - reflexivity.
  - intros n t H. now apply ai_fail_at_before.
  - reflexivity.
  - left. reflexivity.
  - exists w'. split; [exact H1|exact H4].
Defined.

(** ** The embedded text takes a tags string as supplied *)

(** C4 as stated fails: for the tags string "a,b" the stored, normalised
    tags are "a" and "b", whose join with a single space is "a b", but the
    embedded text has the component "a,b". *)
Lemma text_uses_raw_tag_string :
  metadataTags (JStr "a,b") = Ret (JArr [JStr "a"; JStr "b"])
  /\ spec_normalizeTags (JStr "a,b") = Some [JStr "a"; JStr "b"]
  /\ textForEmbedding (JStr "c") JUndefined (JStr "a,b") JUndefined = "c. a,b"
  /\ spec_text "c" "" ["a"; "b"] "" = "c. a b"
  /\ textForEmbedding (JStr "c") JUndefined (JStr "a,b") JUndefined
     <> spec_text "c" "" ["a"; "b"] "".
Proof. repeat split; vm_compute; (reflexivity || discriminate). Qed.

Lemma embedded_text_components_witness :
  exists rest,
    trace (snd (fetch Z 0%Z ai_ok upsert_ok query_all PostIndex
                  (image_js sample_record) world0))
    = trace world0 ++ EvEmbed ["c. a,b"] :: rest.
Proof.
  destruct (embedded_text_components Z 0%Z ai_ok upsert_ok query_all
              sample_record world0) as (_ & _ & H).
  apply H.
  - reflexivity.
  - vm_compute. discriminate.
Defined.

(** ** A limit below 1 is passed to the index *)

(** C5 as stated fails: with limit 0 the index is queried with topK 0,
    where [clamp(0, 1, 100)] is 1. *)
Lemma search_limit_zero_topK_zero :
  trace (snd (fetch Z 0%Z ai_ok upsert_ok query_all PostSearch
                (JObj [("query", JStr "sunset"); ("limit", JNum 0)]) world0))
  = [EvEmbed ["sunset"]; EvQuery (Some [0%Z; 0%Z]) (TopKInt 0)]
  /\ clamp 0 1 100 = 1%Z
  /\ TopKInt 0 <> TopKInt (clamp 0 1 100).
Proof. repeat split; vm_compute; (reflexivity || discriminate). Qed.

Lemma search_topK_min_100_witness :
  trace (snd (fetch Z 0%Z ai_ok upsert_ok query_all PostSearch
                (JObj [("query", JStr "valid query"); ("limit", JNum 500)])
                world0))
  = [EvEmbed ["valid query"]; EvQuery (Some [0%Z; 0%Z]) (TopKInt 100)].
Proof.
  destruct (search_topK_min_100 Z 0%Z ai_ok upsert_ok query_all
              [("query", JStr "valid query"); ("limit", JNum 500)]
              "valid query" (Some 500%Z) world0 [[0%Z; 0%Z]])
    as (H & _).
  - reflexivity.
  - discriminate.
  - reflexivity.
  - reflexivity.
  - exact H.
Defined.

(** ** Twenty-five items *)

Lemma indexBatch_chunked_calls_witness :
  map event_shape
    (trace (snd (fetch Z 0%Z ai_ok upsert_ok query_all PostIndexBatch
                   (JObj (sample_body 25)) world0)))
  = [ ("embed", 10); ("upsert", 10); ("embed", 10); ("upsert", 10);
      ("embed", 5); ("upsert", 5) ].
Proof.
  destruct (indexBatch_chunked_calls Z 0%Z ai_ok upsert_ok query_all
              (sample_body 25) (sample_images 25))
    as (H1 & _ & _ & _ & H5).
  - reflexivity.
  - discriminate.
  - apply sample_images_typed.
  - apply ai_ok_succeeds.
  - reflexivity.
  - rewrite H1. apply H5. reflexivity.
Defined.

(** ** Search *)


(** ** Listing the tags *)

Example listTags_sample :
  fst (fetch Z 0%Z ai_ok upsert_ok query_all GetTags JUndefined
         (mkWorld [] sample_store))
  = Some (jsonResponse (JArr [JStr "a"; JStr "b"; JStr "c"]) 200).
Proof. vm_compute. reflexivity. Qed.

Lemma listTags_sorted_union_witness :
  exists out,
    fst (fetch Z 0%Z ai_ok upsert_ok query_all GetTags JUndefined
           (mkWorld [] sample_store))
    = Some (jsonResponse (JArr (map JStr out)) 200)
    /\ StronglySorted str_lt out
    /\ NoDup out.
Proof.
  destruct (listTags_sorted_union Z 0%Z ai_ok upsert_ok query_all
              [ mkMatch (JStr "img1") 0%Z (JObj [("tags", JArr [JStr "a"; JStr "b"])]);
                mkMatch (JStr "img2") 0%Z (JObj [("tags", JArr [JStr "b"; JStr "c"])]) ]
              (mkWorld [] sample_store))
    as (out & H1 & H2 & H3 & _).
  - reflexivity.
  - intros m [<- | [<- | []]].
    + exists ["a"; "b"]. reflexivity.
    + exists ["b"; "c"]. reflexivity.
  - exists out. auto.
Defined.

(** ** The empty batch *)

Lemma indexBatch_empty_batch_witness :
  fetch Z 0%Z ai_ok upsert_ok query_all PostIndexBatch
    (JObj [("images", JArr [])]) world0
  = (Some (jsonResponse (errorBody emptyBatchMessage) 400), world0)
  /\ fetch Z 0%Z ai_ok upsert_ok query_all PostIndexBatch (JObj []) world0
     = (Some (jsonResponse (errorBody emptyBatchMessage) 400), world0)
  /\ fetch Z 0%Z ai_ok upsert_ok query_all PostIndexBatch
       (JObj [("images", JStr "img1")]) world0
     = (Some (jsonResponse (errorBody emptyBatchMessage) 400), world0).
Proof.
  split; [|split].
  - apply (indexBatch_empty_batch Z 0%Z ai_ok upsert_ok query_all
             (JObj [("images", JArr [])]) (JArr []) world0).
    + reflexivity.
    + right. reflexivity.
  - apply (indexBatch_empty_batch Z 0%Z ai_ok upsert_ok query_all
             (JObj []) JUndefined world0).
    + reflexivity.
    + left. reflexivity.
  - apply (indexBatch_empty_batch Z 0%Z ai_ok upsert_ok query_all
             (JObj [("images", JStr "img1")]) (JStr "img1") world0).
    + reflexivity.
    + left. reflexivity.
Defined.

(** ** A field that is not a string is stored as it is *)

(** C10 as stated fails: the request [{ id: 'img1', caption: 'c', alt: 5 }]
    is indexed with the number 5 as [alt], which is not a string. *)
Lemma metadata_keeps_non_string_field :
  let body := JObj [("id", JStr "img1"); ("caption", JStr "c"); ("alt", JNum 5)] in
  let out := fetch Z 0%Z ai_ok upsert_ok query_all PostIndex body world0 in
  fst out = Some (jsonResponse (JObj [("success", JBool true); ("id", JStr "img1")]) 200)
  /\ map (fun r => get_prop_opt (vr_metadata r) "alt") (store (snd out)) = [JNum 5]
  /\ isString (JNum 5) = false.
Proof. repeat split; vm_compute; reflexivity. Qed.

Lemma upserted_metadata_shape_witness :
  let body := JObj [("id", JStr "img1"); ("caption", JStr "c")] in
  let rec := mkVectorRecord (JStr "img1") (Some [0%Z; 0%Z])
               (JObj [ ("tags", JArr [JStr ""]); ("alt", JStr "");
                       ("caption", JStr "c"); ("project", JStr "");
                       ("src", JStr ""); ("thumb", JStr "") ]) in
  stored_metadata body (vr_metadata rec).
Proof.
  intros body rec.
  destruct (upserted_metadata_shape Z 0%Z ai_ok upsert_ok query_all
              body world0 rec) as (H & _).
  destruct H as [[] | H].
  - left. reflexivity.
  - exact H.
Defined.

(** * Further properties of the worker and of its callers *)

(** ** Association lists *)

Lemma assoc_get_set_same {V} (k : string) (v : V) (l : list (string * V)) :
  assoc_get k (assoc_set k v l) = Some v.
Proof.
  induction l as [|[k' v'] l IH]; simpl.
  - now rewrite String.eqb_refl.
  - destruct (k' =? k) eqn:E; simpl; now rewrite E.
Qed.

Lemma assoc_get_set_other {V} (k k0 : string) (v : V) (l : list (string * V)) :
  k0 <> k -> assoc_get k (assoc_set k0 v l) = assoc_get k l.
Proof.
  intros Hne. induction l as [|[k' v'] l IH]; simpl.
  - destruct (String.eqb_spec k0 k); [contradiction|reflexivity].
  - destruct (String.eqb_spec k' k0) as [->|Hk]; simpl.
    + destruct (String.eqb_spec k0 k); [contradiction|reflexivity].
    + destruct (k' =? k); [reflexivity|exact IH].
Qed.

Lemma lookup_set_same (k : string) (v : JsVal) (l : list (string * JsVal)) :
  lookup k (assoc_set k v l) = v.
Proof.
  induction l as [|[k' v'] l IH]; simpl.
  - now rewrite String.eqb_refl.
  - destruct (k' =? k) eqn:E; simpl; now rewrite E.
Qed.

Lemma lookup_set_other (k k0 : string) (v : JsVal) (l : list (string * JsVal)) :
  k0 <> k -> lookup k (assoc_set k0 v l) = lookup k l.
Proof.
  intros Hne. induction l as [|[k' v'] l IH]; simpl.
  - destruct (String.eqb_spec k0 k); [contradiction|reflexivity].
  - destruct (String.eqb_spec k' k0) as [->|Hk]; simpl.
    + destruct (String.eqb_spec k0 k); [contradiction|reflexivity].
    + destruct (k' =? k); [reflexivity|exact IH].
Qed.

(** Copying properties with distinct keys into an object: a copied key
    reads as in the source, another key as before. *)
Lemma lookup_spread (props : list (string * JsVal)) :
  NoDup (map fst props) ->
  forall target k,
    lookup k (fold_left (fun acc kv => assoc_set (fst kv) (snd kv) acc)
                props target)
    = if has_key k props then lookup k props else lookup k target.
Proof.
  induction props as [|[k0 v0] props IH]; intros Hnd target k; [reflexivity|].
  inversion Hnd as [|? ? Hk0 Hnd']; subst.
  cbn [fold_left fst snd]. rewrite (IH Hnd').
  unfold has_key. cbn [existsb fst lookup].
  destruct (String.eqb_spec k0 k) as [->|Hne]; cbn [orb].
  - assert (Hno : existsb (fun kv => fst kv =? k) props = false).
    { destruct (existsb _ props) eqn:E; [|reflexivity].
      apply existsb_exists in E. destruct E as [[k1 v1] [Hin E]].
      apply String.eqb_eq in E. simpl in E. subst.
      exfalso. apply Hk0. apply in_map_iff. now exists (k, v1). }
    rewrite Hno. apply lookup_set_same.
  - destruct (existsb _ props); [reflexivity|].
    now apply lookup_set_other.
Qed.

(** ** Values and texts *)

Lemma Z_to_string_nonempty (n : Z) : Z_to_string n <> "".
Proof.
  unfold Z_to_string. destruct (Z.to_int n) as [d|d]; [|discriminate].
  destruct d; discriminate.
Qed.

(** A truthy value that is not an array prints as a non-empty string. *)
Lemma to_string_truthy_nonempty (v : JsVal) :
  truthy v = true -> isArray v = false -> to_string v <> "".
Proof.
  destruct v as [| |b|n|s|l|props]; simpl; try discriminate.
  - destruct b; discriminate.
  - intros _ _. apply Z_to_string_nonempty.
  - destruct (String.eqb_spec s ""); [discriminate|auto].
Qed.

Lemma concat_cons_nonempty (sep x : string) (l : list string) :
  x <> "" -> String.concat sep (x :: l) <> "".
Proof.
  intros Hx. cbn [String.concat]. destruct l; [exact Hx|].
  destruct x; [congruence|discriminate].
Qed.

Lemma concat_app_nonempty (sep x : string) (l1 l2 : list string) :
  x <> "" -> String.concat sep (l1 ++ x :: l2) <> "".
Proof.
  intros Hx. induction l1 as [|y l1 IH]; [now apply concat_cons_nonempty|].
  cbn [app String.concat].
  destruct (l1 ++ x :: l2) eqn:E; [destruct l1; discriminate|].
  destruct y; [|discriminate]. simpl. intros H. apply IH.
  destruct sep; [exact H|discriminate].
Qed.

(** With a truthy [tags] that is not an array the embedded text is not
    empty. *)
Lemma textForEmbedding_tags_nonempty (caption alt tags project : JsVal) :
  truthy tags = true -> isArray tags = false ->
  textForEmbedding caption alt tags project <> "".
Proof.
  intros Ht Ha. unfold textForEmbedding, join.
  assert (E : match tags with
              | JArr l => JStr (String.concat " " (map join_elem l))
              | _ => or_else tags (JStr "")
              end = tags).
  { unfold or_else. rewrite Ht. destruct tags; try reflexivity. discriminate Ha. }
  unfold join in E. rewrite E.
  assert (J : join_elem tags <> "").
  { pose proof (to_string_truthy_nonempty tags Ht Ha).
    destruct tags; simpl in *; congruence. }
  cbn [filter].
  destruct (truthy (or_else caption (JStr ""))),
           (truthy (or_else alt (JStr ""))),
           (truthy (or_else project (JStr "")));
    rewrite Ht; cbn [map];
    match goal with
    | |- String.concat _ ?l <> "" =>
        first
          [ apply (concat_app_nonempty ". " (join_elem tags) [] _ J)
          | apply (concat_app_nonempty ". " (join_elem tags) [_] _ J)
          | apply (concat_app_nonempty ". " (join_elem tags) [_; _] _ J) ]
    end.
Qed.

Lemma buildMetadata_typed_eq (r : RawImage) :
  buildMetadata (tags_js (raw_tags r)) (opt_js (raw_alt r))
    (opt_js (raw_caption r)) (opt_js (raw_project r))
    (opt_js (raw_src r)) (opt_js (raw_thumb r))
  = Ret (typed_metadata r).
Proof.
  rewrite buildMetadata_eq. unfold typed_metadata. rewrite !or_else_opt.
  destruct (raw_tags r) as [|s|l]; cbn [tags_js typed_tags].
  - rewrite metadataTags_absent. reflexivity.
  - rewrite metadataTags_string. reflexivity.
  - rewrite metadataTags_array. reflexivity.
Qed.

(** ** The handlers behind the routes *)

Section WorkerRestProps.

Variable Float : Type.
Variable fzero : Float.
Variable ai_run : nat -> list string -> string + list (Vec Float).
Variable index_upsert : nat -> list (VectorRecord Float) -> option string.
Variable index_query :
  list (VectorRecord Float) -> option (Vec Float) -> TopK
  -> string + list (Match Float).
Variable allowed_origins : option string.

Abbreviation serve := (fetch Float fzero ai_run index_upsert index_query).
Abbreviation wfetch :=
  (worker_fetch Float fzero ai_run index_upsert index_query allowed_origins).
Abbreviation cors := (corsResponse (Float:=Float) allowed_origins).
Abbreviation getImages := (handleGetImages Float fzero index_query).
Abbreviation getTags := (handleGetTags Float fzero index_query).
Abbreviation search := (handleSearch Float ai_run index_query).
Abbreviation indexOne := (handleIndex Float ai_run index_upsert).
Abbreviation indexBatch := (handleIndexBatch Float ai_run index_upsert).

(** *** Search *)

(** What [handleSearch] does with a non-empty query string. *)
Lemma handleSearch_valid (fields : list (string * JsVal)) (s : string)
  (w : World Float) :
  lookup "query" fields = JStr s -> s <> "" ->
  let topK := math_min_limit (with_default (lookup "limit" fields) (JNum 20)) 100 in
  let w1 := log Float (EvEmbed [s]) w in
  search (JObj fields) w
  = match ai_run (embed_calls Float w) [s] with
    | inl e => (Throw e, w1)
    | inr data =>
        let w2 := log Float (EvQuery (nth_error data 0) topK) w1 in
        match index_query (store w) (nth_error data 0) topK with
        | inl e => (Throw e, w2)
        | inr ms =>
            (Ret (mkResponse 200 (PMatches (map (formatMatch Float) ms))), w2)
        end
    end.
Proof.
  intros Hq Hs topK w1.
  unfold handleSearch, destructure, liftR, bind. rewrite Hq.
  cbn [truthy isString]. destruct (String.eqb_spec s ""); [contradiction|].
  cbn [negb orb to_string]. unfold AI_run.
  destruct (ai_run _ _) as [e|data]; [reflexivity|].
  unfold INDEX_query. cbn [store log].
  destruct (index_query _ _ _); reflexivity.
Qed.



(** *** Which bindings a route touches *)

(** X3.  [search], [listTags] and [listImages] leave the store as it was and
    hand nothing to [upsert], whatever the request and whatever the
    bindings answer; the two listings issue exactly one call, the query
    with the 768 zeros and [topK] 10000, and no embedding call. *)
Theorem read_routes_keep_store (body : JsVal) (w : World Float) :
  (store (snd (search body w)) = store w
   /\ upserted (trace (snd (search body w))) = upserted (trace w))
  /\ (store (snd (getTags w)) = store w
      /\ trace (snd (getTags w))
         = trace w ++ [EvQuery (Some (repeat fzero 768)) (TopKInt 10000)])
  /\ (store (snd (getImages w)) = store w
      /\ trace (snd (getImages w))
         = trace w ++ [EvQuery (Some (repeat fzero 768)) (TopKInt 10000)]).
Proof.
  split; [|split].
  - unfold handleSearch, bind, liftR, AI_run, INDEX_query, ret.
    destruct body as [| |b|n|s|l|props]; cbn [destructure snd];
      try (split; reflexivity);
      (destruct (negb _ || negb _); [split; reflexivity|];
       destruct (ai_run _ _); cbn [snd store trace log];
       [rewrite upserted_app, app_nil_r; split; reflexivity|];
       destruct (index_query _ _ _); cbn [snd store trace log];
       rewrite !upserted_app, !app_nil_r; split; reflexivity).
  - unfold handleGetTags, bind, INDEX_query, ret.
    destruct (index_query _ _ _); split; reflexivity.
  - unfold handleGetImages, bind, INDEX_query, ret.
    destruct (index_query _ _ _); split; reflexivity.
Qed.

Lemma queries_app (tr1 tr2 : list (Event Float)) :
  queries (tr1 ++ tr2) = queries tr1 ++ queries tr2.
Proof. apply filter_app. Qed.

Lemma processBatch_queries (c : list JsVal) (w : World Float) :
  queries (trace (snd (processBatch Float ai_run index_upsert c w)))
  = queries (trace w).
Proof.
  unfold processBatch, bind, liftR, AI_run, INDEX_upsert.
  destruct (mapR imageText c) as [texts| |]; cbn [snd]; try reflexivity.
  destruct (ai_run _ texts) as [e|data]; cbn [snd trace log];
    [now rewrite queries_app, app_nil_r|].
  destruct (mapiR _ 0 c) as [vectors| |]; cbn [snd trace log];
    try (now rewrite queries_app, app_nil_r).
  destruct (index_upsert _ vectors); cbn [snd trace log].
  - now rewrite !queries_app, !app_nil_r.
  - destruct (mapR imageResult c); cbn [snd trace];
      now rewrite !queries_app, !app_nil_r.
Qed.

Lemma run_chunks_queries (cs : list (list JsVal)) :
  forall results w,
    queries (trace (snd (run_chunks Float ai_run index_upsert cs results w)))
    = queries (trace w).
Proof.
  induction cs as [|c cs IH]; intros results w; [reflexivity|].
  cbn [run_chunks]. unfold bind.
  pose proof (processBatch_queries c w) as Hc.
  destruct (processBatch Float ai_run index_upsert c w) as [[entries|e|] w1];
    cbn [snd] in *; [now rewrite IH|exact Hc|exact Hc].
Qed.

(** X4.  [indexOne] and [indexBatch] never query the index: a record is
    written without reading what the index holds for its id. *)
Theorem indexing_never_queries (body : JsVal) (w : World Float) :
  queries (trace (snd (indexOne body w))) = queries (trace w)
  /\ queries (trace (snd (indexBatch body w))) = queries (trace w).
Proof.
  split.
  - unfold handleIndex, bind, liftR, AI_run, INDEX_upsert, ret.
    destruct body as [| |b|n|s|l|props]; cbn [destructure snd];
      try reflexivity;
      (destruct (negb _); [reflexivity|];
       destruct (_ =? ""); [reflexivity|];
       destruct (ai_run _ _); cbn [snd trace log];
       [now rewrite queries_app, app_nil_r|];
       destruct (buildMetadata _ _ _ _ _ _); cbn [snd trace log];
       try (now rewrite queries_app, app_nil_r);
       destruct (index_upsert _ _); cbn [snd trace log];
       now rewrite !queries_app, !app_nil_r).
  - unfold handleIndexBatch, bind, liftR.
    destruct body as [| |b|n|s|l|props]; cbn [destructure snd]; try reflexivity.
    destruct (lookup "images" props) as [| | | | |images|]; try reflexivity.
    destruct (Nat.eqb (List.length images) 0); [reflexivity|].
    rewrite batch_loop_run_chunks by lia.
    pose proof (run_chunks_queries (chunks batchSize (skipn 0 images)) [] w) as H.
    destruct (run_chunks _ _ _ _ _ w) as [[results|e|] w']; exact H.
Qed.

(** *** Indexing one record *)

(** X5.  A request without a truthy [id] is answered 400 "missing id" before
    anything else is looked at: no text check, no call to a binding. *)
Theorem indexOne_missing_id (body id : JsVal) (w : World Float) :
  destructure body "id" = Ret id ->
  truthy id = false ->
  serve PostIndex body w
  = (Some (jsonResponse (errorBody missingIdMessage) 400), w).
Proof.
  intros Hd Hid. unfold fetch, dispatch, handleIndex, bind, liftR.
  destruct body as [| |b|n|s|l|props]; cbn [destructure] in *;
    try discriminate Hd; inversion Hd; subst;
    try reflexivity.
  rewrite Hid. reflexivity.
Qed.

(** X6.  A typed record with an id and some text, both calls succeeding: one
    embedding call with the text, one upsert of the single record made of
    the id, the first returned vector and the six-field metadata, which is
    appended to the store; the answer is 200 with the id. *)
Theorem indexOne_stores_record (r : RawImage) (w : World Float)
  (data : list (Vec Float)) :
  truthy (raw_id r) = true ->
  typed_text r <> "" ->
  ai_run (embed_calls Float w) [typed_text r] = inr data ->
  (forall v, index_upsert (upsert_calls Float w) v = None) ->
  let rec := mkVectorRecord (raw_id r) (nth_error data 0) (typed_metadata r) in
  serve PostIndex (image_js r) w
  = (Some (jsonResponse (JObj [("success", JBool true); ("id", raw_id r)]) 200),
     mkWorld (trace w ++ [EvEmbed [typed_text r]; EvUpsert [rec]])
             (store w ++ [rec])).
Proof.
  intros Hid Ht Hai Hup rec.
  unfold fetch, dispatch. rewrite (handleIndex_typed Float ai_run index_upsert r w Hid).
  destruct (String.eqb_spec (typed_text r) ""); [contradiction|].
  unfold bind, AI_run, liftR, INDEX_upsert.
  rewrite Hai, buildMetadata_typed_eq.
  replace (upsert_calls Float (log Float (EvEmbed [typed_text r]) w))
    with (upsert_calls Float w).
  - rewrite Hup. unfold ret, log; cbn [trace store].
    now rewrite <- app_assoc.
  - unfold log. destruct w as [tr st]. cbn [trace store].
    rewrite (upsert_calls_app Float tr st st). simpl. lia.
Qed.

(** X7.  With caption, alt and project a string or absent, a [tags] value
    that is [true], a non-zero safe integer or an object without a
    [toString] key of its own is only rejected after the embedding call:
    the call is issued, then the request fails with a 500 that carries the
    [TypeError] of [(tags || '').split], and nothing is upserted. *)
Theorem indexOne_bad_tags_after_embedding (fields : list (string * JsVal))
  (w : World Float) (data : list (Vec Float)) :
  let tags := lookup "tags" fields in
  let text := textForEmbedding (lookup "caption" fields) (lookup "alt" fields)
                tags (lookup "project" fields) in
  truthy (lookup "id" fields) = true ->
  text_field (lookup "caption" fields) = true ->
  text_field (lookup "alt" fields) = true ->
  text_field (lookup "project" fields) = true ->
  unsplittable tags = true ->
  ai_run (embed_calls Float w) [text] = inr data ->
  serve PostIndex (JObj fields) w
  = (Some (jsonResponse
             (errorBody ("(tags || " ++ dquote ++ dquote
                         ++ ").split is not a function")) 500),
     log Float (EvEmbed [text]) w).
Proof.
  intros tags text Hid _ _ _ Hu Hai.
  assert (Ht : truthy tags = true).
  { destruct tags; try discriminate Hu; cbn in *;
      [exact Hu | now apply andb_prop in Hu | reflexivity]. }
  assert (Ha : isArray tags = false) by (destruct tags; try discriminate Hu; reflexivity).
  unfold fetch, dispatch, handleIndex, bind, liftR. cbn [destructure].
  rewrite Hid. cbn [negb]. fold tags. fold text.
  destruct (String.eqb_spec text "") as [E|_].
  { exfalso. revert E. now apply textForEmbedding_tags_nonempty. }
  unfold AI_run. rewrite Hai.
  unfold buildMetadata, buildMetadata_at, metadataTags_at, split_trim_at,
    or_else. rewrite Ha, Ht.
  destruct tags; try discriminate; reflexivity.
Qed.

(** *** Listing the images *)

Lemma handleGetImages_run (w : World Float) :
  getImages w
  = let w1 := log Float (EvQuery (Some (repeat fzero 768)) (TopKInt 10000)) w in
    match index_query (store w) (Some (repeat fzero 768)) (TopKInt 10000) with
    | inl e => (Throw e, w1)
    | inr ms => (Ret (jsonResponse (JArr (map imageEntry ms)) 200), w1)
    end.
Proof.
  unfold handleGetImages, bind, INDEX_query, ret.
  destruct (index_query _ _ _); reflexivity.
Qed.

(** X8.  [listImages] answers with one object per record returned by the
    index, in the order returned.  Each field of the record's metadata is
    readable under its key; [id] is the id of the match unless the
    metadata has an [id] of its own, which then takes its place; a record
    without metadata gives [{ id }]. *)
Theorem listImages_entries (ms : list (Match Float)) (w : World Float) :
  index_query (store w) (Some (repeat fzero 768)) (TopKInt 10000) = inr ms ->
  exists entries,
    fst (getImages w) = Ret (jsonResponse (JArr entries) 200)
    /\ List.length entries = List.length ms
    /\ forall i m,
         nth_error ms i = Some m ->
         exists e,
           nth_error entries i = Some e
           /\ (forall props,
                 m_metadata m = JObj props -> NoDup (map fst props) ->
                 forall k,
                   get_prop_opt e k
                   = if has_key k props then lookup k props
                     else if k =? "id" then m_id m else JUndefined)
           /\ (truthy (m_metadata m) = false -> e = JObj [("id", m_id m)]).
Proof.
  intros Hq. exists (map imageEntry ms).
  rewrite handleGetImages_run, Hq. cbv zeta. cbn [fst].
  split; [reflexivity|]. split; [apply length_map|].
  intros i m Hm. exists (imageEntry m).
  split; [now apply map_nth_error|]. split.
  - intros props Hmd Hnd k. unfold imageEntry, spread_into.
    rewrite Hmd. cbn [spread_props get_prop_opt].
    rewrite (lookup_spread props Hnd). cbn [lookup].
    rewrite (String.eqb_sym k "id"). reflexivity.
  - intros Hf. unfold imageEntry, spread_into.
    destruct (m_metadata m) as [| |b|n|s|l|props]; try discriminate Hf;
      try reflexivity.
    simpl in Hf. destruct (String.eqb_spec s ""); [subst; reflexivity|discriminate].
Qed.

Lemma batch_records_fields (cs : list (list JsVal)) :
  forall na,
    map (fun r : VectorRecord Float => (vr_id r, vr_metadata r))
      (batch_records ai_run na cs)
    = map (fun img => (item_id img, item_metadata img)) (List.concat cs).
Proof.
  induction cs as [|c cs IH]; intros na; [reflexivity|].
  cbn [batch_records List.concat]. rewrite !map_app, IH. f_equal.
  unfold assign. generalize (ai_data ai_run na (map item_text c)) as data.
  intros data. generalize 0 as idx.
  induction c as [|img c IHc]; intros idx; [reflexivity|].
  cbn [mapi map]. now rewrite IHc.
Qed.

Lemma tags_field_stored (t : JsVal) :
  tags_field t = true -> metadataTags t = Ret (stored_tags t).
Proof.
  intros H. rewrite metadataTags_eq.
  destruct t as [| |b|n|s|l|props];
    unfold tags_field, text_field in H; cbn [isString truthy orb] in H;
    cbn [isArray stored_tags]; unfold or_else, split_trim, split_trim_at;
    cbn [truthy]; try reflexivity.
  - destruct b; [discriminate|reflexivity].
  - destruct (n =? 0)%Z; [reflexivity|discriminate].
  - destruct (String.eqb_spec s ""); [subst|]; reflexivity.
  - discriminate.
Qed.

Lemma item_listed_typed (img : JsVal) :
  item_listed img = true -> item_typed img = true.
Proof.
  unfold item_listed. intros H.
  apply andb_prop in H. destruct H as [H _].
  apply andb_prop in H. destruct H as [H _].
  apply andb_prop in H. now destruct H as [_ H].
Qed.

Lemma Forall_item_listed_ok (images : list JsVal) :
  Forall (fun img => item_listed img = true) images ->
  Forall (fun img => item_ok img = true) images.
Proof.
  apply Forall_impl. intros img H. now apply item_typed_ok, item_listed_typed.
Qed.

(** The entry of a stored record of a typed item. *)
Lemma imageEntry_item (img : JsVal) (score : Float) :
  item_typed img = true ->
  imageEntry (mkMatch (item_id img) score (item_metadata img))
  = item_entry img.
Proof.
  intros Hty.
  assert (T : tags_field (get_prop_opt img "tags") = true).
  { unfold item_typed in Hty.
    destruct img; try discriminate;
      apply andb_prop in Hty; destruct Hty as [H _];
      apply andb_prop in H; destruct H as [_ H]; exact H. }
  unfold imageEntry, item_entry, item_metadata. cbn [m_metadata m_id].
  rewrite buildMetadata_eq, (tags_field_stored _ T). reflexivity.
Qed.

Lemma entries_of_records (score : Float) (st : list (VectorRecord Float))
  (imgs : list JsVal) :
  Forall (fun img => item_typed img = true) imgs ->
  map (fun r => (vr_id r, vr_metadata r)) st
  = map (fun img => (item_id img, item_metadata img)) imgs ->
  map imageEntry (map (fun r => mkMatch (vr_id r) score (vr_metadata r)) st)
  = map item_entry imgs.
Proof.
  intros Hok. revert st. induction Hok as [|img imgs Hi _ IH]; intros st E.
  - destruct st; [reflexivity|discriminate].
  - destruct st as [|r st]; [discriminate|]. cbn [map] in *.
    inversion E as [[E1 E2 E3]]. f_equal; [|now apply IH].
    rewrite E1, E2. now apply imageEntry_item.
Qed.

(** What a batch whose calls all succeed leaves behind. *)
Lemma indexBatch_success_world (fields : list (string * JsVal))
  (images : list JsVal) :
  lookup "images" fields = JArr images ->
  images <> [] ->
  Forall (fun img => item_ok img = true) images ->
  (forall n t, exists d, ai_run n t = inr d) ->
  (forall n v, index_upsert n v = None) ->
  snd (indexBatch (JObj fields) world0)
  = mkWorld (batch_events ai_run 0 (chunks batchSize images))
            (batch_records ai_run 0 (chunks batchSize images)).
Proof.
  intros Hl Hne Hok Hai Hup.
  rewrite (handleIndexBatch_chunks Float ai_run index_upsert fields images
             world0 Hl Hne).
  unfold bind.
  rewrite (run_chunks_ok Float ai_run index_upsert
             (List.length (chunks batchSize images))).
  - reflexivity.
  - intros n t _. apply Hai.
  - intros n v _. apply Hup.
  - apply Forall_chunks; [unfold batchSize; lia|exact Hok].
  - reflexivity.
  - reflexivity.
Qed.

(** X9.  On an index that returns all its records, a batch of at most
    10000 items with distinct string ids and typed fields, indexed into the
    empty index with every call succeeding, is listed back by [listImages]
    item for item, in input order: each entry has the id of the item, its
    stored tags (the array, or the trimmed segments of the string) and its
    five other metadata fields. *)
Theorem listImages_after_indexBatch (fields : list (string * JsVal))
  (images : list JsVal) (score : Float) :
  full_scan index_query score ->
  lookup "images" fields = JArr images ->
  images <> [] ->
  Forall (fun img => item_listed img = true) images ->
  NoDup (map item_id images) ->
  (Z.of_nat (List.length images) <= 10000)%Z ->
  (forall n t, exists d, ai_run n t = inr d) ->
  (forall n v, index_upsert n v = None) ->
  fst (getImages (snd (serve PostIndexBatch (JObj fields) world0)))
  = Ret (jsonResponse (JArr (map item_entry images)) 200).
Proof.
  intros Hscan Hl Hne Hli Hnd Hlen Hai Hup.
  pose proof (Forall_item_listed_ok images Hli) as Hok.
  assert (Hn : 0 < batchSize) by (unfold batchSize; lia).
  assert (Hw : snd (serve PostIndexBatch (JObj fields) world0)
               = snd (indexBatch (JObj fields) world0)).
  { unfold fetch, dispatch.
    destruct (indexBatch (JObj fields) world0) as [[r|e|] w']; reflexivity. }
  rewrite Hw, (indexBatch_success_world fields images Hl Hne Hok Hai Hup).
  rewrite handleGetImages_run. cbv zeta. cbn [store].
  pose proof (batch_records_fields (chunks batchSize images) 0) as Hf.
  rewrite (concat_chunks batchSize images Hn) in Hf.
  rewrite Hscan.
  - cbn [fst]. do 3 f_equal. apply entries_of_records; [|exact Hf].
    revert Hli. apply Forall_impl. exact item_listed_typed.
  - rewrite batch_records_ids, (concat_chunks batchSize images Hn). exact Hnd.
  - apply (f_equal (@List.length _)) in Hf. rewrite !length_map in Hf.
    rewrite Hf. lia.
Qed.

Lemma nth_error_split_chunks {A} (l : list A) (k : nat) (c : A) :
  nth_error l k = Some c -> l = firstn k l ++ c :: skipn (S k) l.
Proof.
  revert k. induction l as [|x l IH]; intros k Hk.
  - destruct k; discriminate.
  - destruct k as [|k]; simpl in *; [congruence|]. f_equal. now apply IH.
Qed.

Lemma batch_events_counts (pre : list (list JsVal)) :
  forall na,
    List.length (filter (@is_embed Float) (batch_events ai_run na pre))
    = List.length pre
    /\ List.length (filter (@is_upsert Float) (batch_events ai_run na pre))
       = List.length pre.
Proof.
  induction pre as [|x l IH]; intros na; [split; reflexivity|].
  cbn [batch_events filter is_embed is_upsert List.length].
  destruct (IH (S na)) as [-> ->]. split; reflexivity.
Qed.

(** The store after a batch that fails in chunk [k]: the records of the
    chunks before it. *)
Lemma indexBatch_failed_store (fields : list (string * JsVal))
  (images : list JsVal) (k : nat) (c : list JsVal) (e : string) :
  lookup "images" fields = JArr images ->
  Forall (fun img => item_ok img = true) images ->
  nth_error (chunks batchSize images) k = Some c ->
  (forall n t, n < k -> exists d, ai_run n t = inr d) ->
  (forall n v, n < k -> index_upsert n v = None) ->
  (ai_run k (map item_text c) = inl e
   \/ exists d, ai_run k (map item_text c) = inr d
                /\ index_upsert k (assign d c) = Some e) ->
  store (snd (indexBatch (JObj fields) world0))
  = batch_records ai_run 0 (firstn k (chunks batchSize images)).
Proof.
  intros Hl Hok Hk Hai Hup Hfail.
  set (pre := firstn k (chunks batchSize images)).
  assert (Hn : 0 < batchSize) by (unfold batchSize; lia).
  assert (Hne : images <> []) by (intros ->; destruct k; discriminate Hk).
  pose proof (nth_error_split_chunks _ _ _ Hk) as Hsplit. fold pre in Hsplit.
  assert (Hcs : Forall (Forall (fun img => item_ok img = true))
                  (chunks batchSize images)) by now apply Forall_chunks.
  assert (Hlen : List.length pre = k).
  { unfold pre. apply firstn_length_le.
    apply Nat.lt_le_incl, nth_error_Some. congruence. }
  rewrite Hsplit in Hcs. apply Forall_app in Hcs. destruct Hcs as [Hpre Hc].
  pose proof (Forall_inv Hc) as Hc0.
  set (w1 := mkWorld (batch_events ai_run 0 pre) (batch_records ai_run 0 pre)).
  destruct (batch_events_counts pre 0) as [He1 Hu1]. rewrite Hlen in He1, Hu1.
  rewrite (handleIndexBatch_chunks Float ai_run index_upsert fields images
             world0 Hl Hne).
  unfold bind at 1. rewrite Hsplit, run_chunks_app.
  rewrite (run_chunks_ok Float ai_run index_upsert k Hai Hup pre [] world0 Hpre);
    [| unfold embed_calls; cbn [trace world0 filter List.length]; lia
     | unfold upsert_calls; cbn [trace world0 filter List.length]; lia ].
  cbn [trace store world0 app]. fold w1.
  replace (embed_calls Float world0) with 0 by reflexivity.
  cbn [run_chunks]. unfold bind at 1.
  fold w1.
  destruct Hfail as [Hf | [d [Hd Hf]]].
  - rewrite (processBatch_embed_fails Float ai_run index_upsert c w1 e Hc0)
      by (unfold embed_calls, w1; cbn [trace]; now rewrite He1).
    reflexivity.
  - rewrite (processBatch_upsert_fails Float ai_run index_upsert c w1 d e Hc0)
      by (unfold embed_calls, upsert_calls, w1; cbn [trace];
          rewrite ?He1, ?Hu1; assumption).
    reflexivity.
Qed.

(** X10.  On an index that returns all its records, after a batch of at
    most 10000 items with distinct string ids and typed fields that failed
    in chunk [k], [listImages] shows exactly the first [10 * k] items of
    the batch, in input order and with their stored fields: the chunks
    before the failure and nothing of the failed chunk or of the later
    ones. *)
Theorem listImages_after_failed_batch (fields : list (string * JsVal))
  (images : list JsVal) (k : nat) (c : list JsVal) (e : string)
  (score : Float) :
  full_scan index_query score ->
  lookup "images" fields = JArr images ->
  Forall (fun img => item_listed img = true) images ->
  NoDup (map item_id images) ->
  (Z.of_nat (List.length images) <= 10000)%Z ->
  nth_error (chunks batchSize images) k = Some c ->
  (forall n t, n < k -> exists d, ai_run n t = inr d) ->
  (forall n v, n < k -> index_upsert n v = None) ->
  (ai_run k (map item_text c) = inl e
   \/ exists d, ai_run k (map item_text c) = inr d
                /\ index_upsert k (assign d c) = Some e) ->
  fst (getImages (snd (serve PostIndexBatch (JObj fields) world0)))
  = Ret (jsonResponse
           (JArr (map item_entry (firstn (k * batchSize) images))) 200).
Proof.
  intros Hscan Hl Hli Hnd Hlen Hk Hai Hup Hfail.
  pose proof (Forall_item_listed_ok images Hli) as Hok.
  assert (Hn : 0 < batchSize) by (unfold batchSize; lia).
  assert (Hw : snd (serve PostIndexBatch (JObj fields) world0)
               = snd (indexBatch (JObj fields) world0)).
  { unfold fetch, dispatch.
    destruct (indexBatch (JObj fields) world0) as [[r|e'|] w']; reflexivity. }
  rewrite Hw, handleGetImages_run. cbv zeta.
  rewrite (indexBatch_failed_store fields images k c e Hl Hok Hk Hai Hup Hfail).
  pose proof (batch_records_fields (firstn k (chunks batchSize images)) 0) as Hf.
  rewrite (concat_firstn_chunks batchSize Hn) in Hf.
  rewrite <- (firstn_skipn (k * batchSize) images) in Hli, Hnd.
  apply Forall_app in Hli. destruct Hli as [Hli _].
  rewrite map_app in Hnd. apply NoDup_app_remove_r in Hnd.
  rewrite Hscan.
  - cbn [fst]. do 3 f_equal. apply entries_of_records; [|exact Hf].
    revert Hli. apply Forall_impl. exact item_listed_typed.
  - rewrite batch_records_ids, (concat_firstn_chunks batchSize Hn). exact Hnd.
  - apply (f_equal (@List.length _)) in Hf. rewrite !length_map in Hf.
    rewrite Hf, length_firstn. lia.
Qed.

(** *** CORS *)

Lemma includes_In (l : list string) (x : string) :
  includes l x = true <-> In x l.
Proof.
  unfold includes. rewrite existsb_exists. split.
  - intros [y [Hy E]]. apply String.eqb_eq in E. now subst.
  - intros H. exists x. split; [exact H|apply String.eqb_refl].
Qed.

(** The [Access-Control-Allow-Origin] header after [corsResponse], for a
    response that had none. *)
Lemma cors_allow_origin_value (origin : option string)
  (resp : HttpResponse Float) :
  assoc_get "access-control-allow-origin" (hr_headers resp) = None ->
  assoc_get "access-control-allow-origin" (hr_headers (cors origin resp))
  = match origin with
    | Some o =>
        if nonempty o then
          if includes (allowedOrigins allowed_origins) o
             || includes (allowedOrigins allowed_origins) "*"
          then Some o else None
        else Some "*"
    | None => Some "*"
    end.
Proof.
  intros Hno. unfold corsResponse. cbn [hr_headers].
  rewrite !assoc_get_set_other by discriminate.
  destruct origin as [o|]; [|apply assoc_get_set_same].
  destruct (nonempty o); [|apply assoc_get_set_same].
  destruct (includes _ o || includes _ "*"); [apply assoc_get_set_same|exact Hno].
Qed.

(** X11.  The origin policy.  A request with an [Origin] gets that origin back
    in [Access-Control-Allow-Origin] when it is one of the comma-separated,
    trimmed entries of [ALLOWED_ORIGINS] or when "*" is one of them, and
    gets no such header otherwise; a request without [Origin] gets "*". *)
Theorem cors_origin_policy (origin : option string) (resp : HttpResponse Float) :
  assoc_get "access-control-allow-origin" (hr_headers resp) = None ->
  let entries := map trim (split_comma (opt_str allowed_origins)) in
  let granted :=
    assoc_get "access-control-allow-origin" (hr_headers (cors origin resp)) in
  (forall o, origin = Some o -> o <> "" ->
             In o entries \/ In "*" entries -> granted = Some o)
  /\ (forall o, origin = Some o -> o <> "" ->
                ~ In o entries -> ~ In "*" entries -> granted = None)
  /\ (origin = None \/ origin = Some "" -> granted = Some "*").
Proof.
  intros Hno entries granted. unfold granted.
  rewrite (cors_allow_origin_value origin resp Hno).
  fold entries. change (allowedOrigins allowed_origins) with entries.
  split; [|split].
  - intros o -> Ho Hin. unfold nonempty.
    destruct (String.eqb_spec o ""); [contradiction|]. cbn [negb].
    destruct Hin as [H | H]; apply includes_In in H; rewrite H;
      [reflexivity|now rewrite orb_true_r].
  - intros o -> Ho H1 H2. unfold nonempty.
    destruct (String.eqb_spec o ""); [contradiction|]. cbn [negb].
    destruct (includes entries o) eqn:E1;
      [apply includes_In in E1; contradiction|].
    destruct (includes entries "*") eqn:E2;
      [apply includes_In in E2; contradiction|reflexivity].
  - intros [-> | ->]; reflexivity.
Qed.

(** X12.  With [ALLOWED_ORIGINS] unset or empty no origin is granted: a request
    that carries an [Origin] never gets [Access-Control-Allow-Origin]. *)
Theorem cors_unset_grants_nothing (o : string) (resp : HttpResponse Float) :
  allowed_origins = None \/ allowed_origins = Some "" ->
  o <> "" ->
  assoc_get "access-control-allow-origin" (hr_headers resp) = None ->
  assoc_get "access-control-allow-origin" (hr_headers (cors (Some o) resp))
  = None.
Proof.
  intros Ha Ho Hno. rewrite (cors_allow_origin_value (Some o) resp Hno).
  assert (E : allowedOrigins allowed_origins = [""])
    by (destruct Ha as [-> | ->]; reflexivity).
  rewrite E. unfold nonempty, includes. cbn [existsb].
  destruct (String.eqb_spec o ""); [contradiction|]. cbn [negb orb].
  destruct o as [|c o]; [contradiction|]. cbn [String.eqb].
  destruct (Ascii.eqb c "*"); reflexivity.
Qed.

Lemma cors_fixed_headers (origin : option string) (resp : HttpResponse Float) :
  let h := hr_headers (cors origin resp) in
  assoc_get "access-control-allow-methods" h = Some "GET, POST, OPTIONS"
  /\ assoc_get "access-control-allow-headers" h
     = Some "Content-Type, Authorization"
  /\ assoc_get "access-control-max-age" h = Some "86400"
  /\ hr_status (cors origin resp) = hr_status resp
  /\ hr_body (cors origin resp) = hr_body resp.
Proof.
  unfold corsResponse. cbn [hr_headers hr_status hr_body].
  repeat split;
    repeat first [ rewrite assoc_get_set_same; reflexivity
                 | rewrite assoc_get_set_other by discriminate ].
Qed.

(** X13.  Every response of the worker, for every request, carries the three
    fixed CORS headers: the successes, the 400s, the 404 and the 500 of
    the [catch] alike; an OPTIONS request is always answered 204. *)
Theorem every_response_has_cors_headers (req : Request) (w : World Float)
  (resp : HttpResponse Float) :
  fst (wfetch req w) = Some resp ->
  assoc_get "access-control-allow-methods" (hr_headers resp)
  = Some "GET, POST, OPTIONS"
  /\ assoc_get "access-control-allow-headers" (hr_headers resp)
     = Some "Content-Type, Authorization"
  /\ assoc_get "access-control-max-age" (hr_headers resp) = Some "86400"
  /\ (req_method req = "OPTIONS" -> hr_status resp = 204%Z).
Proof.
  unfold worker_fetch. intros H.
  assert (E : exists inner,
            resp = cors (req_origin req) inner
            /\ (req_method req = "OPTIONS" -> hr_status inner = 204%Z)).
  { destruct (String.eqb_spec (req_method req) "OPTIONS") as [Em|Em].
    - inversion H. eexists. split; [reflexivity|]. reflexivity.
    - destruct (routeRequest _ _ _ _ _ _ _) as [[r|e|] w'];
        inversion H; eexists; (split; [reflexivity|contradiction]). }
  destruct E as [inner [-> Hst]].
  destruct (cors_fixed_headers (req_origin req) inner) as (H1 & H2 & H3 & H4 & _).
  split; [exact H1|]. split; [exact H2|]. split; [exact H3|].
  intros Hm. rewrite H4. now apply Hst.
Qed.

(** *** Routing *)

(** X14.  Requests that reach no handler.  An OPTIONS request is answered 204
    with an empty body whatever its path; "/" and "/health" answer the
    health object for every other method; any other pair of path and
    method that is not one of the five routes (a known path with the wrong
    method included) is answered 404 "Not Found".  In the three cases no
    binding is called and the body of the request is not read. *)
Theorem routing_without_handler (req : Request) (w : World Float) :
  (req_method req = "OPTIONS" ->
   wfetch req w = (Some (cors (req_origin req) (nullResponse 204)), w))
  /\ (req_method req <> "OPTIONS" ->
      req_path req = "/" \/ req_path req = "/health" ->
      wfetch req w
      = (Some (cors (req_origin req) (httpJson (jsonResponse healthBody 200))), w))
  /\ (req_method req <> "OPTIONS" ->
      req_path req <> "/" -> req_path req <> "/health" ->
      ~ In (req_path req, req_method req) routes ->
      wfetch req w
      = (Some (cors (req_origin req) (textResponse "Not Found" 404)), w)).
Proof.
  unfold worker_fetch, routeRequest. split; [|split].
  - intros ->. reflexivity.
  - intros Hm Hp.
    destruct (String.eqb_spec (req_method req) "OPTIONS"); [contradiction|].
    destruct Hp as [-> | ->]; reflexivity.
  - intros Hm H1 H2 Hr.
    destruct (String.eqb_spec (req_method req) "OPTIONS"); [contradiction|].
    unfold routes in Hr. cbn [In] in Hr.
    repeat match goal with
           | |- context [String.eqb ?a ?b] => destruct (String.eqb_spec a b)
           end;
      cbn [andb orb];
      first
        [ reflexivity
        | congruence
        | exfalso; apply Hr;
          repeat match goal with
                 | H : req_path req = _ |- _ => rewrite H
                 | H : req_method req = _ |- _ => rewrite H
                 end;
          repeat (try (left; reflexivity); right) ].
Qed.

(** X15.  A body that is not valid JSON, posted to [/search], [/index] or
    [/index-batch], is answered 500 with the parser's message (not 400),
    and no binding is called. *)
Theorem malformed_body_is_500 (req : Request) (e : string) (w : World Float) :
  req_json req = inl e ->
  req_method req = "POST" ->
  req_path req = "/search" \/ req_path req = "/index"
  \/ req_path req = "/index-batch" ->
  wfetch req w
  = (Some (cors (req_origin req) (httpJson (jsonResponse (errorBody e) 500))), w).
Proof.
  intros Hj Hm Hp. unfold worker_fetch, routeRequest, request_json, bind, liftR.
  rewrite Hm, Hj. destruct Hp as [-> | [-> | ->]]; reflexivity.
Qed.

(** X16.  The four handlers behind their routes: a request on the path and with
    the method of a route, whose body parses to [body], gets the response
    of the handler on [body], status and payload unchanged, as JSON, with
    the CORS headers added; the bindings are called as the handler calls
    them.  [GET /tags] does not read the body. *)
Theorem worker_fetch_wraps_handlers (route : Route) (req : Request)
  (body : JsVal) (w : World Float) :
  req_path req = route_path route ->
  req_method req = route_method route ->
  (route <> GetTags -> req_json req = inr body) ->
  wfetch req w
  = match serve route body w with
    | (Some resp, w') => (Some (cors (req_origin req) (httpJson resp)), w')
    | (None, w') => (None, w')
    end.
Proof.
  intros Hp Hm Hj. unfold worker_fetch, routeRequest, request_json, fetch, dispatch.
  rewrite Hp, Hm.
  destruct route; cbn [route_path route_method String.eqb Ascii.eqb Bool.eqb andb];
    try (rewrite Hj by discriminate); unfold bind, liftR, ret.
  - destruct (handleSearch _ _ _ _ _) as [[r|e|] w']; reflexivity.
  - destruct (handleGetTags _ _ _ _) as [[r|e|] w']; reflexivity.
  - destruct (handleIndex _ _ _ _ _) as [[r|e|] w']; reflexivity.
  - destruct (handleIndexBatch _ _ _ _ _) as [[r|e|] w']; reflexivity.
Qed.

(** *** Listing the tags of records of any shape *)

Lemma record_tags_functional (tags : JsVal) (ts ts' : list string) :
  record_tags tags ts -> record_tags tags ts' -> ts = ts'.
Proof.
  intros [H | [[s [H ->]] | [Ha [Hs ->]]]] [H' | [[s' [H' ->]] | [Ha' [Hs' ->]]]];
    subst; try discriminate; try reflexivity.
  - inversion H' as [E]. now apply map_JStr_inj in E.
  - inversion H'. reflexivity.
Qed.

Lemma collectTags_record (S ts : list string) (m : Match Float) :
  record_tags (get_prop_opt (m_metadata m) "tags") ts ->
  collectTags Float (map JStr S) m = map JStr (fold_left str_add ts S).
Proof.
  unfold collectTags. intros [H | [[s [H ->]] | [Ha [Hs ->]]]].
  - rewrite H. apply fold_set_add_strings.
  - rewrite H. apply fold_set_add_strings.
  - destruct (get_prop_opt (m_metadata m) "tags"); try discriminate; reflexivity.
Qed.

Lemma fold_collectTags_records (ms : list (Match Float)) :
  (forall m, In m ms ->
     exists ts, record_tags (get_prop_opt (m_metadata m) "tags") ts) ->
  forall S,
  exists S',
    fold_left (collectTags Float) ms (map JStr S) = map JStr S'
    /\ (NoDup S -> NoDup S')
    /\ (forall t,
          In t S' <->
          In t S
          \/ exists m ts,
               In m ms
               /\ record_tags (get_prop_opt (m_metadata m) "tags") ts
               /\ In t ts).
Proof.
  induction ms as [|m ms IH]; intros Htags S.
  - exists S. split; [reflexivity|]. split; [auto|].
    intros t. split; [now left|]. intros [H | [m [ts [[] _]]]]. exact H.
  - destruct (Htags m (or_introl eq_refl)) as [ts Hts].
    destruct (IH (fun m' H => Htags m' (or_intror H)) (fold_left str_add ts S))
      as [S' [Hf [Hn Hi]]].
    destruct (fold_str_add_spec ts S) as [Hn0 Hi0].
    exists S'. cbn [fold_left]. rewrite (collectTags_record S ts m Hts).
    split; [exact Hf|]. split; [auto|].
    intros t. rewrite Hi, Hi0. split.
    + intros [[H | H] | [m' [ts' [Hm' H]]]].
      * now left.
      * right. exists m, ts. split; [now left|]. now split.
      * right. exists m', ts'. split; [now right|exact H].
    + intros [H | [m' [ts' [[<- | Hm'] [Ht Hin]]]]].
      * left. now left.
      * left. right. now rewrite (record_tags_functional _ _ _ Hts Ht).
      * right. exists m', ts'. now repeat split.
Qed.

(** X17.  [listTags] over records of any shape.  A [tags] field that is an
    array of strings gives its entries, one that is a string gives its
    non-empty trimmed comma-separated segments, a record without metadata
    or whose [tags] is neither gives nothing; the answer is the strictly
    ascending list of all of these.  The empty tag can only come from an
    array: when no record has an array for [tags], it is not listed. *)
Theorem listTags_any_shape (ms : list (Match Float)) (w : World Float) :
  index_query (store w) (Some (repeat fzero 768)) (TopKInt 10000) = inr ms ->
  (forall m, In m ms ->
     exists ts, record_tags (get_prop_opt (m_metadata m) "tags") ts) ->
  exists out,
    fst (serve GetTags JUndefined w)
    = Some (jsonResponse (JArr (map JStr out)) 200)
    /\ StronglySorted str_lt out
    /\ (forall t,
          In t out <->
          exists m ts,
            In m ms
            /\ record_tags (get_prop_opt (m_metadata m) "tags") ts
            /\ In t ts)
    /\ ((forall m, In m ms ->
           isArray (get_prop_opt (m_metadata m) "tags") = false) ->
        ~ In "" out).
Proof.
  intros Hq Htags.
  destruct (fold_collectTags_records ms Htags []) as [S' [Hf [Hn Hi]]].
  specialize (Hn (NoDup_nil _)).
  assert (Hmem : forall t,
            In t (str_sort S') <->
            exists m ts,
              In m ms
              /\ record_tags (get_prop_opt (m_metadata m) "tags") ts
              /\ In t ts).
  { intros t. rewrite str_sort_In, Hi. split; [|now right].
    intros [[] | H]. exact H. }
  exists (str_sort S'). split; [|split; [|split]].
  - unfold fetch, dispatch, handleGetTags, bind, INDEX_query.
    rewrite Hq. unfold ret. cbn [fst].
    change (@nil JsVal) with (map JStr []). rewrite Hf.
    now rewrite js_sort_strings.
  - apply sorted_nodup_strict; [apply str_sort_sorted|now apply str_sort_NoDup].
  - exact Hmem.
  - intros Hna Hin. apply Hmem in Hin.
    destruct Hin as [m [ts [Hm [Hr Hin]]]]. specialize (Hna m Hm).
    destruct Hr as [H | [[s [H ->]] | [_ [_ ->]]]].
    + rewrite H in Hna. discriminate.
    + apply filter_In in Hin. destruct Hin as [_ Hne]. discriminate Hne.
    + destruct Hin.
Qed.

(** X18.  When the query of the index fails, [GET /tags] and [GET /images]
    answer 500 with the message of the failure. *)
Theorem listings_fail_with_500 (req : Request) (e : string) (w : World Float) :
  index_query (store w) (Some (repeat fzero 768)) (TopKInt 10000) = inl e ->
  req_method req = "GET" ->
  req_path req = "/tags" \/ req_path req = "/images" ->
  fst (wfetch req w)
  = Some (cors (req_origin req) (httpJson (jsonResponse (errorBody e) 500))).
Proof.
  intros Hq Hm Hp. unfold worker_fetch, routeRequest. rewrite Hm.
  destruct Hp as [-> | ->]; cbn [String.eqb Ascii.eqb Bool.eqb andb];
    unfold bind, handleGetTags, handleGetImages, bind, INDEX_query;
    rewrite Hq; reflexivity.
Qed.

(** *** The gallery page as a client *)

(** X19.  What the gallery page posts is always a valid search: for a query of
    at least two code units the worker never answers 400, and when the
    embedding succeeds it queries the index with [topK] 50, below the cap;
    for a shorter query the page sends nothing. *)
Theorem gallery_search_accepted (q : string) (w : World Float) :
  (String.length q < 2 -> gallerySearchBody q = None)
  /\ (2 <= String.length q ->
      exists body,
        gallerySearchBody q = Some body
        /\ json_value body = body
        /\ (forall resp, fst (serve PostSearch body w) = Some resp ->
                         status resp <> 400%Z)
        /\ (forall data,
              ai_run (embed_calls Float w) [q] = inr data ->
              trace (snd (serve PostSearch body w))
              = trace w ++ [EvEmbed [q]; EvQuery (nth_error data 0) (TopKInt 50)])).
Proof.
  unfold gallerySearchBody. split.
  - intros H. apply Nat.ltb_lt in H. now rewrite H.
  - intros H. assert (Hq : q <> "") by (intros ->; simpl in H; lia).
    apply Nat.ltb_ge in H. rewrite H. eexists. split; [reflexivity|].
    split; [reflexivity|].
    pose proof (handleSearch_valid [("query", JStr q); ("limit", JNum 50)] q w
                  eq_refl Hq) as Hs.
    cbv zeta in Hs. cbn [lookup String.eqb Ascii.eqb Bool.eqb with_default
                         math_min_limit] in Hs.
    change (Z.min 50 100) with 50%Z in Hs.
    split.
    + intros resp. unfold fetch, dispatch. rewrite Hs.
      destruct (ai_run _ _) as [e|data]; [intros E; inversion E; discriminate|].
      destruct (index_query _ _ _); intros E; inversion E; discriminate.
    + intros data Hai. unfold fetch, dispatch. rewrite Hs, Hai.
      destruct (index_query _ _ _); cbn [snd trace log];
        now rewrite <- app_assoc.
Qed.

End WorkerRestProps.

(** ** The sync script *)

Lemma json_value_strings (l : list string) :
  json_value (JArr (map JStr l)) = JArr (map JStr l).
Proof.
  cbn [json_value]. f_equal.
  induction l as [|x l IH]; [reflexivity|]. cbn [map]. now rewrite IH.
Qed.

(** Sorting a strictly ascending list changes nothing. *)
Lemma str_sort_sorted_id (l : list string) :
  StronglySorted str_lt l -> str_sort l = l.
Proof.
  induction 1 as [|x l Hl IH Hx]; [reflexivity|].
  cbn [str_sort fold_right]. fold (str_sort l). rewrite IH.
  destruct l as [|y l]; [reflexivity|]. cbn [str_insert].
  inversion Hx as [|? ? Hxy _]; subst.
  unfold str_lt, String.ltb in Hxy. unfold String.leb.
  destruct (String.compare x y); try discriminate. reflexivity.
Qed.

Section SyncProps.

Variable SEARCH_ENDPOINT : string.
Variable http_get : string -> HttpResult.
Variable now : string.
Variable writeFile : string -> JsVal -> option string.

Abbreviation sync := (main SEARCH_ENDPOINT http_get now writeFile).
Abbreviation tags_url := (SEARCH_ENDPOINT ++ "/tags")%string.
Abbreviation images_url := (SEARCH_ENDPOINT ++ "/images")%string.

(** X20.  Whenever the tags cannot be had as an array (the request fails, the
    status is not 2xx, the body is not JSON, or it is JSON but not an
    array) the script writes no file and exits with code 1. *)
Theorem sync_without_tags_writes_nothing :
  (exists e, http_get tags_url = NetworkError e)
  \/ (exists st txt json,
        http_get tags_url = HttpReply st txt json
        /\ (response_ok st = false
            \/ (exists e, json = inl e)
            \/ (exists v, json = inr v /\ isArray v = false))) ->
  written sync = None /\ exit_code sync = Some 1%Z.
Proof.
  intros H. unfold main, fetchTags, fetchImages, fetchList.
  change (SEARCH_ENDPOINT ++ "/" ++ "tags")%string with tags_url.
  destruct H as [[e ->] | [st [txt [json [-> H]]]]]; [split; reflexivity|].
  destruct (response_ok st) eqn:Eok; cbn [negb]; [|split; reflexivity].
  destruct H as [H | [[e ->] | [v [-> Hv]]]];
    [discriminate|split; reflexivity|].
  destruct (js_length v) as [e|n]; [split; reflexivity|].
  destruct (match http_get _ with NetworkError _ => _ | HttpReply _ _ _ => _ end)
    as [e|imgs]; [|destruct (js_length imgs)];
    destruct v; try discriminate Hv; split; reflexivity.
Qed.

(** X21.  The tags arrive as an array of strings but the images cannot be
    fetched (the request fails, the status is not 2xx, or the body is not
    JSON): the file is still written, with the tags sorted by code units
    and an empty [images], and the script ends normally. *)
Theorem sync_images_fallback (st : Z) (txt : string) (ts : list string) :
  http_get tags_url = HttpReply st txt (inr (JArr (map JStr ts))) ->
  response_ok st = true ->
  (exists e, http_get images_url = NetworkError e)
  \/ (exists st' txt' json,
        http_get images_url = HttpReply st' txt' json
        /\ (response_ok st' = false \/ exists e, json = inl e)) ->
  (forall d, writeFile "data/gallery-tags.json" d = None) ->
  written sync
  = Some ("data/gallery-tags.json",
          JObj [ ("tags", JArr (map JStr (str_sort ts))); ("images", JArr []);
                 ("lastSynced", JStr now) ])
  /\ exit_code sync = None.
Proof.
  intros Ht Hok Hi Hw. unfold main, fetchTags, fetchImages, fetchList.
  change (SEARCH_ENDPOINT ++ "/" ++ "tags")%string with tags_url.
  change (SEARCH_ENDPOINT ++ "/" ++ "images")%string with images_url.
  rewrite Ht, Hok. cbn [negb js_length].
  assert (E : match http_get images_url with
              | NetworkError e => inl e
              | HttpReply st0 txt0 json =>
                  if negb (response_ok st0)
                  then inl ("Failed to fetch " ++ "images" ++ ": "
                            ++ Z_to_string st0 ++ " " ++ txt0)%string
                  else json
              end = inl (match http_get images_url with
                         | NetworkError e => e
                         | HttpReply st0 txt0 json =>
                             if negb (response_ok st0)
                             then ("Failed to fetch " ++ "images" ++ ": "
                                   ++ Z_to_string st0 ++ " " ++ txt0)%string
                             else match json with inl e => e | inr _ => "" end
                         end)).
  { destruct Hi as [[e ->] | [st' [txt' [json [-> [H | [e ->]]]]]]];
      [reflexivity|now rewrite H|].
    destruct (negb (response_ok st')); reflexivity. }
  rewrite E. rewrite Hw. cbn [js_length]. rewrite js_sort_strings.
  split; reflexivity.
Qed.

(** X22.  When an array answered by the tags endpoint holds strings only,
    whatever file the script writes is [data/gallery-tags.json] and holds
    the fetched tags sorted by code units, the images and the time of the
    run; and the script ends normally only after writing it. *)
Theorem sync_written_file (p : string) (d : JsVal) :
  (forall st txt l,
     http_get tags_url = HttpReply st txt (inr (JArr l)) ->
     exists ts, l = map JStr ts) ->
  (written sync = Some (p, d) ->
   p = "data/gallery-tags.json"
   /\ writeFile p d = None
   /\ exists st txt ts images,
        http_get tags_url = HttpReply st txt (inr (JArr (map JStr ts)))
        /\ response_ok st = true
        /\ d = JObj [ ("tags", JArr (map JStr (str_sort ts)));
                      ("images", images); ("lastSynced", JStr now) ])
  /\ (exit_code sync = None -> exists p' d', written sync = Some (p', d')).
Proof.
  intros Hstr. unfold main, fetchTags, fetchImages, fetchList.
  change (SEARCH_ENDPOINT ++ "/" ++ "tags")%string with tags_url.
  change (SEARCH_ENDPOINT ++ "/" ++ "images")%string with images_url.
  destruct (http_get tags_url) as [e|st txt json];
    [split; intros H; discriminate H|].
  destruct (response_ok st) eqn:Eok; cbn [negb];
    [|split; intros H; discriminate H].
  destruct json as [e|tags]; [split; intros H; discriminate H|].
  destruct (js_length tags) as [e|n]; [split; intros H; discriminate H|].
  destruct (match http_get images_url with
            | NetworkError _ => _ | HttpReply _ _ _ => _ end) as [e|imgs].
  - destruct tags as [| | | | |l|]; try (split; intros H; discriminate H).
    destruct (Hstr st txt l eq_refl) as [ts ->]. rewrite js_sort_strings.
    destruct (writeFile _ _) eqn:Ew; [split; intros H; discriminate H|].
    cbn [js_length]. split.
    + intros H. inversion H; subst. split; [reflexivity|]. split; [exact Ew|].
      exists st, txt, ts, (JArr []). auto.
    + intros _. do 2 eexists. reflexivity.
  - destruct (js_length imgs) as [e|m] eqn:El;
      (destruct tags as [| | | | |l|]; try (split; intros H; discriminate H);
       destruct (Hstr st txt l eq_refl) as [ts ->]; rewrite js_sort_strings;
       destruct (writeFile _ _) eqn:Ew; [split; intros H; discriminate H|];
       rewrite ?El; split;
       [ intros H; inversion H; subst; split; [reflexivity|]; split; [exact Ew|];
         exists st, txt, ts, imgs; auto
       | intros H; try discriminate H; do 2 eexists; reflexivity ]).
Qed.

End SyncProps.

(** ** The sync script against the worker *)

Section SyncWorker.

Variable Float : Type.
Variable fzero : Float.
Variable ai_run : nat -> list string -> string + list (Vec Float).
Variable index_upsert : nat -> list (VectorRecord Float) -> option string.
Variable index_query :
  list (VectorRecord Float) -> option (Vec Float) -> TopK
  -> string + list (Match Float).
Variable allowed_origins : option string.
Variable SEARCH_ENDPOINT : string.
Variable http_get : string -> HttpResult.
Variable now : string.
Variable writeFile : string -> JsVal -> option string.

(** [GET /tags] over records whose tags are arrays of strings. *)
Lemma handleGetTags_strings (ms : list (Match Float)) (w : World Float) :
  index_query (store w) (Some (repeat fzero 768)) (TopKInt 10000) = inr ms ->
  (forall m, In m ms ->
     exists ts, get_prop_opt (m_metadata m) "tags" = JArr (map JStr ts)) ->
  exists out,
    fst (handleGetTags Float fzero index_query w)
    = Ret (jsonResponse (JArr (map JStr out)) 200)
    /\ StronglySorted str_lt out
    /\ (forall t,
          In t out <->
          exists m ts,
            In m ms
            /\ get_prop_opt (m_metadata m) "tags" = JArr (map JStr ts)
            /\ In t ts).
Proof.
  intros Hq Htags.
  destruct (fold_collectTags Float ms Htags []) as [S' [Hf [Hn Hi]]].
  specialize (Hn (NoDup_nil _)).
  exists (str_sort S'). split; [|split].
  - unfold handleGetTags, bind, INDEX_query. rewrite Hq. unfold ret. cbn [fst].
    change (@nil JsVal) with (map JStr []). rewrite Hf.
    now rewrite js_sort_strings.
  - apply sorted_nodup_strict; [apply str_sort_sorted|now apply str_sort_NoDup].
  - intros t. rewrite str_sort_In, Hi. split; [|now right].
    intros [[] | H]. exact H.
Qed.

(** X23.  The script run against this worker, whose index returns records with
    arrays of strings for tags: the tags written to the file are exactly
    the answer of [GET /tags], the strictly ascending list of the tags of
    the records; sorting them again changes nothing. *)
Theorem sync_writes_worker_tags (ms : list (Match Float)) (w : World Float) :
  index_query (store w) (Some (repeat fzero 768)) (TopKInt 10000) = inr ms ->
  (forall m, In m ms ->
     exists ts, get_prop_opt (m_metadata m) "tags" = JArr (map JStr ts)) ->
  (forall resp,
     fst (worker_fetch Float fzero ai_run index_upsert index_query
            allowed_origins
            (mkRequest "GET" "/tags" None (inl "Unexpected end of JSON input")) w)
     = Some resp ->
     transports resp (http_get (SEARCH_ENDPOINT ++ "/tags")%string)) ->
  (forall d, writeFile "data/gallery-tags.json" d = None) ->
  exists out images,
    written (main SEARCH_ENDPOINT http_get now writeFile)
    = Some ("data/gallery-tags.json",
            JObj [ ("tags", JArr (map JStr out)); ("images", images);
                   ("lastSynced", JStr now) ])
    /\ StronglySorted str_lt out
    /\ (forall t,
          In t out <->
          exists m ts,
            In m ms
            /\ get_prop_opt (m_metadata m) "tags" = JArr (map JStr ts)
            /\ In t ts).
Proof.
  intros Hq Htags Htr Hw.
  destruct (handleGetTags_strings ms w Hq Htags) as [out [Hg [Hs Hm]]].
  assert (Hresp : fst (worker_fetch Float fzero ai_run index_upsert index_query
                         allowed_origins
                         (mkRequest "GET" "/tags" None
                            (inl "Unexpected end of JSON input")) w)
                  = Some (corsResponse allowed_origins None
                            (httpJson (jsonResponse (JArr (map JStr out)) 200)))).
  { unfold worker_fetch, routeRequest.
    cbn [req_method req_path req_origin String.eqb Ascii.eqb Bool.eqb andb].
    unfold bind.
    destruct (handleGetTags Float fzero index_query w) as [r w'].
    cbn [fst] in Hg. subst r. reflexivity. }
  destruct (Htr _ Hresp) as [v [Hb Hr]].
  cbn [corsResponse hr_body hr_status httpJson jsonResponse payload status] in Hb, Hr.
  inversion Hb; subst v. rewrite json_value_strings in Hr.
  exists out.
  unfold main, fetchTags, fetchImages, fetchList.
  change (SEARCH_ENDPOINT ++ "/" ++ "tags")%string
    with (SEARCH_ENDPOINT ++ "/tags")%string.
  rewrite Hr. cbn [response_ok Z.leb Z.compare Pos.compare Pos.compare_cont
                   andb negb js_length].
  rewrite js_sort_strings, (str_sort_sorted_id out Hs).
  destruct (match http_get _ with NetworkError _ => _ | HttpReply _ _ _ => _ end)
    as [e|imgs].
  - rewrite Hw. eexists. split; [reflexivity|]. split; assumption.
  - destruct (js_length imgs) as [e|m] eqn:El; rewrite Hw, ?El;
      eexists; (split; [|split; assumption]);
      destruct (js_length imgs); reflexivity.
Qed.

End SyncWorker.

(** * The further properties on concrete requests *)



Lemma indexOne_missing_id_witness :
  fetch Z 0%Z ai_ok upsert_ok query_all PostIndex
    (JObj [("id", JStr ""); ("caption", JStr "c")]) world0
  = (Some (jsonResponse (errorBody missingIdMessage) 400), world0)
  /\ fetch Z 0%Z ai_ok upsert_ok query_all PostIndex (JObj []) world0
     = (Some (jsonResponse (errorBody missingIdMessage) 400), world0).
Proof.
  split.
  - apply (indexOne_missing_id Z 0%Z ai_ok upsert_ok query_all
             (JObj [("id", JStr ""); ("caption", JStr "c")]) (JStr ""));
      reflexivity.
  - apply (indexOne_missing_id Z 0%Z ai_ok upsert_ok query_all
             (JObj []) JUndefined); reflexivity.
Defined.

Lemma indexOne_stores_record_witness :
  store (snd (fetch Z 0%Z ai_ok upsert_ok query_all PostIndex
                (image_js sample_record) world0))
  = [ mkVectorRecord (JStr "img1") (Some [0%Z; 0%Z])
        (JObj [ ("tags", JArr [JStr "a"; JStr "b"]); ("alt", JStr "");
                ("caption", JStr "c"); ("project", JStr "");
                ("src", JStr ""); ("thumb", JStr "") ]) ].
Proof.
  rewrite (indexOne_stores_record Z 0%Z ai_ok upsert_ok query_all
             sample_record world0 [[0%Z; 0%Z]]).
  - reflexivity.
  - reflexivity.
  - vm_compute. discriminate.
  - reflexivity.
  - reflexivity.
Defined.

Lemma indexOne_bad_tags_after_embedding_witness :
  fetch Z 0%Z ai_ok upsert_ok query_all PostIndex
    (JObj [("id", JStr "img1"); ("tags", JNum 5)]) world0
  = (Some (jsonResponse
             (errorBody ("(tags || " ++ dquote ++ dquote
                         ++ ").split is not a function")) 500),
     mkWorld [EvEmbed ["5"]] []).
Proof.
  apply (indexOne_bad_tags_after_embedding Z 0%Z ai_ok upsert_ok query_all
           [("id", JStr "img1"); ("tags", JNum 5)] world0 [[0%Z; 0%Z]]);
    reflexivity.
Defined.

Lemma listImages_entries_witness :
  exists entries,
    fst (handleGetImages Z 0%Z query_sample world0)
    = Ret (jsonResponse (JArr entries) 200)
    /\ List.length entries = 3.
Proof.
  destruct (listImages_entries Z 0%Z query_sample sample_matches world0 eq_refl)
    as (entries & H1 & H2 & _).
  exists entries. split; [exact H1|exact H2].
Defined.

Lemma sample_images_listed (n : nat) :
  Forall (fun img => item_listed img = true) (sample_images n).
Proof.
  unfold sample_images. apply Forall_forall. intros img H.
  apply in_map_iff in H. destruct H as [i [<- _]]. reflexivity.
Qed.

Lemma sample_images_ids_12 : NoDup (map item_id (sample_images 12)).
Proof. vm_compute. repeat constructor; simpl; intuition discriminate. Qed.

Lemma sample_images_ids_11 : NoDup (map item_id (sample_images 11)).
Proof. vm_compute. repeat constructor; simpl; intuition discriminate. Qed.

Lemma query_all_full_scan : full_scan query_all 0%Z.
Proof. intros st v k _ _. reflexivity. Qed.

Lemma listImages_after_indexBatch_witness :
  fst (handleGetImages Z 0%Z query_all
         (snd (fetch Z 0%Z ai_ok upsert_ok query_all PostIndexBatch
                 (JObj (sample_body 12)) world0)))
  = Ret (jsonResponse (JArr (map item_entry (sample_images 12))) 200).
Proof.
  apply (listImages_after_indexBatch Z 0%Z ai_ok upsert_ok query_all
           (sample_body 12) (sample_images 12) 0%Z).
  - apply query_all_full_scan.
  - reflexivity.
  - discriminate.
  - apply sample_images_listed.
  - apply sample_images_ids_12.
  - vm_compute. discriminate.
  - apply ai_ok_succeeds.
  - reflexivity.
Defined.

Lemma listImages_after_failed_batch_witness :
  fst (handleGetImages Z 0%Z query_all
         (snd (fetch Z 0%Z (ai_fail_at 1) upsert_ok query_all PostIndexBatch
                 (JObj (sample_body 11)) world0)))
  = Ret (jsonResponse
           (JArr (map item_entry (firstn 10 (sample_images 11)))) 200).
Proof.
  apply (listImages_after_failed_batch Z 0%Z (ai_fail_at 1) upsert_ok query_all
           (sample_body 11) (sample_images 11) 1
           (skipn 10 (sample_images 11)) "embedding unavailable" 0%Z).
  - apply query_all_full_scan.
  - reflexivity.
  - apply sample_images_listed.
  - apply sample_images_ids_11.
  - vm_compute. discriminate.
  - reflexivity.
  - intros n t H. now apply ai_fail_at_before.
  - reflexivity.
  - left. reflexivity.
Defined.

Lemma cors_origin_policy_witness :
  let resp := httpJson (Float:=Z) (jsonResponse healthBody 200) in
  let granted allowed origin :=
    assoc_get "access-control-allow-origin"
      (hr_headers (corsResponse allowed origin resp)) in
  granted (Some "https://a.example, https://b.example") (Some "https://b.example")
  = Some "https://b.example"
  /\ granted (Some "https://a.example, https://b.example") (Some "https://evil.example")
     = None
  /\ granted (Some "https://a.example") None = Some "*".
Proof.
  intros resp granted. split; [|split].
  - destruct (cors_origin_policy Z (Some "https://a.example, https://b.example")
                (Some "https://b.example") resp eq_refl) as (H & _ & _).
    apply (H "https://b.example" eq_refl); [discriminate|].
    left. right. left. reflexivity.
  - destruct (cors_origin_policy Z (Some "https://a.example, https://b.example")
                (Some "https://evil.example") resp eq_refl) as (_ & H & _).
    apply (H "https://evil.example" eq_refl); [discriminate| |].
    + intros [E | [E | []]]; discriminate E.
    + intros [E | [E | []]]; discriminate E.
  - destruct (cors_origin_policy Z (Some "https://a.example") None resp eq_refl)
      as (_ & _ & H).
    apply H. left. reflexivity.
Defined.

Lemma cors_unset_grants_nothing_witness :
  assoc_get "access-control-allow-origin"
    (hr_headers (corsResponse None (Some "https://a.example")
                   (httpJson (Float:=Z) (jsonResponse healthBody 200))))
  = None.
Proof.
  apply (cors_unset_grants_nothing Z None "https://a.example").
  - left. reflexivity.
  - discriminate.
  - reflexivity.
Defined.

Lemma every_response_has_cors_headers_witness :
  exists resp,
    fst (worker_fetch Z 0%Z ai_ok upsert_ok query_all None
           (mkRequest "DELETE" "/nowhere" (Some "https://a.example") (inl "x"))
           world0) = Some resp
    /\ hr_status resp = 404%Z
    /\ assoc_get "access-control-allow-methods" (hr_headers resp)
       = Some "GET, POST, OPTIONS".
Proof.
  eexists. split; [reflexivity|]. split; [reflexivity|].
  destruct (every_response_has_cors_headers Z 0%Z ai_ok upsert_ok query_all None
              (mkRequest "DELETE" "/nowhere" (Some "https://a.example") (inl "x"))
              world0 _ eq_refl) as (H & _).
  exact H.
Defined.

Lemma routing_without_handler_witness :
  hr_status_of
    (fst (worker_fetch Z 0%Z ai_ok upsert_ok query_all None
            (mkRequest "OPTIONS" "/index" None (inl "x")) world0)) = Some 204%Z
  /\ hr_status_of
       (fst (worker_fetch Z 0%Z ai_ok upsert_ok query_all None
               (mkRequest "POST" "/health" None (inl "x")) world0)) = Some 200%Z
  /\ worker_fetch Z 0%Z ai_ok upsert_ok query_all None
       (mkRequest "GET" "/search" None (inl "x")) world0
     = (Some (corsResponse None None (textResponse "Not Found" 404)), world0).
Proof.
  split; [|split].
  - destruct (routing_without_handler Z 0%Z ai_ok upsert_ok query_all None
                (mkRequest "OPTIONS" "/index" None (inl "x")) world0)
      as (H & _ & _).
    rewrite (H eq_refl). reflexivity.
  - destruct (routing_without_handler Z 0%Z ai_ok upsert_ok query_all None
                (mkRequest "POST" "/health" None (inl "x")) world0)
      as (_ & H & _).
    rewrite H; [reflexivity|discriminate|right; reflexivity].
  - destruct (routing_without_handler Z 0%Z ai_ok upsert_ok query_all None
                (mkRequest "GET" "/search" None (inl "x")) world0)
      as (_ & _ & H).
    apply H; try discriminate.
    intros [E | [E | [E | [E | [E | []]]]]]; discriminate E.
Defined.

Lemma malformed_body_is_500_witness :
  worker_fetch Z 0%Z ai_ok upsert_ok query_all None
    (mkRequest "POST" "/index" None (inl "Unexpected token } in JSON")) world0
  = (Some (corsResponse None None
             (httpJson (jsonResponse (errorBody "Unexpected token } in JSON") 500))),
     world0).
Proof.
  apply (malformed_body_is_500 Z 0%Z ai_ok upsert_ok query_all None
           (mkRequest "POST" "/index" None (inl "Unexpected token } in JSON"))).
  - reflexivity.
  - reflexivity.
  - right. left. reflexivity.
Defined.

Lemma worker_fetch_wraps_handlers_witness :
  fst (worker_fetch Z 0%Z ai_ok upsert_ok query_all None
         (mkRequest "POST" "/index-batch" None (inr (JObj []))) world0)
  = Some (corsResponse None None
            (httpJson (jsonResponse (errorBody emptyBatchMessage) 400))).
Proof.
  rewrite (worker_fetch_wraps_handlers Z 0%Z ai_ok upsert_ok query_all None
             PostIndexBatch
             (mkRequest "POST" "/index-batch" None (inr (JObj []))) (JObj [])
             world0).
  - reflexivity.
  - reflexivity.
  - reflexivity.
  - intros _. reflexivity.
Defined.

Lemma listTags_any_shape_witness :
  exists out,
    fst (fetch Z 0%Z ai_ok upsert_ok query_sample GetTags JUndefined world0)
    = Some (jsonResponse (JArr (map JStr out)) 200)
    /\ StronglySorted str_lt out.
Proof.
  destruct (listTags_any_shape Z 0%Z ai_ok upsert_ok query_sample
              sample_matches world0 eq_refl) as (out & H1 & H2 & _).
  - intros m [<- | [<- | [<- | []]]].
    + exists ["a"; "b"]. left. reflexivity.
    + exists ["b"; "c"]. right. left. exists "b, c ,". split; reflexivity.
    + exists []. right. right. repeat split; reflexivity.
  - exists out. auto.
Defined.

Example listTags_any_shape_sample :
  fst (fetch Z 0%Z ai_ok upsert_ok query_sample GetTags JUndefined world0)
  = Some (jsonResponse (JArr [JStr "a"; JStr "b"; JStr "c"]) 200).
Proof. vm_compute. reflexivity. Qed.

Lemma listings_fail_with_500_witness :
  fst (worker_fetch Z 0%Z ai_ok upsert_ok query_down None
         (mkRequest "GET" "/images" None (inl "x")) world0)
  = Some (corsResponse None None
            (httpJson (jsonResponse (errorBody "index unavailable") 500))).
Proof.
  apply (listings_fail_with_500 Z 0%Z ai_ok upsert_ok query_down None
           (mkRequest "GET" "/images" None (inl "x")) "index unavailable").
  - reflexivity.
  - reflexivity.
  - right. reflexivity.
Defined.

Lemma gallery_search_accepted_witness :
  gallerySearchBody "a" = None
  /\ exists body,
       gallerySearchBody "sunset" = Some body
       /\ trace (snd (fetch Z 0%Z ai_ok upsert_ok query_all PostSearch body world0))
          = [EvEmbed ["sunset"]; EvQuery (Some [0%Z; 0%Z]) (TopKInt 50)].
Proof.
  split.
  - destruct (gallery_search_accepted Z 0%Z ai_ok upsert_ok query_all "a" world0)
      as (H & _).
    apply H. simpl. lia.
  - destruct (gallery_search_accepted Z 0%Z ai_ok upsert_ok query_all "sunset"
                world0) as (_ & H).
    destruct H as (body & H1 & _ & _ & H4); [simpl; lia|].
    exists body. split; [exact H1|].
    apply (H4 [[0%Z; 0%Z]]). reflexivity.
Defined.

Lemma sync_without_tags_writes_nothing_witness :
  written (main sample_endpoint http_down "2024-01-01T00:00:00.000Z" write_ok)
  = None
  /\ exit_code (main sample_endpoint http_down "2024-01-01T00:00:00.000Z" write_ok)
     = Some 1%Z.
Proof.
  apply (sync_without_tags_writes_nothing sample_endpoint http_down).
  left. exists "fetch failed". reflexivity.
Defined.

Lemma sync_images_fallback_witness :
  written (main sample_endpoint http_tags_only "2024-01-01T00:00:00.000Z" write_ok)
  = Some ("data/gallery-tags.json",
          JObj [ ("tags", JArr [JStr "a"; JStr "b"]); ("images", JArr []);
                 ("lastSynced", JStr "2024-01-01T00:00:00.000Z") ])
  /\ exit_code (main sample_endpoint http_tags_only "2024-01-01T00:00:00.000Z"
                  write_ok) = None.
Proof.
  apply (sync_images_fallback sample_endpoint http_tags_only
           "2024-01-01T00:00:00.000Z" write_ok 200 "OK" ["b"; "a"]).
  - reflexivity.
  - reflexivity.
  - right. exists 404%Z, "Not Found", (inl "Unexpected token N in JSON").
    split; [reflexivity|]. left. reflexivity.
  - reflexivity.
Defined.

Lemma http_tags_only_strings (st : Z) (txt : string) (l : list JsVal) :
  http_tags_only (sample_endpoint ++ "/tags")
  = HttpReply st txt (inr (JArr l)) ->
  exists ts, l = map JStr ts.
Proof.
  intros H. vm_compute in H. inversion H. exists ["b"; "a"]. reflexivity.
Qed.

Lemma sync_written_file_witness :
  exists st txt ts images,
    http_tags_only (sample_endpoint ++ "/tags")
    = HttpReply st txt (inr (JArr (map JStr ts)))
    /\ response_ok st = true
    /\ JObj [ ("tags", JArr [JStr "a"; JStr "b"]); ("images", JArr []);
              ("lastSynced", JStr "2024-01-01T00:00:00.000Z") ]
       = JObj [ ("tags", JArr (map JStr (str_sort ts))); ("images", images);
                ("lastSynced", JStr "2024-01-01T00:00:00.000Z") ].
Proof.
  destruct (sync_written_file sample_endpoint http_tags_only
              "2024-01-01T00:00:00.000Z" write_ok "data/gallery-tags.json"
              (JObj [ ("tags", JArr [JStr "a"; JStr "b"]); ("images", JArr []);
                      ("lastSynced", JStr "2024-01-01T00:00:00.000Z") ])
              http_tags_only_strings)
    as (H & _).
  destruct H as (_ & _ & H); [reflexivity|exact H].
Defined.

Lemma sync_writes_worker_tags_witness :
  exists out images,
    written (main sample_endpoint http_worker "2024-01-01T00:00:00.000Z" write_ok)
    = Some ("data/gallery-tags.json",
            JObj [ ("tags", JArr (map JStr out)); ("images", images);
                   ("lastSynced", JStr "2024-01-01T00:00:00.000Z") ])
    /\ StronglySorted str_lt out.
Proof.
  destruct (sync_writes_worker_tags Z 0%Z ai_ok upsert_ok query_all None
              sample_endpoint http_worker "2024-01-01T00:00:00.000Z" write_ok
              (map (fun r => mkMatch (vr_id r) 0%Z (vr_metadata r)) sample_store)
              (mkWorld [] sample_store))
    as (out & images & H1 & H2 & _).
  - reflexivity.
  - intros m [<- | [<- | []]].
    + exists ["a"; "b"]. reflexivity.
    + exists ["b"; "c"]. reflexivity.
  - intros resp H. inversion H; subst resp.
    eexists. split; reflexivity.
  - reflexivity.
  - exists out, images. auto.
Defined.

Example sync_worker_sample :
  written (main sample_endpoint http_worker "2024-01-01T00:00:00.000Z" write_ok)
  = Some ("data/gallery-tags.json",
          JObj [ ("tags", JArr [JStr "a"; JStr "b"; JStr "c"]);
                 ("images",
                  JArr [ JObj [("id", JStr "img1");
                               ("tags", JArr [JStr "a"; JStr "b"])];
                         JObj [("id", JStr "img2");
                               ("tags", JArr [JStr "b"; JStr "c"])] ]);
                 ("lastSynced", JStr "2024-01-01T00:00:00.000Z") ]).
Proof. vm_compute. reflexivity. Qed.
